(** * Consensus (FactNews): a shallow embedding of the client stores, hooks
  and result views, and of the retrieval / council core they call into.

  Text that the code only stores or compares against literals is carried
  as [string]; text that the code trims is carried as a list of UTF-16
  code units, so that [String.prototype.trim] can be written out. *)

From Stdlib Require Import ZArith QArith Qround Lqa Bool Lia.
From stdpp Require Import base option list strings pretty gmap sets sorting.

Local Open Scope Z_scope.

#[local] Set Warnings "-clear-no-such-hyp".

(* ===================================================================== *)
(** * JavaScript primitives used by the client code *)
(* ===================================================================== *)

Module JS.

(** [arr.slice(0, e)]: a negative end counts from the back, and the end is
    clamped to the length of the array. *)
Definition slice0 {A} (l : list A) (e : Z) : list A :=
  let len := Z.of_nat (length l) in
  let final := if e <? 0 then Z.max (len + e) 0 else Z.min e len in
  take (Z.to_nat final) l.

(** A JavaScript string: its sequence of UTF-16 code units. *)
Definition jsstring := list N.

(** ECMAScript WhiteSpace and LineTerminator code points: what
    [String.prototype.trim] strips. *)
Definition is_white_space (c : N) : bool :=
  ((c =? 0x9) || (c =? 0xA) || (c =? 0xB) || (c =? 0xC) || (c =? 0xD)
   || (c =? 0x20) || (c =? 0xA0) || (c =? 0x1680)
   || ((0x2000 <=? c) && (c <=? 0x200A))
   || (c =? 0x2028) || (c =? 0x2029) || (c =? 0x202F) || (c =? 0x205F)
   || (c =? 0x3000) || (c =? 0xFEFF))%N.

Fixpoint trimStart (s : jsstring) : jsstring :=
  match s with
  | [] => []
  | c :: s' => if is_white_space c then trimStart s' else s
  end.

Definition trimEnd (s : jsstring) : jsstring := rev (trimStart (rev s)).

Definition trim (s : jsstring) : jsstring := trimEnd (trimStart s).

(** [!s] on a string: only the empty string is falsy. *)
Definition not_string (s : jsstring) : bool :=
  match s with [] => true | _ :: _ => false end.

(** A string is blank when it is empty or made of white space only. *)
Definition blank (s : jsstring) : Prop := Forall (λ c, is_white_space c = true) s.

Lemma trimStart_blank s : blank s → trimStart s = [].
Proof.
  induction 1 as [|c s Hc _ IH]; simpl; [done|]. by rewrite Hc.
Qed.

Lemma trim_blank s : blank s → trim s = [].
Proof. intros H. unfold trim. by rewrite (trimStart_blank s H). Qed.

Lemma trimStart_nil_blank s : trimStart s = [] → blank s.
Proof.
  induction s as [|c s IH]; simpl; [constructor|].
  destruct (is_white_space c) eqn:Hc; [|done].
  intros H. apply Forall_cons; split; [done|by apply IH].
Qed.

Lemma trimStart_head s c t : trimStart s = c :: t → is_white_space c = false.
Proof.
  induction s as [|d s IH]; simpl; [done|].
  destruct (is_white_space d) eqn:Hd; [done|]. by intros [= <- _].
Qed.

Lemma trim_nil_blank s : trim s = [] → blank s.
Proof.
  unfold trim, trimEnd. intros H.
  apply trimStart_nil_blank.
  destruct (trimStart s) as [|c t] eqn:E; [done|].
  assert (H' : trimStart (rev (c :: t)) = []).
  { apply (f_equal (@rev N)) in H. by rewrite rev_involutive in H. }
  apply trimStart_nil_blank in H'.
  apply trimStart_head in E.
  assert (Hc : is_white_space c = true); [|congruence].
  unfold blank in H'. rewrite Forall_forall in H'. apply H'.
  apply list_elem_of_In, in_rev. rewrite rev_involutive. by left.
Qed.

Lemma not_string_trim s : not_string (trim s) = true ↔ blank s.
Proof.
  split.
  - intros H. apply trim_nil_blank. by destruct (trim s).
  - intros H. by rewrite trim_blank.
Qed.

Lemma slice0_nonneg {A} (l : list A) e : 0 ≤ e → slice0 l e = take (Z.to_nat e) l.
Proof.
  intros He. unfold slice0.
  destruct (Z.ltb_spec e 0) as [?|_]; [lia|].
  destruct (Z.min_spec e (Z.of_nat (length l))) as [[_ ->]|[Hle ->]]; [done|].
  rewrite Nat2Z.id. rewrite take_ge by lia. by rewrite take_ge by lia.
Qed.

Lemma slice0_length {A} (l : list A) e : 0 ≤ e → Z.of_nat (length (slice0 l e)) ≤ e.
Proof. intros He. rewrite slice0_nonneg by done. rewrite length_take. lia. Qed.

(** [" a b\t".trim()] is ["a b"]; a string of a no-break space and a line
    separator trims to the empty string. *)
Example trim_inner_space : trim [0x20; 0x61; 0x20; 0x62; 0x9]%N = [0x61; 0x20; 0x62]%N.
Proof. reflexivity. Qed.

Example trim_unicode_space : trim [0xA0; 0x2028; 0xFEFF]%N = [].
Proof. reflexivity. Qed.

(** [[1, 2, 3].slice(0, 2)], [.slice(0, 5)] and [.slice(0, -1)]. *)
Example slice0_examples :
  slice0 [1; 2; 3] 2 = [1; 2] ∧ slice0 [1; 2; 3] 5 = [1; 2; 3] ∧ slice0 [1; 2; 3] (-1) = [1; 2].
Proof. repeat split. Qed.

End JS.

(* ===================================================================== *)
(** * JavaScript numbers *)
(* ===================================================================== *)

Module Double.

(** A JavaScript number is an IEEE 754 binary64 value. A finite number is
    read as the rational it denotes, and an arithmetic operation yields the
    exact result rounded to the nearest number, ties to the even
    significand. The magnitudes the pages compute (percentages, scores of
    articles) stay far from overflow, which is not modelled. *)

(** The integer nearest to [n / d], ties to even, for positive [d]. *)
Definition round_half_even (n d : Z) : Z :=
  let q := n `div` d in
  match 2 * (n `mod` d) ?= d with
  | Lt => q
  | Gt => q + 1
  | Eq => if Z.even q then q else q + 1
  end.

(** The integer part of the binary logarithm of [n / d], for positive [n]
    and [d]. *)
Definition log2_floor (n d : Z) : Z :=
  let l := Z.log2 n - Z.log2 d in
  if (if 0 <=? l then d * 2 ^ l <=? n else d <=? n * 2 ^ (- l)) then l else l - 1.

(** Rounding to binary64: 53 bits of significand, and the spacing of the
    subnormal numbers, [2 ^ -1074], below the normal range. *)
Definition round (x : Q) : Q :=
  let n := Z.abs (Qnum x) in
  let d := Z.pos (Qden x) in
  if n =? 0 then 0%Q
  else
    let e := Z.max (log2_floor n d - 52) (-1074) in
    let v := if 0 <=? e then inject_Z (round_half_even n (d * 2 ^ e) * 2 ^ e)
             else (round_half_even (n * 2 ^ (- e)) d # Z.to_pos (2 ^ (- e)))%Q in
    if Qnum x <? 0 then (- v)%Q else v.

(** [x + y], [x * y] and [x / y] on numbers. *)
Definition add (x y : Q) : Q := round (x + y).
Definition mul (x y : Q) : Q := round (x * y).
Definition div (x y : Q) : Q := round (x / y).

(** The number a decimal literal or a JSON number denotes. *)
Definition of_decimal (x : Q) : Q := round x.

(** One tenth is not a number; the number nearest to it is a little
    larger, and three times it is not the number nearest to three tenths. *)
Example one_tenth :
  (of_decimal (1 # 10) == 3602879701896397 # 36028797018963968)%Q
  ∧ ¬ (mul 3 (of_decimal (1 # 10)) == of_decimal (3 # 10))%Q
  ∧ (add (of_decimal (1 # 10)) (of_decimal (2 # 10)) == 5404319552844596 # 18014398509481984)%Q.
Proof. split; [|split]; vm_compute; congruence. Qed.

End Double.

(* ===================================================================== *)
(** * Shared response types ([@/lib/types], as the code reads them) *)
(* ===================================================================== *)

Inductive Mode := Fast | Consensus.

Global Instance Mode_eq_dec : EqDecision Mode.
Proof. solve_decision. Defined.

Inductive Coverage := Low | Medium | High.

(** The fields of a fact that the result views read. *)
Record Fact := {
  claim : string;
  date : option string;
  evidence : option string;
  source_names : option (list string);
  fact_sources : list string;
  fact_confidence : string;
  fact_consensus : string;
}.

(** [ConsensusResponse]: the payload of a [complete] event of the ask
    stream; an optional field that is absent is [None]. *)
Record ConsensusResponse := {
  facts : list Fact;
  mode : option Mode;
  consensus_score : Q;
  coverage_quality : option Coverage;
  sources_analyzed : option Z;
  chunks_used : option Z;
  headline : option string;
  summary : option string;
  answer : option string;
  divergences : option (list string);
  bias_analysis : option string;
}.

(** [ModelResult], [JudgeResult] and [ArenaResponse] of app/arena/page.tsx. *)
Record ModelResult := {
  model : string;
  model_id : string;
  model_status : string;
  latency_s : Q;
  rating : Z;
  model_answer : option string;
  model_error : option string;
}.

Record JudgeResult := {
  agreements : option (list string);
  disagreements : option (list string);
  verdict : string;
  best : string;
  worst : string;
  judge_model : string;
}.

Record Meta := { succeeded : Z; failed : Z; total : Z }.

Record ArenaResponse := {
  models : list ModelResult;
  judge : JudgeResult;
  meta : Meta;
}.

(** A consensus-mode response that carries no facts. *)
Definition empty_response : ConsensusResponse :=
  {| facts := []; mode := Some Consensus; consensus_score := 0%Q;
     coverage_quality := None; sources_analyzed := None; chunks_used := None;
     headline := None; summary := None; answer := None; divergences := None;
     bias_analysis := None |}.

(* ===================================================================== *)
(** * The bookmark and search-history stores *)
(* ===================================================================== *)

Module Stores.
Section Stores.

(** Constants of [@/lib/constants] and the helper [calcDisruption] of
    [@/lib/utils]. [generateId()] and [Date.now()] are read by each add
    operation; their results are passed in as [id] and [now]. *)
Variable BOOKMARKS_MAX : Z.
Variable SEARCH_HISTORY_MAX : Z.
Variable calcDisruption : ArenaResponse → Z.

Record Bookmark := {
  b_id : string;
  b_query : JS.jsstring;
  b_response : ConsensusResponse;
  b_savedAt : Z;
  b_note : option string;
  b_mode : option Mode;
}.

Record ArenaBookmark := {
  ab_id : string;
  ab_query : JS.jsstring;
  ab_response : ArenaResponse;
  ab_savedAt : Z;
  ab_note : option string;
}.

Record BookmarkState := {
  bookmarks : list Bookmark;
  arenaBookmarks : list ArenaBookmark;
}.

Definition bookmark_init : BookmarkState :=
  {| bookmarks := []; arenaBookmarks := [] |}.

Definition addBookmark (id : string) (now : Z) (query : JS.jsstring)
    (response : ConsensusResponse) (note : option string) (md : option Mode)
    (state : BookmarkState) : BookmarkState :=
  {| bookmarks :=
       JS.slice0
         ({| b_id := id; b_query := query; b_response := response;
             b_savedAt := now; b_note := note; b_mode := md |}
          :: bookmarks state)
         BOOKMARKS_MAX;
     arenaBookmarks := arenaBookmarks state |}.

Definition removeBookmark (id : string) (state : BookmarkState) : BookmarkState :=
  {| bookmarks := filter (λ b, b_id b ≠ id) (bookmarks state);
     arenaBookmarks := arenaBookmarks state |}.

Definition removeByQuery (query : JS.jsstring) (state : BookmarkState) : BookmarkState :=
  {| bookmarks := filter (λ b, b_query b ≠ query) (bookmarks state);
     arenaBookmarks := arenaBookmarks state |}.

Definition isBookmarked (query : JS.jsstring) (state : BookmarkState) : bool :=
  existsb (λ b, bool_decide (b_query b = query)) (bookmarks state).

Definition getBookmark (id : string) (state : BookmarkState) : option Bookmark :=
  find (λ b, bool_decide (b_id b = id)) (bookmarks state).

Definition addArenaBookmark (id : string) (now : Z) (query : JS.jsstring)
    (response : ArenaResponse) (note : option string)
    (state : BookmarkState) : BookmarkState :=
  {| bookmarks := bookmarks state;
     arenaBookmarks :=
       JS.slice0
         ({| ab_id := id; ab_query := query; ab_response := response;
             ab_savedAt := now; ab_note := note |}
          :: arenaBookmarks state)
         BOOKMARKS_MAX |}.

Definition removeArenaBookmark (id : string) (state : BookmarkState) : BookmarkState :=
  {| bookmarks := bookmarks state;
     arenaBookmarks := filter (λ b, ab_id b ≠ id) (arenaBookmarks state) |}.

Definition isArenaBookmarked (query : JS.jsstring) (state : BookmarkState) : bool :=
  existsb (λ b, bool_decide (ab_query b = query)) (arenaBookmarks state).

(** ** Search history (stores/searchHistoryStore) *)

Record SearchHistoryEntry := {
  e_id : string;
  e_query : JS.jsstring;
  e_timestamp : Z;
  e_response : option ConsensusResponse;
  e_consensusScore : option Q;
  e_factsCount : Z;
  e_mode : Mode;
  e_type : string;
}.

Record ArenaHistoryEntry := {
  ae_id : string;
  ae_query : JS.jsstring;
  ae_timestamp : Z;
  ae_response : ArenaResponse;
  ae_bestModel : string;
  ae_worstModel : string;
  ae_modelsCount : Z;
  ae_disruption : Z;
}.

Record SearchHistoryState := {
  entries : list SearchHistoryEntry;
  arenaEntries : list ArenaHistoryEntry;
}.

Definition history_init : SearchHistoryState :=
  {| entries := []; arenaEntries := [] |}.

(** [mode ?? (response?.mode === "fast" ? "fast" : "consensus")] *)
Definition entry_mode (md : option Mode) (response : option ConsensusResponse) : Mode :=
  match md with
  | Some m => m
  | None =>
      match response ≫= mode with
      | Some Fast => Fast
      | _ => Consensus
      end
  end.

Definition new_entry (id : string) (now : Z) (query : JS.jsstring)
    (response : option ConsensusResponse) (md : option Mode) : SearchHistoryEntry :=
  {| e_id := id; e_query := query; e_timestamp := now; e_response := response;
     e_consensusScore := consensus_score <$> response;
     e_factsCount := from_option (λ r, Z.of_nat (length (facts r))) 0 response;
     e_mode := entry_mode md response;
     e_type := "search" |}.

Definition addEntry (id : string) (now : Z) (query : JS.jsstring)
    (response : option ConsensusResponse) (md : option Mode)
    (state : SearchHistoryState) : SearchHistoryState :=
  {| entries := JS.slice0 (new_entry id now query response md :: entries state)
                  SEARCH_HISTORY_MAX;
     arenaEntries := arenaEntries state |}.

Definition removeEntry (id : string) (state : SearchHistoryState) : SearchHistoryState :=
  {| entries := filter (λ e, e_id e ≠ id) (entries state);
     arenaEntries := arenaEntries state |}.

Definition clearHistory (state : SearchHistoryState) : SearchHistoryState :=
  {| entries := []; arenaEntries := [] |}.

Definition getEntry (id : string) (state : SearchHistoryState) : option SearchHistoryEntry :=
  find (λ e, bool_decide (e_id e = id)) (entries state).

Definition new_arena_entry (id : string) (now : Z) (query : JS.jsstring)
    (response : ArenaResponse) : ArenaHistoryEntry :=
  {| ae_id := id; ae_query := query; ae_timestamp := now; ae_response := response;
     ae_bestModel := best (judge response);
     ae_worstModel := worst (judge response);
     ae_modelsCount := succeeded (meta response);
     ae_disruption := calcDisruption response |}.

Definition addArenaEntry (id : string) (now : Z) (query : JS.jsstring)
    (response : ArenaResponse) (state : SearchHistoryState) : SearchHistoryState :=
  {| entries := entries state;
     arenaEntries := JS.slice0 (new_arena_entry id now query response :: arenaEntries state)
                       SEARCH_HISTORY_MAX |}.

Definition removeArenaEntry (id : string) (state : SearchHistoryState) : SearchHistoryState :=
  {| entries := entries state;
     arenaEntries := filter (λ e, ae_id e ≠ id) (arenaEntries state) |}.

Definition clearArenaHistory (state : SearchHistoryState) : SearchHistoryState :=
  {| entries := entries state; arenaEntries := [] |}.

Definition getArenaEntry (id : string) (state : SearchHistoryState) : option ArenaHistoryEntry :=
  find (λ e, bool_decide (ae_id e = id)) (arenaEntries state).

(** ** Sequences of store operations *)

Inductive BookmarkOp :=
| AddBookmark (id : string) (now : Z) (query : JS.jsstring)
    (response : ConsensusResponse) (note : option string) (md : option Mode)
| RemoveBookmark (id : string)
| RemoveByQuery (query : JS.jsstring)
| AddArenaBookmark (id : string) (now : Z) (query : JS.jsstring)
    (response : ArenaResponse) (note : option string)
| RemoveArenaBookmark (id : string).

Definition bookmark_step (state : BookmarkState) (op : BookmarkOp) : BookmarkState :=
  match op with
  | AddBookmark id now q r note md => addBookmark id now q r note md state
  | RemoveBookmark id => removeBookmark id state
  | RemoveByQuery q => removeByQuery q state
  | AddArenaBookmark id now q r note => addArenaBookmark id now q r note state
  | RemoveArenaBookmark id => removeArenaBookmark id state
  end.

Inductive HistoryOp :=
| AddEntry (id : string) (now : Z) (query : JS.jsstring)
    (response : option ConsensusResponse) (md : option Mode)
| RemoveEntry (id : string)
| ClearHistory
| AddArenaEntry (id : string) (now : Z) (query : JS.jsstring) (response : ArenaResponse)
| RemoveArenaEntry (id : string)
| ClearArenaHistory.

Definition history_step (state : SearchHistoryState) (op : HistoryOp) : SearchHistoryState :=
  match op with
  | AddEntry id now q r md => addEntry id now q r md state
  | RemoveEntry id => removeEntry id state
  | ClearHistory => clearHistory state
  | AddArenaEntry id now q r => addArenaEntry id now q r state
  | RemoveArenaEntry id => removeArenaEntry id state
  | ClearArenaHistory => clearArenaHistory state
  end.

Definition bookmark_run (ops : list BookmarkOp) (s : BookmarkState) : BookmarkState :=
  foldl bookmark_step s ops.

Definition history_run (ops : list HistoryOp) (s : SearchHistoryState) : SearchHistoryState :=
  foldl history_step s ops.

(** The size bound each store maintains. *)
Definition bookmark_bounded (s : BookmarkState) : Prop :=
  Z.of_nat (length (bookmarks s)) ≤ BOOKMARKS_MAX ∧
  Z.of_nat (length (arenaBookmarks s)) ≤ BOOKMARKS_MAX.

Definition history_bounded (s : SearchHistoryState) : Prop :=
  Z.of_nat (length (entries s)) ≤ SEARCH_HISTORY_MAX ∧
  Z.of_nat (length (arenaEntries s)) ≤ SEARCH_HISTORY_MAX.

(** What an add leaves in a list: the new record, then the newest
    [max - 1] of the old ones. *)
Lemma slice0_cons_pos {A} (x : A) (l : list A) (m : Z) :
  0 < m → JS.slice0 (x :: l) m = x :: take (Z.to_nat (m - 1)) l.
Proof.
  intros Hm. rewrite JS.slice0_nonneg by lia.
  replace (Z.to_nat m) with (S (Z.to_nat (m - 1))) by lia. done.
Qed.

Lemma length_filter_le {A} (P : A → Prop) `{∀ x, Decision (P x)} (l : list A) :
  (length (filter P l) ≤ length l)%nat.
Proof. apply length_filter. Qed.

Lemma bookmark_step_bounded s op :
  0 ≤ BOOKMARKS_MAX → bookmark_bounded s → bookmark_bounded (bookmark_step s op).
Proof.
  intros Hm [Hb Ha]. destruct op; split; simpl; try done.
  - by apply JS.slice0_length.
  - pose proof (length_filter_le (λ b, b_id b ≠ id) (bookmarks s)). lia.
  - pose proof (length_filter_le (λ b, b_query b ≠ query) (bookmarks s)). lia.
  - by apply JS.slice0_length.
  - pose proof (length_filter_le (λ b, ab_id b ≠ id) (arenaBookmarks s)). lia.
Qed.

Lemma history_step_bounded s op :
  0 ≤ SEARCH_HISTORY_MAX → history_bounded s → history_bounded (history_step s op).
Proof.
  intros Hm [Hb Ha]. destruct op; split; simpl; try done; try lia.
  - by apply JS.slice0_length.
  - pose proof (length_filter_le (λ e, e_id e ≠ id) (entries s)). lia.
  - by apply JS.slice0_length.
  - pose proof (length_filter_le (λ e, ae_id e ≠ id) (arenaEntries s)). lia.
Qed.

Lemma bookmark_run_bounded ops s :
  0 ≤ BOOKMARKS_MAX → bookmark_bounded s → bookmark_bounded (bookmark_run ops s).
Proof.
  intros Hm. revert s. induction ops as [|op ops IH]; intros s Hs; [done|].
  apply IH. by apply bookmark_step_bounded.
Qed.

Lemma history_run_bounded ops s :
  0 ≤ SEARCH_HISTORY_MAX → history_bounded s → history_bounded (history_run ops s).
Proof.
  intros Hm. revert s. induction ops as [|op ops IH]; intros s Hs; [done|].
  apply IH. by apply history_step_bounded.
Qed.

Lemma find_filter_none {A} (P : A → Prop) `{∀ x, Decision (P x)} (l : list A) :
  find (λ x, bool_decide (P x)) (filter (λ x, ¬ P x) l) = None.
Proof.
  induction l as [|x l IH]; simpl; [done|].
  rewrite filter_cons. case_decide as Hx; simpl; [|done].
  by rewrite bool_decide_false.
Qed.

(** Removing a bookmark by id keeps the other bookmarks in their order,
    leaves no bookmark with that id, and does not touch the arena
    bookmarks; removing by query leaves the query unbookmarked. *)
Lemma removals_only_remove id query s :
  bookmarks (removeBookmark id s) `sublist_of` bookmarks s
  ∧ getBookmark id (removeBookmark id s) = None
  ∧ (∀ b, b ∈ bookmarks s → b_id b ≠ id → b ∈ bookmarks (removeBookmark id s))
  ∧ arenaBookmarks (removeBookmark id s) = arenaBookmarks s
  ∧ isBookmarked query (removeByQuery query s) = false.
Proof.
  split; [apply sublist_filter|].
  split; [apply (find_filter_none (λ b, b_id b = id))|].
  split; [intros b Hb Hne; by apply list_elem_of_filter|].
  split; [done|].
  unfold isBookmarked, removeByQuery; simpl.
  induction (bookmarks s) as [|b l IH]; simpl; [done|].
  rewrite filter_cons. case_decide as Hb; simpl; [|done].
  by rewrite bool_decide_false.
Qed.

(** C8. Every add operation of the two stores (addBookmark,
    addArenaBookmark, addEntry, addArenaEntry), from every state, leaves
    the new record (the one made of the id, the time, the query and the
    response given, with the fields derived from the response) at the
    front followed by the newest old records, and
    leaves its list no longer than the store's maximum; hence along every
    sequence of store operations the bookmark lists never hold more than
    BOOKMARKS_MAX records and the history lists never more than
    SEARCH_HISTORY_MAX. *)
Theorem add_prepends_and_truncates :
  0 < BOOKMARKS_MAX → 0 < SEARCH_HISTORY_MAX →
  (∀ id now q r note md s,
     bookmarks (addBookmark id now q r note md s)
     = {| b_id := id; b_query := q; b_response := r; b_savedAt := now;
          b_note := note; b_mode := md |}
       :: take (Z.to_nat (BOOKMARKS_MAX - 1)) (bookmarks s)
     ∧ Z.of_nat (length (bookmarks (addBookmark id now q r note md s))) ≤ BOOKMARKS_MAX)
  ∧ (∀ id now q r note s,
     arenaBookmarks (addArenaBookmark id now q r note s)
     = {| ab_id := id; ab_query := q; ab_response := r; ab_savedAt := now;
          ab_note := note |}
       :: take (Z.to_nat (BOOKMARKS_MAX - 1)) (arenaBookmarks s)
     ∧ Z.of_nat (length (arenaBookmarks (addArenaBookmark id now q r note s)))
       ≤ BOOKMARKS_MAX)
  ∧ (∀ id now q r md s,
     entries (addEntry id now q r md s)
     = {| e_id := id; e_query := q; e_timestamp := now; e_response := r;
          e_consensusScore := match r with
                              | Some response => Some (consensus_score response)
                              | None => None
                              end;
          e_factsCount := match r with
                          | Some response => Z.of_nat (length (facts response))
                          | None => 0
                          end;
          e_mode := match md, r with
                    | Some m, _ => m
                    | None, Some response =>
                        match mode response with
                        | Some Fast => Fast
                        | _ => Consensus
                        end
                    | None, None => Consensus
                    end;
          e_type := "search" |}
       :: take (Z.to_nat (SEARCH_HISTORY_MAX - 1)) (entries s)
     ∧ Z.of_nat (length (entries (addEntry id now q r md s))) ≤ SEARCH_HISTORY_MAX)
  ∧ (∀ id now q r s,
     arenaEntries (addArenaEntry id now q r s)
     = {| ae_id := id; ae_query := q; ae_timestamp := now; ae_response := r;
          ae_bestModel := best (judge r); ae_worstModel := worst (judge r);
          ae_modelsCount := succeeded (meta r);
          ae_disruption := calcDisruption r |}
       :: take (Z.to_nat (SEARCH_HISTORY_MAX - 1)) (arenaEntries s)
     ∧ Z.of_nat (length (arenaEntries (addArenaEntry id now q r s)))
       ≤ SEARCH_HISTORY_MAX)
  ∧ (∀ ops, bookmark_bounded (bookmark_run ops bookmark_init))
  ∧ (∀ ops, history_bounded (history_run ops history_init))
  ∧ (∀ ops s, bookmark_bounded s → bookmark_bounded (bookmark_run ops s))
  ∧ (∀ ops s, history_bounded s → history_bounded (history_run ops s)).
Proof.
  intros Hb Hh.
  repeat split; intros; simpl;
    try (by apply slice0_cons_pos);
    try (apply JS.slice0_length; lia).
  - rewrite slice0_cons_pos by done. f_equal.
    unfold new_entry, entry_mode. by destruct md, r.
  - apply bookmark_run_bounded; [lia|]. split; simpl; lia.
  - apply bookmark_run_bounded; [lia|]. split; simpl; lia.
  - apply history_run_bounded; [lia|]. split; simpl; lia.
  - apply history_run_bounded; [lia|]. split; simpl; lia.
  - apply bookmark_run_bounded; [lia|done].
  - apply bookmark_run_bounded; [lia|done].
  - apply history_run_bounded; [lia|done].
  - apply history_run_bounded; [lia|done].
Qed.

End Stores.

(** A fast-mode response with one fact and its arena counterpart, for the
    example below. *)
Definition one_fact_response : ConsensusResponse :=
  {| facts := [ {| claim := "c"; date := None; evidence := None; source_names := None;
                   fact_sources := []; fact_confidence := "high";
                   fact_consensus := "true" |} ];
     mode := Some Fast; consensus_score := 1%Q;
     coverage_quality := None; sources_analyzed := None; chunks_used := None;
     headline := None; summary := None; answer := None; divergences := None;
     bias_analysis := None |}.

Definition two_models_response : ArenaResponse :=
  {| models := [];
     judge := {| agreements := None; disagreements := None; verdict := "v";
                 best := "GPT-4o Mini"; worst := "Grok 4.1 Fast"; judge_model := "j" |};
     meta := {| succeeded := 2; failed := 4; total := 6 |} |}.

(** With a maximum of two bookmarks, a third bookmark pushes the oldest
    one out; with a maximum of one history entry, a new search and a new
    battle each replace the entry that was there. *)
Lemma add_prepends_and_truncates_witness :
  0 < 2 ∧ 0 < 1
  ∧ b_id <$> bookmarks
      (addBookmark 2 "b3" 30 [0x63%N] empty_response None None
         {| bookmarks :=
              [ {| b_id := "b2"; b_query := [0x62%N]; b_response := empty_response;
                   b_savedAt := 20; b_note := None; b_mode := None |};
                {| b_id := "b1"; b_query := [0x61%N]; b_response := empty_response;
                   b_savedAt := 10; b_note := None; b_mode := None |} ];
            arenaBookmarks := [] |})
    = ["b3"; "b2"]%string
  ∧ entries
      (addEntry 1 "h2" 40 [0x64%N] (Some one_fact_response) None
         {| entries :=
              [ {| e_id := "h1"; e_query := [0x61%N]; e_timestamp := 5;
                   e_response := None; e_consensusScore := None; e_factsCount := 0;
                   e_mode := Consensus; e_type := "search" |} ];
            arenaEntries := [] |})
    = [ {| e_id := "h2"; e_query := [0x64%N]; e_timestamp := 40;
           e_response := Some one_fact_response; e_consensusScore := Some 1%Q;
           e_factsCount := 1; e_mode := Fast; e_type := "search" |} ]
  ∧ arenaEntries
      (addArenaEntry 1 (λ r, failed (meta r) * 10) "a2" 50 [0x65%N] two_models_response
         {| entries := [];
            arenaEntries :=
              [ {| ae_id := "a1"; ae_query := [0x61%N]; ae_timestamp := 6;
                   ae_response := two_models_response; ae_bestModel := "";
                   ae_worstModel := ""; ae_modelsCount := 0; ae_disruption := 0 |} ] |})
    = [ {| ae_id := "a2"; ae_query := [0x65%N]; ae_timestamp := 50;
           ae_response := two_models_response; ae_bestModel := "GPT-4o Mini";
           ae_worstModel := "Grok 4.1 Fast"; ae_modelsCount := 2;
           ae_disruption := 40 |} ].
Proof.
  split; [lia|]. split; [lia|].
  pose proof (add_prepends_and_truncates 2 1 (λ r, failed (meta r) * 10)
                ltac:(lia) ltac:(lia)) as (Hadd & _ & Hentry & Harena & _).
  split; [|split].
  - match goal with
    | |- _ <$> bookmarks (addBookmark _ ?id ?now ?q ?r ?note ?md ?s) = _ =>
        destruct (Hadd id now q r note md s) as [-> _]
    end.
    reflexivity.
  - match goal with
    | |- entries (addEntry _ ?id ?now ?q ?r ?md ?s) = _ =>
        destruct (Hentry id now q r md s) as [-> _]
    end.
    reflexivity.
  - match goal with
    | |- arenaEntries (addArenaEntry _ _ ?id ?now ?q ?r ?s) = _ =>
        destruct (Harena id now q r s) as [-> _]
    end.
    reflexivity.
Defined.

End Stores.

(* ===================================================================== *)
(** * Source selection (the sources page) *)
(* ===================================================================== *)

Module Sources.

Local Open Scope nat_scope.

Definition MAX_SOURCES : nat := 20.

Record CatalogSource := { src_name : string }.

Record CatalogCountry := {
  code : string;
  country_name : string;
  flag : string;
  sources : list CatalogSource;
}.

(** [toggle], as the updater passed to [setSelected]. *)
Definition toggle (name : string) (prev : gset string) : gset string :=
  let next := prev in
  if decide (name ∈ next) then next ∖ {[name]}
  else if bool_decide (MAX_SOURCES ≤ size next) then prev
  else {[name]} ∪ next.

(** [names.forEach((n) => next.delete(n))] *)
Definition delete_all (names : list string) (next : gset string) : gset string :=
  foldl (λ acc n, acc ∖ {[n]}) next names.

(** [for (const n of names) { if (next.size >= MAX_SOURCES) break; next.add(n); }] *)
Fixpoint add_until_cap (names : list string) (next : gset string) : gset string :=
  match names with
  | [] => next
  | n :: rest =>
      if bool_decide (MAX_SOURCES ≤ size next) then next
      else add_until_cap rest ({[n]} ∪ next)
  end.

Definition selectAllInCountry (country : CatalogCountry) (prev : gset string) : gset string :=
  let next := prev in
  let names := src_name <$> sources country in
  let allIn := forallb (λ n, bool_decide (n ∈ next)) names in
  if allIn then delete_all names next else add_until_cap names next.

Inductive Op :=
| Toggle (name : string)
| SelectAllInCountry (country : CatalogCountry).

Definition step (s : gset string) (op : Op) : gset string :=
  match op with
  | Toggle n => toggle n s
  | SelectAllInCountry c => selectAllInCountry c s
  end.

Definition run (ops : list Op) (s : gset string) : gset string := foldl step s ops.

(** The page starts from [new Set()]. *)
Definition selected_init : gset string := ∅.

(** Twenty source names, for a selection at the cap. *)
Definition twenty : list string :=
  ["a";"b";"c";"d";"e";"f";"g";"h";"i";"j";"k";"l";"m";"n";"o";"p";"q";"r";"s";"t"]%string.

Lemma size_add_le (n : string) (s : gset string) : size ({[n]} ∪ s) ≤ S (size s).
Proof.
  destruct (decide (n ∈ s)) as [Hin|Hout].
  - replace ({[n]} ∪ s) with s by set_solver. lia.
  - rewrite size_union by set_solver. rewrite size_singleton. lia.
Qed.

Lemma size_remove_le (n : string) (s : gset string) : size (s ∖ {[n]}) ≤ size s.
Proof. apply subseteq_size. set_solver. Qed.

Lemma delete_all_subseteq names (s : gset string) : delete_all names s ⊆ s.
Proof.
  revert s. induction names as [|n names IH]; intros s; simpl; [done|].
  etrans; [apply IH|]. set_solver.
Qed.

Lemma delete_all_spec names (s : gset string) :
  delete_all names s = s ∖ list_to_set names.
Proof.
  revert s. induction names as [|n names IH]; intros s; simpl.
  - set_solver.
  - rewrite IH. set_solver.
Qed.

Lemma add_until_cap_size names (s : gset string) :
  size s ≤ MAX_SOURCES → size (add_until_cap names s) ≤ MAX_SOURCES.
Proof.
  revert s. induction names as [|n names IH]; intros s Hs; simpl; [done|].
  case_bool_decide as Hcap; [done|].
  apply IH. pose proof (size_add_le n s). lia.
Qed.

Lemma add_until_cap_full names (s : gset string) :
  MAX_SOURCES ≤ size s → add_until_cap names s = s.
Proof. intros Hs. destruct names; simpl; [done|]. by rewrite bool_decide_true. Qed.

Lemma add_until_cap_mono names (s : gset string) :
  s ⊆ add_until_cap names s ∧ add_until_cap names s ⊆ s ∪ list_to_set names.
Proof.
  revert s. induction names as [|n names IH]; intros s; simpl.
  - set_solver.
  - case_bool_decide; [set_solver|].
    destruct (IH ({[n]} ∪ s)) as [H1 H2]. set_solver.
Qed.

Lemma toggle_size name (s : gset string) :
  size s ≤ MAX_SOURCES → size (toggle name s) ≤ MAX_SOURCES.
Proof.
  intros Hs. unfold toggle. case_decide.
  - pose proof (size_remove_le name s). lia.
  - case_bool_decide as Hcap; [done|].
    pose proof (size_add_le name s). lia.
Qed.

Lemma selectAllInCountry_size c (s : gset string) :
  size s ≤ MAX_SOURCES → size (selectAllInCountry c s) ≤ MAX_SOURCES.
Proof.
  intros Hs. unfold selectAllInCountry.
  destruct (forallb _ _).
  - pose proof (subseteq_size _ _ (delete_all_subseteq (src_name <$> sources c) s)). lia.
  - by apply add_until_cap_size.
Qed.

Lemma run_size ops (s : gset string) :
  size s ≤ MAX_SOURCES → size (run ops s) ≤ MAX_SOURCES.
Proof.
  revert s. induction ops as [|op ops IH]; intros s Hs; [done|].
  apply IH. destruct op; [by apply toggle_size|by apply selectAllInCountry_size].
Qed.

(** Toggling a source twice gives back the selection, unless the source
    is unselected and the selection is at the cap. *)
Lemma toggle_twice name (s : gset string) :
  size s ≤ MAX_SOURCES → (name ∉ s → size s < MAX_SOURCES) →
  toggle name (toggle name s) = s.
Proof.
  intros Hs Hcap. unfold toggle at 2. case_decide as Hin.
  - unfold toggle. rewrite decide_False by set_solver.
    assert (size (s ∖ {[name]}) < size s).
    { apply subset_size. set_solver. }
    rewrite bool_decide_false by lia.
    apply set_eq. intros x. destruct (decide (x = name)); set_solver.
  - rewrite bool_decide_false by (specialize (Hcap Hin); lia).
    unfold toggle. rewrite decide_True by set_solver. set_solver.
Qed.

Lemma toggle_twice_witness :
  toggle "a" (toggle "a" (list_to_set twenty)) = list_to_set twenty.
Proof.
  apply toggle_twice; [vm_compute; lia|].
  intros H. exfalso. apply H. vm_compute. reflexivity.
Defined.

(** C9. Along every sequence of toggle and selectAllInCountry operations
    the selection never exceeds MAX_SOURCES = 20 sources; toggling a
    selected source removes it, toggling an unselected source at the cap
    leaves the selection as it was (below the cap it adds the source), and
    bulk selection only adds names of the country, adds nothing once the
    cap is reached, and removes the country's names when all are selected. *)
Theorem selection_never_exceeds_cap :
  MAX_SOURCES = 20
  ∧ (∀ ops, size (run ops selected_init) ≤ MAX_SOURCES)
  ∧ (∀ ops s, size s ≤ MAX_SOURCES → size (run ops s) ≤ MAX_SOURCES)
  ∧ (∀ name s, name ∈ s → toggle name s = s ∖ {[name]})
  ∧ (∀ name s, name ∉ s → MAX_SOURCES ≤ size s → toggle name s = s)
  ∧ (∀ name s, name ∉ s → size s < MAX_SOURCES → toggle name s = {[name]} ∪ s)
  ∧ (∀ c s, MAX_SOURCES ≤ size s →
       ¬ (∀ n, n ∈ src_name <$> sources c → n ∈ s) →
       selectAllInCountry c s = s)
  ∧ (∀ c s, ¬ (∀ n, n ∈ src_name <$> sources c → n ∈ s) →
       s ⊆ selectAllInCountry c s
       ∧ selectAllInCountry c s ⊆ s ∪ list_to_set (src_name <$> sources c))
  ∧ (∀ c s, (∀ n, n ∈ src_name <$> sources c → n ∈ s) →
       selectAllInCountry c s = s ∖ list_to_set (src_name <$> sources c)).
Proof.
  assert (Hall : ∀ c (s : gset string),
    forallb (λ n, bool_decide (n ∈ s)) (src_name <$> sources c) = true
    ↔ ∀ n, n ∈ src_name <$> sources c → n ∈ s).
  { intros c s. rewrite forallb_forall. split.
    - intros H n Hn. apply list_elem_of_In, H in Hn. by apply bool_decide_eq_true in Hn.
    - intros H n Hn. apply bool_decide_eq_true, H. by apply list_elem_of_In. }
  split; [done|].
  split; [intros ops; apply run_size; unfold selected_init; rewrite size_empty; lia|].
  split; [intros ops s; apply run_size|].
  split; [intros name s Hin; unfold toggle; by rewrite decide_True|].
  split.
  { intros name s Hout Hcap. unfold toggle.
    rewrite decide_False by done. by rewrite bool_decide_true. }
  split.
  { intros name s Hout Hcap. unfold toggle.
    rewrite decide_False by done. rewrite bool_decide_false by lia. done. }
  split.
  { intros c s Hcap Hnot. unfold selectAllInCountry.
    destruct (forallb _ _) eqn:E; [exfalso; apply Hnot; by apply Hall|].
    by apply add_until_cap_full. }
  split.
  { intros c s Hnot. unfold selectAllInCountry.
    destruct (forallb _ _) eqn:E; [exfalso; apply Hnot; by apply Hall|].
    apply add_until_cap_mono. }
  intros c s Hin. unfold selectAllInCountry.
  apply (proj2 (Hall _ _)) in Hin. rewrite Hin. apply delete_all_spec.
Qed.

(** At a full selection of twenty names, toggling a twenty-first changes
    nothing. *)
Lemma selection_never_exceeds_cap_witness :
  toggle "u" (list_to_set twenty) = list_to_set twenty
  ∧ size (run [Toggle "u"; Toggle "a"; Toggle "v"; Toggle "w"] (list_to_set twenty))
    ≤ MAX_SOURCES.
Proof.
  pose proof selection_never_exceeds_cap as (_ & _ & Hrun & _ & Hcap & _).
  split.
  - apply Hcap; [vm_compute; discriminate|vm_compute; lia].
  - apply Hrun. vm_compute. lia.
Defined.

End Sources.

(* ===================================================================== *)
(** * Thrown values and completions of asynchronous client code *)
(* ===================================================================== *)

(** A thrown value, as the [catch] blocks tell them apart:
    [err instanceof Error] (with its [message]) or anything else. *)
Inductive Thrown :=
| ErrorWith (msg : string)
| NonError.

(** How a block of code ends: normally with a value, or by throwing. *)
Inductive Completion (A : Type) :=
| Normal (a : A)
| Throw (e : Thrown).
Arguments Normal {A} a.
Arguments Throw {A} e.

(** [err instanceof Error ? err.message : fallback] *)
Definition message_or (fallback : string) (e : Thrown) : string :=
  match e with
  | ErrorWith m => m
  | NonError => fallback
  end.

(* ===================================================================== *)
(** * hooks/useConsensus.ts *)
(* ===================================================================== *)

Module UseConsensus.

(** The object [JSON.parse] returns for one [data: ] line of the stream:
    the [status] tag, the [message] of progress and error events ([None]
    when the object has none), and the object seen as a
    [ConsensusResponse] (what a [complete] event carries). *)
Record StreamData := {
  status : option string;
  message : option string;
  payload : ConsensusResponse;
}.

(** The text of [data.message]: [new Error(undefined).message] is the
    empty string, and an undefined stream status renders like one. *)
Definition message_text (d : StreamData) : string := default "" (message d).

(** [JSON.parse] throws a [SyntaxError] on malformed text and may yield
    [null], whose property reads throw a [TypeError]. *)
Inductive Parsed :=
| SyntaxError (msg : string)
| JsonNull
| JsonObject (d : StreamData).

(** The four pieces of React state of the hook. *)
Record HookState := {
  response : option ConsensusResponse;
  loading : bool;
  error : option string;
  streamStatus : string;
}.

(** The hook state together with the requests issued to the backend. *)
Record World := {
  hook : HookState;
  requests : list (JS.jsstring * Mode);
}.

Definition setResponse (r : option ConsensusResponse) (h : HookState) : HookState :=
  {| response := r; loading := loading h; error := error h; streamStatus := streamStatus h |}.
Definition setLoading (b : bool) (h : HookState) : HookState :=
  {| response := response h; loading := b; error := error h; streamStatus := streamStatus h |}.
Definition setError (e : option string) (h : HookState) : HookState :=
  {| response := response h; loading := loading h; error := e; streamStatus := streamStatus h |}.
Definition setStreamStatus (s : string) (h : HookState) : HookState :=
  {| response := response h; loading := loading h; error := error h; streamStatus := s |}.

Definition reset (h : HookState) : HookState :=
  setLoading false (setStreamStatus "" (setError None (setResponse None h))).

(** What [reader.read()] settles to; after the last listed read the
    reader reports [done]. *)
Inductive ReadResult :=
| ReadValue (chunk : string)
| ReadRejects (e : Thrown).

(** What [askStream(question, mode)] settles to. *)
Inductive AskStream :=
| Rejects (e : Thrown)
| Resolves (reads : list ReadResult).

(** Local variables of [ask] inside the [try] block, with the hook state. *)
Record LoopState := {
  ls_hook : HookState;
  finalResponse : option ConsensusResponse;
}.

(** The line feed character. *)
Definition LF : Ascii.ascii := Ascii.ascii_of_nat 10.

(** [s.split("\n\n")]: the pieces between successive, non-overlapping
    occurrences of two line feeds; [acc] is the piece being read. *)
Fixpoint split_blank_line (s : string) (acc : string) : list string :=
  match s with
  | EmptyString => [acc]
  | String c s' =>
      match s' with
      | String c' s'' =>
          if (Ascii.eqb c LF && Ascii.eqb c' LF)%bool
          then acc :: split_blank_line s'' ""
          else split_blank_line s' (acc +:+ String c "")
      | EmptyString => [acc +:+ String c ""]
      end
  end.

(** [line.slice(n)] *)
Fixpoint slice_from (n : nat) (s : string) : string :=
  match n, s with
  | O, _ => s
  | S n', String _ s' => slice_from n' s'
  | S _, EmptyString => EmptyString
  end.

Definition is_progress (st : option string) : bool :=
  bool_decide (st = Some "searching") || bool_decide (st = Some "analyzing")
  || bool_decide (st = Some "generating").

(** [lines.pop() || ""] and the lines left in the array. *)
Definition pop_lines (pieces : list string) : list string * string :=
  (removelast pieces, List.last pieces "").

(** A stand-in for [JSON.parse] that knows three event texts. *)
Definition parse_stub (r : ConsensusResponse) (s : string) : Parsed :=
  if bool_decide (s = "searching") then
    JsonObject {| status := Some "searching"; message := Some "Searching sources"; payload := r |}
  else if bool_decide (s = "complete") then
    JsonObject {| status := Some "complete"; message := None; payload := r |}
  else if bool_decide (s = "error") then
    JsonObject {| status := Some "error"; message := Some "backend down"; payload := r |}
  else SyntaxError "Unexpected token".

Definition blank_line : string := String LF (String LF "").

Definition idle : World :=
  {| hook := {| response := None; loading := false; error := None; streamStatus := "" |};
     requests := [] |}.

Section UseConsensus.

Variable JSON_parse : string → Parsed.

(** The body of [for (const line of lines)]. *)
Definition process_line (line : string) (ls : LoopState) : Completion unit * LoopState :=
  if String.prefix "data: " line then
    match JSON_parse (slice_from 6 line) with
    | SyntaxError m => (Throw (ErrorWith m), ls)
    | JsonNull => (Throw (ErrorWith "Cannot read properties of null (reading 'status')"), ls)
    | JsonObject data =>
        if is_progress (status data) then
          (Normal (), {| ls_hook := setStreamStatus (message_text data) (ls_hook ls);
                         finalResponse := finalResponse ls |})
        else if bool_decide (status data = Some "complete") then
          (Normal (),
           {| ls_hook := setLoading false
                           (setStreamStatus ""
                              (setResponse (Some (payload data)) (ls_hook ls)));
              finalResponse := Some (payload data) |})
        else if bool_decide (status data = Some "error") then
          (Throw (ErrorWith (message_text data)), ls)
        else (Normal (), ls)
    end
  else (Normal (), ls).

Fixpoint process_lines (lines : list string) (ls : LoopState) : Completion unit * LoopState :=
  match lines with
  | [] => (Normal (), ls)
  | line :: rest =>
      match process_line line ls with
      | (Normal _, ls') => process_lines rest ls'
      | (Throw e, ls') => (Throw e, ls')
      end
  end.

(** The [while (true)] loop over the reads of the stream. *)
Fixpoint read_loop (reads : list ReadResult) (buffer : string) (ls : LoopState)
  : Completion unit * LoopState :=
  match reads with
  | [] => (Normal (), ls)
  | ReadRejects e :: _ => (Throw e, ls)
  | ReadValue chunk :: rest =>
      let '(lines, buffer') := pop_lines (split_blank_line (buffer +:+ chunk) "") in
      match process_lines lines ls with
      | (Normal _, ls') => read_loop rest buffer' ls'
      | (Throw e, ls') => (Throw e, ls')
      end
  end.

(** The [try] block of [ask]. *)
Definition ask_try (env : AskStream) (h : HookState)
  : Completion (option ConsensusResponse) * HookState :=
  match env with
  | Rejects e => (Throw e, h)
  | Resolves reads =>
      match read_loop reads "" {| ls_hook := h; finalResponse := None |} with
      | (Normal _, ls) => (Normal (finalResponse ls), ls_hook ls)
      | (Throw e, ls) => (Throw e, ls_hook ls)
      end
  end.

(** The [catch] block of [ask]. *)
Definition ask_catch (e : Thrown) (h : HookState)
  : Completion (option ConsensusResponse) * HookState :=
  let message := message_or "Error connecting to backend." e in
  (Normal None, setStreamStatus "" (setError (Some message) h)).

(** The [finally] block of [ask]. *)
Definition ask_finally (h : HookState) : HookState :=
  setStreamStatus "" (setLoading false h).

Definition ask (question : JS.jsstring) (md : Mode) (env : AskStream) (w : World)
  : Completion (option ConsensusResponse) * World :=
  if JS.not_string (JS.trim question) then (Normal None, w)
  else
    let h0 := setStreamStatus "Initializing..."
                (setError None (setResponse None (setLoading true (hook w)))) in
    let reqs := requests w ++ [(question, md)] in
    let '(c, h1) :=
      match ask_try env h0 with
      | (Normal r, h) => (Normal r, h)
      | (Throw e, h) => ask_catch e h
      end in
    (c, {| hook := ask_finally h1; requests := reqs |}).

(** The lines the loop hands to [process_line], in order, when every read
    yields a chunk. *)
Fixpoint delivered_lines (chunks : list string) (buffer : string) : list string :=
  match chunks with
  | [] => []
  | chunk :: rest =>
      let '(lines, buffer') := pop_lines (split_blank_line (buffer +:+ chunk) "") in
      lines ++ delivered_lines rest buffer'
  end.

(** A line is an event carrying [d] when it starts with [data: ] and the
    rest parses to the object [d]. *)
Definition is_event (line : string) (d : StreamData) : Prop :=
  String.prefix "data: " line = true ∧ JSON_parse (slice_from 6 line) = JsonObject d.

(** The hook state once [ask] has passed its guard and set up the request. *)
Definition started (w : World) : LoopState :=
  {| ls_hook := setStreamStatus "Initializing..."
                  (setError None (setResponse None (setLoading true (hook w))));
     finalResponse := None |}.

Lemma process_lines_app l1 l2 ls :
  process_lines (l1 ++ l2) ls =
  match process_lines l1 ls with
  | (Normal _, ls') => process_lines l2 ls'
  | (Throw e, ls') => (Throw e, ls')
  end.
Proof.
  revert ls. induction l1 as [|line l1 IH]; intros ls; simpl; [done|].
  destruct (process_line line ls) as [[[]|e] ls']; [apply IH|done].
Qed.

Lemma read_loop_delivered chunks buffer ls :
  read_loop (ReadValue <$> chunks) buffer ls
  = process_lines (delivered_lines chunks buffer) ls.
Proof.
  revert buffer ls. induction chunks as [|chunk chunks IH]; intros buffer ls; [done|].
  cbn [fmap list_fmap read_loop delivered_lines].
  destruct (pop_lines (split_blank_line (buffer +:+ chunk) "")) as [lines buffer'].
  rewrite process_lines_app.
  destruct (process_lines lines ls) as [[[]|e] ls']; [apply IH|done].
Qed.

Lemma process_line_progress line d ls :
  is_event line d → is_progress (status d) = true →
  process_line line ls
  = (Normal (), {| ls_hook := setStreamStatus (message_text d) (ls_hook ls);
                   finalResponse := finalResponse ls |}).
Proof. intros [Hp Hd] Hs. unfold process_line. by rewrite Hp, Hd, Hs. Qed.

Lemma process_line_complete line d ls :
  is_event line d → status d = Some "complete" →
  process_line line ls
  = (Normal (),
     {| ls_hook := setLoading false
                     (setStreamStatus "" (setResponse (Some (payload d)) (ls_hook ls)));
        finalResponse := Some (payload d) |}).
Proof. intros [Hp Hd] Hs. unfold process_line. by rewrite Hp, Hd, Hs. Qed.

Lemma process_line_error line d ls :
  is_event line d → status d = Some "error" →
  process_line line ls = (Throw (ErrorWith (message_text d)), ls).
Proof. intros [Hp Hd] Hs. unfold process_line. by rewrite Hp, Hd, Hs. Qed.

(** No line changes the stored error: only the [catch] block sets it. *)
Lemma process_lines_keeps_error lines ls c ls' :
  process_lines lines ls = (c, ls') → error (ls_hook ls') = error (ls_hook ls).
Proof.
  revert ls. induction lines as [|line lines IH]; intros ls; simpl.
  { by intros [= _ ->]. }
  assert (Hline : error (ls_hook (process_line line ls).2) = error (ls_hook ls)).
  { unfold process_line.
    destruct (String.prefix "data: " line); [|done].
    destruct (JSON_parse (slice_from 6 line)) as [m| |d]; try done.
    destruct (is_progress (status d)); [done|].
    repeat case_bool_decide; done. }
  destruct (process_line line ls) as [[[]|e] ls1]; simpl in Hline.
  - intros H. by rewrite (IH _ H).
  - by intros [= _ <-].
Qed.

(** Lines that carry no [complete] event leave [finalResponse] and the
    stored response alone. *)
Lemma process_lines_keeps_final lines ls ls' :
  Forall (λ l, ∀ d, is_event l d → status d ≠ Some "complete") lines →
  process_lines lines ls = (Normal (), ls') →
  finalResponse ls' = finalResponse ls
  ∧ response (ls_hook ls') = response (ls_hook ls).
Proof.
  intros Hall. revert ls. induction Hall as [|line lines Hline _ IH]; intros ls; simpl.
  - by intros [= ->].
  - destruct (process_line line ls) as [[[]|e] ls1] eqn:E; [|done].
    intros H. destruct (IH _ H) as [-> ->]. clear IH H.
    unfold process_line in E.
    destruct (String.prefix "data: " line) eqn:Hp; [|by simplify_eq].
    destruct (JSON_parse (slice_from 6 line)) as [m| |d] eqn:Hd; try done.
    destruct (is_progress (status d)); [by simplify_eq|].
    case_bool_decide as Hc; [by destruct (Hline d)|].
    case_bool_decide; by simplify_eq.
Qed.

Lemma ask_guard_passes question md env w :
  ¬ JS.blank question →
  ask question md env w =
  let '(c, h1) :=
    match ask_try env (ls_hook (started w)) with
    | (Normal r, h) => (Normal r, h)
    | (Throw e, h) => ask_catch e h
    end in
  (c, {| hook := ask_finally h1; requests := requests w ++ [(question, md)] |}).
Proof.
  intros Hq. unfold ask.
  destruct (JS.not_string (JS.trim question)) eqn:E; [|done].
  by apply JS.not_string_trim in E.
Qed.

(** A rejected read ends the loop with what was thrown, unless a line
    delivered before it threw first. *)
Lemma read_loop_rejected chunks e rest buffer ls :
  read_loop ((ReadValue <$> chunks) ++ ReadRejects e :: rest) buffer ls
  = match process_lines (delivered_lines chunks buffer) ls with
    | (Normal _, ls') => (Throw e, ls')
    | (Throw e', ls') => (Throw e', ls')
    end.
Proof.
  revert buffer ls. induction chunks as [|chunk chunks IH]; intros buffer ls; [done|].
  cbn [fmap list_fmap app read_loop delivered_lines].
  destruct (pop_lines (split_blank_line (buffer +:+ chunk) "")) as [lines buffer'].
  rewrite process_lines_app.
  destruct (process_lines lines ls) as [[[]|e'] ls']; [apply IH|done].
Qed.

(** After lines that all end normally, the response stored and the value
    to return are the payload of the last complete event. *)
Lemma process_lines_last_complete pre line d post ls ls' :
  is_event line d → status d = Some "complete" →
  Forall (λ l, ∀ d', is_event l d' → status d' ≠ Some "complete") post →
  process_lines (pre ++ line :: post) ls = (Normal (), ls') →
  finalResponse ls' = Some (payload d) ∧ response (ls_hook ls') = Some (payload d).
Proof.
  intros Hev Hst Hno. rewrite process_lines_app.
  destruct (process_lines pre ls) as [[[]|e] ls1]; [|done].
  simpl. rewrite (process_line_complete _ _ _ Hev Hst).
  intros Hpost. by destruct (process_lines_keeps_final _ _ _ Hno Hpost) as [-> ->].
Qed.

(** An error event among the lines makes the loop throw. *)
Lemma process_lines_error_throws lines line d ls :
  line ∈ lines → is_event line d → status d = Some "error" →
  ∃ e ls', process_lines lines ls = (Throw e, ls').
Proof.
  intros Hin Hev Hst. revert ls.
  induction lines as [|l lines IH]; intros ls; [by apply elem_of_nil in Hin|].
  simpl. destruct (process_line l ls) as [[[]|e] ls1] eqn:E; [|by eauto].
  apply elem_of_cons in Hin as [->|Hin]; [|by apply IH].
  by rewrite (process_line_error _ _ _ Hev Hst) in E.
Qed.

(** When the request itself is rejected, or a read of the stream is, ask
    returns null with the error's message stored, or the fixed connection
    message when what was thrown is not an Error; loading and the stream
    status are cleared. The response is null when the request or the first
    read is rejected; when a later read is rejected, after chunks whose
    lines were processed without throwing, the response is what those
    lines left: null when none of them is a complete event, the payload of
    the last complete event otherwise. *)
Lemma ask_failure_is_stored question md e w :
  ¬ JS.blank question →
  ask question md (Rejects e) w
  = (Normal None,
     {| hook := {| response := None; loading := false;
                   error := Some (message_or "Error connecting to backend." e);
                   streamStatus := "" |};
        requests := requests w ++ [(question, md)] |})
  ∧ (∀ rest, ask question md (Resolves (ReadRejects e :: rest)) w
             = ask question md (Rejects e) w)
  ∧ (∀ chunks rest ls1,
       process_lines (delivered_lines chunks "") (started w) = (Normal (), ls1) →
       ask question md (Resolves ((ReadValue <$> chunks) ++ ReadRejects e :: rest)) w
       = (Normal None,
          {| hook := {| response := response (ls_hook ls1); loading := false;
                        error := Some (message_or "Error connecting to backend." e);
                        streamStatus := "" |};
             requests := requests w ++ [(question, md)] |})
       ∧ (Forall (λ l, ∀ d, is_event l d → status d ≠ Some "complete")
            (delivered_lines chunks "") →
          response (ls_hook ls1) = None)
       ∧ (∀ pre line d post,
            delivered_lines chunks "" = pre ++ line :: post →
            is_event line d → status d = Some "complete" →
            Forall (λ l, ∀ d', is_event l d' → status d' ≠ Some "complete") post →
            response (ls_hook ls1) = Some (payload d))).
Proof.
  intros Hq. split; [by rewrite !ask_guard_passes by done|].
  split; [intros rest; by rewrite !ask_guard_passes by done|].
  intros chunks rest ls1 Hlines. split; [|split].
  - rewrite ask_guard_passes by done. unfold ask_try.
    rewrite read_loop_rejected.
    change {| ls_hook := ls_hook (started w); finalResponse := None |} with (started w).
    by rewrite Hlines.
  - intros Hno. by destruct (process_lines_keeps_final _ _ _ Hno Hlines) as [_ ->].
  - intros pre line d post Hdel Hev Hst Hno. rewrite Hdel in Hlines.
    by destruct (process_lines_last_complete _ _ _ _ _ _ Hev Hst Hno Hlines) as [_ ->].
Qed.

(** C5, amended. Each event of the ask status stream is treated by its
    status: a searching, analyzing or generating event records its message
    as the stream status; a complete event stores its payload as the
    response and as the value ask will return; an error event is thrown
    inside ask. For every question and every behaviour of the stream ask
    completes normally: no failure is raised to its caller. An error event
    that is reached without an earlier line throwing is turned into the
    stored error message, with null returned, and the response stored
    before it stays; the payload of a complete event is what ask returns
    when every read yields a chunk, no line before or after the event
    throws and no complete event follows it. Whenever an error event is
    among the lines processed, ask returns null with an error stored. *)
Theorem ask_stream_events :
  (∀ line d ls, is_event line d →
     status d = Some "searching" ∨ status d = Some "analyzing"
     ∨ status d = Some "generating" →
     process_line line ls
     = (Normal (), {| ls_hook := setStreamStatus (message_text d) (ls_hook ls);
                      finalResponse := finalResponse ls |}))
  ∧ (∀ line d ls, is_event line d → status d = Some "complete" →
     process_line line ls
     = (Normal (),
        {| ls_hook := setLoading false
                        (setStreamStatus "" (setResponse (Some (payload d)) (ls_hook ls)));
           finalResponse := Some (payload d) |}))
  ∧ (∀ line d ls, is_event line d → status d = Some "error" →
     process_line line ls = (Throw (ErrorWith (message_text d)), ls))
  ∧ (∀ question md env w, ∃ r w', ask question md env w = (Normal r, w'))
  ∧ (∀ question md chunks w pre line d post ls1,
     ¬ JS.blank question →
     delivered_lines chunks "" = pre ++ line :: post →
     process_lines pre (started w) = (Normal (), ls1) →
     is_event line d → status d = Some "error" →
     ask question md (Resolves (ReadValue <$> chunks)) w
     = (Normal None,
        {| hook := {| response := response (ls_hook ls1); loading := false;
                      error := Some (message_text d); streamStatus := "" |};
           requests := requests w ++ [(question, md)] |}))
  ∧ (∀ question md chunks w pre line d post ls1 ls2,
     ¬ JS.blank question →
     delivered_lines chunks "" = pre ++ line :: post →
     process_lines pre (started w) = (Normal (), ls1) →
     is_event line d → status d = Some "complete" →
     process_lines post
       {| ls_hook := setLoading false
                       (setStreamStatus "" (setResponse (Some (payload d)) (ls_hook ls1)));
          finalResponse := Some (payload d) |} = (Normal (), ls2) →
     Forall (λ l, ∀ d', is_event l d' → status d' ≠ Some "complete") post →
     ask question md (Resolves (ReadValue <$> chunks)) w
     = (Normal (Some (payload d)),
        {| hook := {| response := Some (payload d); loading := false;
                      error := None; streamStatus := "" |};
           requests := requests w ++ [(question, md)] |}))
  ∧ (∀ question md chunks w line d,
     ¬ JS.blank question →
     line ∈ delivered_lines chunks "" → is_event line d → status d = Some "error" →
     ∃ msg w',
       ask question md (Resolves (ReadValue <$> chunks)) w = (Normal None, w')
       ∧ error (hook w') = Some msg
       ∧ loading (hook w') = false ∧ streamStatus (hook w') = "").
Proof.
  split.
  { intros line d ls Hev Hst. apply process_line_progress; [done|].
    unfold is_progress. by destruct Hst as [->|[->| ->]]. }
  split; [exact process_line_complete|].
  split; [exact process_line_error|].
  split.
  { intros question md env w. unfold ask.
    destruct (JS.not_string _); [by eauto|].
    destruct (ask_try env _) as [[r|e] h]; simpl; eauto. }
  split.
  { intros question md chunks w pre line d post ls1 Hq Hdel Hpre Hev Hst.
    rewrite ask_guard_passes by done. unfold ask_try.
    rewrite read_loop_delivered.
    change {| ls_hook := ls_hook (started w); finalResponse := None |} with (started w).
    rewrite Hdel, process_lines_app, Hpre. simpl.
    by rewrite (process_line_error _ _ _ Hev Hst). }
  split.
  { intros question md chunks w pre line d post ls1 ls2 Hq Hdel Hpre Hev Hst Hpost Hno.
    rewrite ask_guard_passes by done. unfold ask_try.
    rewrite read_loop_delivered.
    change {| ls_hook := ls_hook (started w); finalResponse := None |} with (started w).
    rewrite Hdel, process_lines_app, Hpre. simpl.
    rewrite (process_line_complete _ _ _ Hev Hst), Hpost.
    destruct (process_lines_keeps_final _ _ _ Hno Hpost) as [Hfin Hresp].
    pose proof (process_lines_keeps_error _ _ _ _ Hpost) as Herr.
    pose proof (process_lines_keeps_error _ _ _ _ Hpre) as Herr1.
    simpl in *. rewrite Hfin. unfold ask_finally, setStreamStatus, setLoading; simpl.
    by rewrite Hresp, Herr, Herr1. }
  intros question md chunks w line d Hq Hin Hev Hst.
  rewrite ask_guard_passes by done. unfold ask_try.
  rewrite read_loop_delivered.
  destruct (process_lines_error_throws _ _ _
              {| ls_hook := ls_hook (started w); finalResponse := None |} Hin Hev Hst)
    as (e & ls' & ->).
  eexists _, _. split; [reflexivity|]. by simpl.
Qed.

End UseConsensus.

(** A searching event sets the stream status to its message; a stream
    that reports searching and then an error, split across two chunks in
    the middle of an event, ends with the error stored. *)
Lemma ask_stream_events_witness :
  process_line (parse_stub empty_response) "data: searching" (started idle)
  = (Normal (),
     {| ls_hook := {| response := None; loading := true; error := None;
                      streamStatus := "Searching sources" |};
        finalResponse := None |})
  ∧ ask (parse_stub empty_response) [0x61%N] Consensus
      (Resolves
         [ReadValue ("data: searching" +:+ blank_line +:+ "data: err");
          ReadValue ("or" +:+ blank_line)]) idle
    = (Normal None,
       {| hook := {| response := None; loading := false;
                     error := Some "backend down"; streamStatus := "" |};
          requests := [([0x61%N], Consensus)] |}).
Proof.
  pose proof (ask_stream_events (parse_stub empty_response))
    as (Hprogress & _ & _ & _ & Herr & _).
  split.
  - apply (Hprogress "data: searching"
             {| status := Some "searching"; message := Some "Searching sources";
                payload := empty_response |} (started idle)).
    + split; reflexivity.
    + by left.
  - refine (Herr [0x61%N] Consensus
             ["data: searching" +:+ blank_line +:+ "data: err"; "or" +:+ blank_line]
             idle ["data: searching"] "data: error"
             {| status := Some "error"; message := Some "backend down";
                payload := empty_response |}
             []
             {| ls_hook := {| response := None; loading := true; error := None;
                              streamStatus := "Searching sources" |};
                finalResponse := None |} _ _ _ _ _).
    + intros H. by inversion H.
    + reflexivity.
    + reflexivity.
    + split; reflexivity.
    + reflexivity.
Defined.

(** A stream that ends with a complete event: its payload is returned and
    stored. *)
Example ask_complete_stream :
  ask (parse_stub empty_response) [0x61%N] Consensus
    (Resolves [ReadValue ("data: searching" +:+ blank_line);
               ReadValue ("data: complete" +:+ blank_line)]) idle
  = (Normal (Some empty_response),
     {| hook := {| response := Some empty_response; loading := false;
                   error := None; streamStatus := "" |};
        requests := [([0x61%N], Consensus)] |}).
Proof. reflexivity. Qed.

(** An event that is not followed by a blank line stays in the buffer and
    is never processed. *)
Example ask_unterminated_event :
  (ask (parse_stub empty_response) [0x61%N] Consensus
     (Resolves [ReadValue "data: complete"]) idle).1
  = Normal None.
Proof. reflexivity. Qed.

(** C5, as stated, fails for a stream that delivers a complete event and
    then an error event: the payload of the complete event is not what ask
    returns. The error event still makes ask return null and store the
    error; the response stored by the complete event stays. *)
Lemma ask_error_after_complete :
  ask (parse_stub empty_response) [0x61%N] Consensus
    (Resolves [ReadValue ("data: complete" +:+ blank_line +:+ "data: error" +:+ blank_line)])
    idle
  = (Normal None,
     {| hook := {| response := Some empty_response; loading := false;
                   error := Some "backend down"; streamStatus := "" |};
        requests := [([0x61%N], Consensus)] |}).
Proof. reflexivity. Qed.

(** A rejected request that throws something other than an Error, and a
    read that is rejected after a complete event has been processed: the
    response of the complete event stays. *)
Lemma ask_failure_is_stored_witness :
  ask (parse_stub empty_response) [0x61%N] Fast (Rejects NonError) idle
  = (Normal None,
     {| hook := {| response := None; loading := false;
                   error := Some "Error connecting to backend."; streamStatus := "" |};
        requests := [([0x61%N], Fast)] |})
  ∧ ask (parse_stub empty_response) [0x61%N] Fast
      (Resolves [ReadValue ("data: complete" +:+ blank_line);
                 ReadRejects (ErrorWith "network error")]) idle
    = (Normal None,
       {| hook := {| response := Some empty_response; loading := false;
                     error := Some "network error"; streamStatus := "" |};
          requests := [([0x61%N], Fast)] |}).
Proof.
  assert (Hq : ¬ JS.blank [0x61%N]) by (intros H; by inversion H).
  split.
  - exact (proj1 (ask_failure_is_stored (parse_stub empty_response) [0x61%N] Fast
                    NonError idle Hq)).
  - pose proof (ask_failure_is_stored (parse_stub empty_response) [0x61%N] Fast
                  (ErrorWith "network error") idle Hq) as (_ & _ & Hread).
    destruct (Hread ["data: complete" +:+ blank_line] []
                {| ls_hook := {| response := Some empty_response; loading := false;
                                 error := None; streamStatus := "" |};
                   finalResponse := Some empty_response |} eq_refl) as [Hask _].
    exact Hask.
Defined.

End UseConsensus.

(* ===================================================================== *)
(** * hooks/useSearchPreview.ts *)
(* ===================================================================== *)

Module UseSearchPreview.
Section UseSearchPreview.

(** [SearchPreviewResponse] of [@/lib/types]; the hook only stores it. *)
Variable SearchPreviewResponse : Type.

Record HookState := {
  preview : option SearchPreviewResponse;
  loading : bool;
  error : option string;
}.

Record World := {
  hook : HookState;
  requests : list JS.jsstring;
}.

(** What [searchPreview(question)] settles to. *)
Inductive SearchPreview :=
| Rejects (e : Thrown)
| Resolves (data : SearchPreviewResponse).

Definition setPreview (p : option SearchPreviewResponse) (h : HookState) : HookState :=
  {| preview := p; loading := loading h; error := error h |}.
Definition setLoading (b : bool) (h : HookState) : HookState :=
  {| preview := preview h; loading := b; error := error h |}.
Definition setError (e : option string) (h : HookState) : HookState :=
  {| preview := preview h; loading := loading h; error := e |}.

Definition search (question : JS.jsstring) (env : SearchPreview) (w : World)
  : Completion unit * World :=
  if JS.not_string (JS.trim question) then (Normal (), w)
  else
    let h0 := setError None (setLoading true (hook w)) in
    let h1 :=
      match env with
      | Resolves data => setPreview (Some data) h0
      | Rejects err => setError (Some (message_or "Search failed" err)) h0
      end in
    (Normal (), {| hook := setLoading false h1; requests := requests w ++ [question] |}).

Definition reset (h : HookState) : HookState := setError None (setPreview None h).

End UseSearchPreview.
End UseSearchPreview.

(* ===================================================================== *)
(** * app/arena/page.tsx: handleAnalyzeWithQuery *)
(* ===================================================================== *)

Module Arena.
Section Arena.

Variable SEARCH_HISTORY_MAX : Z.
Variable calcDisruption : ArenaResponse → Z.

Record PageState := {
  result : option ArenaResponse;
  loading : bool;
  error : option string;
  expandedId : option string;
}.

(** The page state, the search-history store the page writes to, and the
    queries posted to [/api/ai-pulse]. *)
Record World := {
  page : PageState;
  history : Stores.SearchHistoryState;
  requests : list JS.jsstring;
}.

(** The body [res.json()] yields: its [detail] field and the object seen
    as an [ArenaResponse]. *)
Record Body := {
  detail : option string;
  arena : ArenaResponse;
}.

(** What [fetch] and then [res.json()] settle to. *)
Inductive Fetch :=
| FetchRejects (e : Thrown)
| JsonRejects (e : Thrown)
| Responds (ok : bool) (status : Z) (data : Body).

Definition setResult (r : option ArenaResponse) (p : PageState) : PageState :=
  {| result := r; loading := loading p; error := error p; expandedId := expandedId p |}.
Definition setLoading (b : bool) (p : PageState) : PageState :=
  {| result := result p; loading := b; error := error p; expandedId := expandedId p |}.
Definition setError (e : option string) (p : PageState) : PageState :=
  {| result := result p; loading := loading p; error := e; expandedId := expandedId p |}.
Definition setExpandedId (i : option string) (p : PageState) : PageState :=
  {| result := result p; loading := loading p; error := error p; expandedId := i |}.

(** [data.detail || `Error ${res.status}`] *)
Definition failure_message (data : Body) (status : Z) : string :=
  match detail data with
  | Some d => if bool_decide (d = "") then "Error " +:+ pretty status else d
  | None => "Error " +:+ pretty status
  end.

(** [id] and [now] are what [generateId()] and [Date.now()] give when the
    history entry is created. *)
Definition handleAnalyzeWithQuery (query : JS.jsstring) (env : Fetch)
    (id : string) (now : Z) (w : World) : Completion unit * World :=
  if JS.not_string (JS.trim query) then (Normal (), w)
  else
    let p0 := setExpandedId None (setError None (setResult None (setLoading true (page w)))) in
    let catch e p := setError (Some (message_or "Failed to connect to ConsentAI." e)) p in
    let '(p1, hist) :=
      match env with
      | FetchRejects e => (catch e p0, history w)
      | JsonRejects e => (catch e p0, history w)
      | Responds ok status data =>
          if negb ok then (catch (ErrorWith (failure_message data status)) p0, history w)
          else (setResult (Some (arena data)) p0,
                Stores.addArenaEntry SEARCH_HISTORY_MAX calcDisruption
                  id now query (arena data) (history w))
      end in
    (Normal (), {| page := setLoading false p1; history := hist;
                   requests := requests w ++ [query] |}).

End Arena.
End Arena.

(* ===================================================================== *)
(** * Blank questions are rejected before any side effect *)
(* ===================================================================== *)

Module BlankInput.

(** C10. For every question that is empty or made of white space only,
    ask returns null, and search and handleAnalyzeWithQuery return at once:
    no request is issued and the response, error, loading and status state
    (and the history store) are left exactly as they were. *)
Theorem blank_input_is_rejected (question : JS.jsstring) :
  JS.blank question →
  (∀ JSON_parse md env w,
     UseConsensus.ask JSON_parse question md env w = (Normal None, w))
  ∧ (∀ T (env : UseSearchPreview.SearchPreview T) w,
     UseSearchPreview.search T question env w = (Normal (), w))
  ∧ (∀ max calc env id now w,
     Arena.handleAnalyzeWithQuery max calc question env id now w = (Normal (), w)).
Proof.
  intros Hq. apply JS.not_string_trim in Hq.
  repeat split; intros.
  - unfold UseConsensus.ask. by rewrite Hq.
  - unfold UseSearchPreview.search. by rewrite Hq.
  - unfold Arena.handleAnalyzeWithQuery. by rewrite Hq.
Qed.

(** A question made of a space, a tab, a line feed and a no-break space. *)
Lemma blank_input_is_rejected_witness :
  JS.blank [0x20; 0x9; 0xA; 0xA0]%N
  ∧ UseConsensus.ask (UseConsensus.parse_stub empty_response)
      [0x20; 0x9; 0xA; 0xA0]%N Consensus
      (UseConsensus.Resolves [UseConsensus.ReadValue "data: complete"])
      UseConsensus.idle
    = (Normal None, UseConsensus.idle).
Proof.
  assert (Hb : JS.blank [0x20; 0x9; 0xA; 0xA0]%N) by (repeat constructor).
  split; [exact Hb|].
  apply (blank_input_is_rejected _ Hb).
Defined.

End BlankInput.

(* ===================================================================== *)
(** * Rendered views *)
(* ===================================================================== *)

(** A JavaScript value as the views read it off a response object. *)
Inductive JsVal :=
| JUndefined
| JNull
| JBool (b : bool)
| JNum (z : Z)
| JStr (s : string).

Global Instance JsVal_eq_dec : EqDecision JsVal.
Proof. solve_decision. Defined.

(** Truthiness, as [?:], [||] and [&&] test it. *)
Definition truthy (v : JsVal) : bool :=
  match v with
  | JUndefined | JNull => false
  | JBool b => b
  | JNum z => negb (z =? 0)
  | JStr s => negb (bool_decide (s = ""))
  end.

(** [a || b] *)
Definition js_or (a b : JsVal) : JsVal := if truthy a then a else b.

(** The props of [MetricCard] that its callers set. *)
Record MetricCardProps := {
  label : string;
  value : JsVal;
  subtitle : option string;
  progressValue : option Z;
}.

(** The elements a component returns, one constructor per component (or
    per hand-written block) of the pages modelled here. *)
Inductive View :=
| NoResults
| ModeBadge (isFast : bool)
| BookmarkButton (query : JS.jsstring) (response : ConsensusResponse)
| MetricCard (props : MetricCardProps)
| CoverageBlock (color : string) (quality : string) (caption : string)
| HeadlineBlock (headline : string) (summary : option string)
| AnswerBlock (answer : string)
| FactList (fs : list Fact) (md : option Mode)
| DivergenceList (ds : list string)
| BiasAnalysis (analysis : string)
| HeroSection
| SearchBar (value : JS.jsstring) (loading : bool)
| StreamStatus (message : string)
| ErrorBanner (message : string)
| SidebarStats (articles_indexed : JsVal) (sources : JsVal).

(* ===================================================================== *)
(** * components/results: ResultsContainer, MetricsBar, HeadlineSummary *)
(* ===================================================================== *)

Module Results.

(** [Math.round]: to the nearest integer, halves towards plus infinity. *)
Definition Math_round (x : Q) : Z := Qfloor (x + (1 # 2)).

Definition opt_num (o : option Z) : JsVal := from_option JNum JUndefined o.

Definition nonempty (o : option string) : option string :=
  match o with
  | Some s => if bool_decide (s = "") then None else Some s
  | None => None
  end.

Definition coverage_text (c : Coverage) : string :=
  match c with Low => "low" | Medium => "medium" | High => "high" end.

Definition MetricsBar (response : ConsensusResponse) : list View :=
  let isFast := bool_decide (mode response = Some Fast) in
  let scorePercent := Math_round (Double.mul (consensus_score response) 100) in
  let coverageColor :=
    match coverage_quality response with
    | Some Low => "text-amber-600 dark:text-amber-400"
    | Some Medium => "text-blue-600 dark:text-blue-400"
    | _ => "text-emerald-600 dark:text-emerald-400"
    end in
  let no_facts := bool_decide (length (facts response) = 0%nat) in
  (if negb isFast then
     [MetricCard {| label := "Consensus Score";
                    value := if no_facts then JStr "N/A"
                             else JStr (pretty scorePercent +:+ "%");
                    subtitle := None;
                    progressValue := Some (if no_facts then 0 else scorePercent) |}]
   else [])
  ++ [MetricCard {| label := "Sources Analyzed";
                    value := js_or (opt_num (sources_analyzed response))
                               (js_or (opt_num (chunks_used response)) (JNum 0));
                    subtitle := Some (if no_facts then "No relevant coverage"
                                      else "From top outlets");
                    progressValue := None |};
      CoverageBlock coverageColor
        (from_option coverage_text "High" (coverage_quality response))
        (if no_facts then "Topic not covered" else "Multi-source verified")].

Definition HeadlineSummary (headline summary answer : option string) : list View :=
  match nonempty headline with
  | Some h => [HeadlineBlock h (nonempty summary)]
  | None =>
      match nonempty answer with
      | Some a => [AnswerBlock a]
      | None => []
      end
  end.

Definition ResultsContainer (response : ConsensusResponse) (query : JS.jsstring) : list View :=
  if bool_decide (length (facts response) = 0%nat) then [NoResults]
  else
    let isFast := bool_decide (mode response = Some Fast) in
    [ModeBadge isFast; BookmarkButton query response]
    ++ MetricsBar response
    ++ HeadlineSummary (headline response) (summary response) (answer response)
    ++ [FactList (facts response) (mode response)]
    ++ match divergences response with
       | Some (d :: ds) => [DivergenceList (d :: ds)]
       | _ => []
       end
    ++ match nonempty (bias_analysis response) with
       | Some a => [BiasAnalysis a]
       | None => []
       end.

(** [ErrorBanner] and [StreamStatus] return null on a falsy message. *)
Definition ErrorBannerC (message : option string) : list View :=
  match nonempty message with Some m => [ErrorBanner m] | None => [] end.

Definition StreamStatusC (message : string) : list View :=
  if bool_decide (message = "") then [] else [StreamStatus message].

(** The search page, from the state of [useConsensus]. *)
Definition SearchContent (h : UseConsensus.HookState) (question : JS.jsstring) : list View :=
  (match UseConsensus.response h with Some _ => [] | None => [HeroSection] end)
  ++ [SearchBar question (UseConsensus.loading h)]
  ++ StreamStatusC (UseConsensus.streamStatus h)
  ++ ErrorBannerC (UseConsensus.error h)
  ++ match UseConsensus.response h with
     | Some r => ResultsContainer r question
     | None => []
     end.

Definition is_metric_card (v : View) : bool :=
  match v with MetricCard _ | CoverageBlock _ _ _ => true | _ => false end.

Definition is_error_banner (v : View) : bool :=
  match v with ErrorBanner _ => true | _ => false end.

(** The consensus-score card as [MetricsBar] renders it without facts. *)
Definition score_not_available : View :=
  MetricCard {| label := "Consensus Score"; value := JStr "N/A";
                subtitle := None; progressValue := Some 0 |}.

(** In fast mode the metrics bar has two blocks and no consensus-score
    card; otherwise it has three and the consensus-score card comes first. *)
Lemma metrics_bar_by_mode (r : ConsensusResponse) :
  if bool_decide (mode r = Some Fast)
  then length (MetricsBar r) = 2%nat
       ∧ Forall (λ v, ∀ p, v = MetricCard p → label p ≠ "Consensus Score") (MetricsBar r)
  else length (MetricsBar r) = 3%nat
       ∧ ∃ p, head (MetricsBar r) = Some (MetricCard p) ∧ label p = "Consensus Score".
Proof.
  unfold MetricsBar. case_bool_decide; simpl.
  - split; [done|]. repeat constructor; by intros p [= <-].
  - split; [done|]. by eexists.
Qed.

(** C6, as stated, fails on the results container: for a consensus-mode
    response without facts it renders the no-results view alone; the
    consensus-score card showing N/A is not part of what is presented. *)
Lemma no_results_view_has_no_score_card :
  facts empty_response = []
  ∧ mode empty_response = Some Consensus
  ∧ ResultsContainer empty_response [] = [NoResults]
  ∧ (score_not_available ∉ ResultsContainer empty_response [])
  ∧ existsb is_metric_card (ResultsContainer empty_response []) = false.
Proof.
  repeat split; try reflexivity.
  intros H. apply list_elem_of_singleton in H. discriminate H.
Qed.

(** C6, amended. For every response whose list of facts is empty, the
    results container presents the no-results view and nothing else, and
    the search page built on it shows no error banner; the N/A consensus
    score (outside fast mode), the No relevant coverage subtitle and the
    Topic not covered caption are what MetricsBar renders for such a
    response when it is rendered on its own. *)
Theorem no_coverage_is_not_an_error (r : ConsensusResponse) (query : JS.jsstring) :
  facts r = [] →
  ResultsContainer r query = [NoResults]
  ∧ existsb is_error_banner (ResultsContainer r query) = false
  ∧ (∀ h, UseConsensus.response h = Some r → UseConsensus.error h = None →
       existsb is_error_banner (SearchContent h query) = false
       ∧ NoResults ∈ SearchContent h query)
  ∧ (mode r ≠ Some Fast → score_not_available ∈ MetricsBar r)
  ∧ MetricCard {| label := "Sources Analyzed";
                  value := js_or (opt_num (sources_analyzed r))
                             (js_or (opt_num (chunks_used r)) (JNum 0));
                  subtitle := Some "No relevant coverage";
                  progressValue := None |} ∈ MetricsBar r
  ∧ (∃ color quality, CoverageBlock color quality "Topic not covered" ∈ MetricsBar r).
Proof.
  intros Hf.
  assert (Hc : ResultsContainer r query = [NoResults]).
  { unfold ResultsContainer. by rewrite Hf. }
  split; [done|]. split; [by rewrite Hc|].
  split.
  { intros h Hr He. unfold SearchContent. rewrite Hr, He, Hc. simpl.
    unfold StreamStatusC. case_bool_decide; simpl; split; try done; set_solver. }
  unfold MetricsBar. rewrite Hf. simpl.
  split.
  { intros Hm. rewrite bool_decide_false by done. simpl. set_solver. }
  split; [set_solver|].
  eexists _, _. apply elem_of_app. right.
  apply list_elem_of_further, list_elem_of_here.
Qed.

Lemma no_coverage_is_not_an_error_witness :
  facts empty_response = []
  ∧ ResultsContainer empty_response [0x61%N] = [NoResults]
  ∧ score_not_available ∈ MetricsBar empty_response.
Proof.
  split; [reflexivity|].
  pose proof (no_coverage_is_not_an_error empty_response [0x61%N] eq_refl)
    as (Hc & _ & _ & Hs & _).
  split; [exact Hc|]. apply Hs. discriminate.
Defined.

End Results.

(* ===================================================================== *)
(** * Stats: hooks/useStats.ts and its consumers *)
(* ===================================================================== *)

Module Stats.

(** A [Stats] object as it arrives from [fetchStats]: a JavaScript object,
    read by property name. *)
Abbreviation StatsObject := (gmap string JsVal).

(** [obj.key]: an absent property reads as [undefined]. *)
Definition get (key : string) (obj : StatsObject) : JsVal :=
  default JUndefined (obj !! key).

Record HookState := {
  stats_state : option StatsObject;
  loading : bool;
  error : option string;
}.

(** The hook starts loading, with no stats and no error. *)
Definition hook_init : HookState :=
  {| stats_state := None; loading := true; error := None |}.

(** What [fetchStats()] settles to. *)
Inductive FetchStats :=
| Rejects (e : Thrown)
| Resolves (data : StatsObject).

Definition setStats (d : option StatsObject) (h : HookState) : HookState :=
  {| stats_state := d; loading := loading h; error := error h |}.
Definition setLoading (b : bool) (h : HookState) : HookState :=
  {| stats_state := stats_state h; loading := b; error := error h |}.
Definition setError (e : option string) (h : HookState) : HookState :=
  {| stats_state := stats_state h; loading := loading h; error := e |}.

(** [refresh] of [useStats]. *)
Definition refresh (env : FetchStats) (h : HookState) : HookState :=
  let h0 := setError None (setLoading true h) in
  let h1 :=
    match env with
    | Resolves data => setStats (Some data) h0
    | Rejects err => setError (Some (message_or "Failed to fetch stats" err)) h0
    end in
  setLoading false h1.

(** [StatsOverview] (components/dashboard); [None] is the [null] it
    returns while there are no stats. *)
Definition StatsOverview (stats : option StatsObject) : option (list View) :=
  match stats with
  | None => None
  | Some stats =>
      Some
        [MetricCard {| label := "Articles Indexed"; value := get "articles_indexed" stats;
                       subtitle := None; progressValue := None |};
         MetricCard {| label := "Facts Checked"; value := get "chunks_created" stats;
                       subtitle := None; progressValue := None |};
         MetricCard {| label := "Sources"; value := get "sources" stats;
                       subtitle := None; progressValue := None |};
         MetricCard {| label := "Embeddings";
                       value := JStr (if truthy (get "embeddings_ready" stats)
                                      then "Ready" else "Pending");
                       subtitle := Some (if truthy (get "embeddings_ready" stats)
                                         then "System operational" else "Generating...");
                       progressValue := None |}]
  end.

(** The line of the sidebar of [ClientLayout] that shows the stats. *)
Definition sidebar_stats (stats : option StatsObject) : list View :=
  match stats with
  | None => []
  | Some stats => [SidebarStats (get "articles_indexed" stats) (get "sources" stats)]
  end.

(** The four field names of the stats contract. *)
Definition stats_fields : gset string :=
  {[ "articles_indexed"; "chunks_created"; "sources"; "embeddings_ready" ]}.

(** What the core counts, as far as the stats operation reports it. *)
Record CoreStatus := {
  articles : Z;
  chunks : Z;
  source_count : Z;
  index_ready : bool;
}.

(** Modelled from the spec: the stats operation of the backend (the
    [/stats] route of app.py is not among the sources), which the spec
    gives as [stats() -> {articles_indexed, chunks_created, sources,
    embeddings_ready}]. *)
Definition stats (c : CoreStatus) : StatsObject :=
  <["articles_indexed" := JNum (articles c)]>
    (<["chunks_created" := JNum (chunks c)]>
       (<["sources" := JNum (source_count c)]>
          (<["embeddings_ready" := JBool (index_ready c)]> ∅))).

(** Two objects agree on the contract when they agree on its four fields. *)
Definition agree_on_fields (o o' : StatsObject) : Prop :=
  ∀ k, k ∈ stats_fields → o !! k = o' !! k.

Lemma get_agree o o' k : agree_on_fields o o' → k ∈ stats_fields → get k o = get k o'.
Proof. intros H Hk. unfold get. by rewrite (H k Hk). Qed.

(** C7. The stats operation yields an object with exactly the four fields
    articles_indexed, chunks_created, sources and embeddings_ready; useStats
    hands the fetched object on unchanged; what the consumers
    (StatsOverview, the sidebar) render depends on those four fields only;
    and embeddings_ready is read as a boolean flag: Ready and System
    operational when it is truthy, Pending and Generating... otherwise. *)
Theorem stats_contract :
  (∀ c, dom (stats c) = stats_fields)
  ∧ (∀ data h, refresh (Resolves data) h
               = {| stats_state := Some data; loading := false; error := None |})
  ∧ (∀ o o', agree_on_fields o o' →
       StatsOverview (Some o) = StatsOverview (Some o')
       ∧ sidebar_stats (Some o) = sidebar_stats (Some o'))
  ∧ (∀ o, ∃ cards,
       StatsOverview (Some o)
       = Some (cards ++
               [MetricCard {| label := "Embeddings";
                              value := JStr (if truthy (get "embeddings_ready" o)
                                             then "Ready" else "Pending");
                              subtitle := Some (if truthy (get "embeddings_ready" o)
                                                then "System operational"
                                                else "Generating...");
                              progressValue := None |}]))
  ∧ (∀ c, StatsOverview (Some (stats c))
       = Some [MetricCard {| label := "Articles Indexed"; value := JNum (articles c);
                             subtitle := None; progressValue := None |};
               MetricCard {| label := "Facts Checked"; value := JNum (chunks c);
                             subtitle := None; progressValue := None |};
               MetricCard {| label := "Sources"; value := JNum (source_count c);
                             subtitle := None; progressValue := None |};
               MetricCard {| label := "Embeddings";
                             value := JStr (if index_ready c then "Ready" else "Pending");
                             subtitle := Some (if index_ready c then "System operational"
                                               else "Generating...");
                             progressValue := None |}]).
Proof.
  split.
  { intros c. unfold stats, stats_fields. rewrite !dom_insert_L, dom_empty_L. set_solver. }
  split; [done|].
  split.
  { intros o o' H. unfold StatsOverview, sidebar_stats.
    rewrite !(get_agree o o' _ H) by (unfold stats_fields; set_solver). done. }
  split.
  { intros o. by eexists [_; _; _]. }
  intros c. reflexivity.
Qed.

(** An object with one more field renders like the contract object it
    extends. *)
Lemma stats_contract_witness :
  StatsOverview (Some (<["debug" := JStr "on"]>
                         (stats {| articles := 12; chunks := 340; source_count := 5;
                                   index_ready := true |})))
  = StatsOverview (Some (stats {| articles := 12; chunks := 340; source_count := 5;
                                  index_ready := true |})).
Proof.
  pose proof stats_contract as (_ & _ & Hagree & _).
  apply Hagree. intros k Hk. apply lookup_insert_ne.
  intros <-. revert Hk. vm_compute. discriminate.
Defined.

End Stats.

(* ===================================================================== *)
(** * The retrieval engine (spec §4.2) *)
(* ===================================================================== *)

Module Retrieval.

(** The metadata of a chunk (spec §3); the chunk id is the key of the index. *)
Record ChunkMeta := {
  article_id : string;
  ordinal : nat;
  text : string;
  source_name : string;
  publish_date : Z;
}.

(** One entry of an Evidence Set: a chunk and its similarity score. *)
Record Evidence := {
  chunk_id : string;
  chunk : ChunkMeta;
  score : Q;
}.

(** An example chunk from source [src], published on [date]. *)
Definition demo_meta (src : string) (date : Z) : ChunkMeta :=
  {| article_id := "a1"; ordinal := 0; text := "Company X announced layoffs";
     source_name := src; publish_date := date |}.

(** An example index of two chunks that carry the same vector. *)
Definition demo_index : gmap string (Z * ChunkMeta) :=
  <["c1" := (1, demo_meta "Reuters" 20240110)]>
    (<["c2" := (1, demo_meta "BBC" 20240112)]> ∅).

Section Retrieval.

(** The embedding vectors, the embedding of a query through the source of
    truth (which can fail) and the cosine similarity of two vectors. *)
Variable Vector : Type.
Variable embed_query : string → option Vector.
Variable cosine : Vector → Vector → Q.

(** The Chunk Index snapshot: chunk id to vector and metadata. *)
Definition Index := gmap string (Vector * ChunkMeta).

(** The filters of a query: the sources it is restricted to, if any. *)
Definition Filters := option (gset string).

Definition allowed (filters : Filters) (e : string * (Vector * ChunkMeta)) : bool :=
  match filters with
  | None => true
  | Some srcs => bool_decide (source_name (e.2.2) ∈ srcs)
  end.

Definition score_entry (qv : Vector) (e : string * (Vector * ChunkMeta)) : Evidence :=
  {| chunk_id := e.1; chunk := e.2.2; score := cosine qv (e.2.1) |}.

(** Modelled from the spec: the order of an Evidence Set (the retrieval
    engine, rag_optimized.py, is not among the sources): higher score
    first; on equal scores the more recent chunk first; then the
    lexicographically smaller chunk id. *)
Definition precedes (a b : Evidence) : bool :=
  match (score b ?= score a)%Q with
  | Lt => true
  | Gt => false
  | Eq =>
      match (publish_date (chunk b) ?= publish_date (chunk a))%Z with
      | Lt => true
      | Gt => false
      | Eq => String.leb (chunk_id a) (chunk_id b)
      end
  end.

Definition Precedes (a b : Evidence) : Prop := precedes a b = true.

Global Instance Precedes_dec a b : Decision (Precedes a b).
Proof. unfold Precedes. apply _. Defined.

(** Modelled from the spec: the top-K selection of the retrieval engine
    (not among the sources): score every candidate, sort, keep the first
    [k]. *)
Definition rank (qv : Vector) (k : nat) (entries : list (string * (Vector * ChunkMeta)))
  : list Evidence :=
  take k (merge_sort Precedes (score_entry qv <$> entries)).

Inductive RetrieveResult :=
| EmbeddingUnavailable
| EvidenceSet (ev : list Evidence).

(** Modelled from the spec: [retrieve(query_text, k, filters)] of the
    retrieval engine (rag_optimized.py is not among the sources): embed the
    query through the source of truth, propagating its failure; scan every
    chunk of the index that passes the filters; rank. *)
Definition retrieve (index : Index) (query_text : string) (k : nat) (filters : Filters)
  : RetrieveResult :=
  match embed_query query_text with
  | None => EmbeddingUnavailable
  | Some qv =>
      EvidenceSet (rank qv k (filter (λ e, allowed filters e = true) (map_to_list index)))
  end.

(** ** Lexicographic order on chunk ids *)

Lemma ascii_compare_refl (a : Ascii.ascii) : Ascii.compare a a = Eq.
Proof. apply N.compare_refl. Qed.

Lemma ascii_compare_lt_trans (a b c : Ascii.ascii) :
  Ascii.compare a b = Lt → Ascii.compare b c = Lt → Ascii.compare a c = Lt.
Proof.
  unfold Ascii.compare. rewrite !N.compare_lt_iff. apply N.lt_trans.
Qed.

Lemma string_compare_refl (s : string) : String.compare s s = Eq.
Proof. induction s as [|a s IH]; simpl; [done|]. by rewrite ascii_compare_refl. Qed.

Lemma string_compare_lt_trans (s1 s2 s3 : string) :
  String.compare s1 s2 = Lt → String.compare s2 s3 = Lt → String.compare s1 s3 = Lt.
Proof.
  revert s2 s3. induction s1 as [|a s1 IH]; intros [|b s2] [|c s3]; simpl; try done.
  destruct (Ascii.compare a b) eqn:Hab; try done;
    destruct (Ascii.compare b c) eqn:Hbc; try done.
  - apply Ascii.compare_eq_iff in Hab as ->. rewrite Hbc. apply IH.
  - apply Ascii.compare_eq_iff in Hab as ->. by rewrite Hbc.
  - apply Ascii.compare_eq_iff in Hbc as <-. by rewrite Hab.
  - by rewrite (ascii_compare_lt_trans _ _ _ Hab Hbc).
Qed.

Lemma string_leb_trans (s1 s2 s3 : string) :
  String.leb s1 s2 = true → String.leb s2 s3 = true → String.leb s1 s3 = true.
Proof.
  unfold String.leb.
  destruct (String.compare s1 s2) eqn:H12; try done;
    destruct (String.compare s2 s3) eqn:H23; try done; intros _ _.
  - apply String.compare_eq_iff in H12 as ->. by rewrite H23.
  - apply String.compare_eq_iff in H12 as ->. by rewrite H23.
  - apply String.compare_eq_iff in H23 as <-. by rewrite H12.
  - by rewrite (string_compare_lt_trans _ _ _ H12 H23).
Qed.

Lemma precedes_spec a b :
  Precedes a b ↔
  (score b < score a)%Q
  ∨ (score a == score b
     ∧ (publish_date (chunk b) < publish_date (chunk a)
        ∨ (publish_date (chunk a) = publish_date (chunk b)
           ∧ String.leb (chunk_id a) (chunk_id b) = true))).
Proof.
  unfold Precedes, precedes.
  destruct (Qcompare_spec (score b) (score a)) as [Hq|Hq|Hq].
  - destruct (Z.compare_spec (publish_date (chunk b)) (publish_date (chunk a)))
      as [Hd|Hd|Hd].
    + split; [intros H; right; split; [by symmetry|right; by split]|].
      intros [?|[_ [?|[_ ?]]]]; [lra|lia|done].
    + split; [intros _; right; split; [by symmetry|by left]|done].
    + split; [done|]. intros [?|[_ [?|[? _]]]]; [lra|lia|lia].
  - split; [by left|done].
  - split; [done|]. intros [?|[? _]]; lra.
Qed.

Global Instance Precedes_total : Total Precedes.
Proof.
  intros a b. rewrite !precedes_spec.
  destruct (Qcompare_spec (score a) (score b)) as [Hq|Hq|Hq]; [|by right; left|by left; left].
  destruct (Z.compare_spec (publish_date (chunk a)) (publish_date (chunk b)))
    as [Hd|Hd|Hd].
  - destruct (String.leb_total (chunk_id a) (chunk_id b)) as [Hs|Hs].
    + left. right. split; [done|]. right. by split.
    + right. right. split; [by symmetry|]. right. by split.
  - right. right. split; [by symmetry|]. by left.
  - left. right. split; [done|]. by left.
Qed.

Global Instance Precedes_trans : Transitive Precedes.
Proof.
  intros a b c. rewrite !precedes_spec.
  intros [Hab|[Hab Hab']] [Hbc|[Hbc Hbc']]; [left; lra..|].
  right. split; [lra|].
  destruct Hab' as [?|[? Hs1]], Hbc' as [?|[? Hs2]]; [left; lia..|].
  right. split; [lia|]. by apply (string_leb_trans _ (chunk_id b)).
Qed.

(** Two entries that precede each other carry the same chunk id. *)
Lemma precedes_antisym_id a b : Precedes a b → Precedes b a → chunk_id a = chunk_id b.
Proof.
  rewrite !precedes_spec.
  intros [?|[? [?|[? Hs1]]]] [?|[? [?|[? Hs2]]]]; try lra; try lia.
  by apply String.leb_antisym.
Qed.

Lemma StronglySorted_lookup_lt {A} (R : relation A) (l : list A) i j a b :
  StronglySorted R l → (i < j)%nat → l !! i = Some a → l !! j = Some b → R a b.
Proof.
  intros Hl. revert i j. induction Hl as [|x l Hl IH Hx]; intros i j Hij Hi Hj; [done|].
  destruct j as [|j]; [lia|]. destruct i as [|i]; simplify_eq/=.
  - rewrite Forall_forall in Hx. apply Hx. by eapply list_elem_of_lookup_2.
  - apply (IH i j); [lia|done..].
Qed.

Lemma scored_ids qv (entries : list (string * (Vector * ChunkMeta))) :
  chunk_id <$> (score_entry qv <$> entries) = entries.*1.
Proof. rewrite <- list_fmap_compose. by apply list_fmap_ext. Qed.

Lemma rank_strongly_sorted qv k entries : StronglySorted Precedes (rank qv k entries).
Proof.
  unfold rank.
  pose proof (StronglySorted_merge_sort Precedes (score_entry qv <$> entries)) as H.
  rewrite <- (take_drop k (merge_sort _ _)) in H.
  by apply StronglySorted_app_1_l in H.
Qed.

Lemma rank_NoDup qv k entries :
  NoDup entries.*1 → NoDup (chunk_id <$> rank qv k entries).
Proof.
  intros Hnd. unfold rank.
  eapply sublist_NoDup; [|apply fmap_sublist, sublist_take].
  rewrite merge_sort_Permutation. by rewrite scored_ids.
Qed.

(** Ranking does not depend on the order in which the candidates are
    scanned. *)
Lemma rank_permutation qv k entries1 entries2 :
  NoDup entries1.*1 → entries1 ≡ₚ entries2 → rank qv k entries1 = rank qv k entries2.
Proof.
  intros Hnd Hp. unfold rank. f_equal.
  apply (Sorted_unique_strong Precedes).
  - intros x1 x2 Hx1 Hx2 H12 H21.
    rewrite merge_sort_Permutation in Hx1, Hx2. rewrite <- Hp in Hx2.
    apply list_elem_of_fmap in Hx1 as (e1 & -> & He1).
    apply list_elem_of_fmap in Hx2 as (e2 & -> & He2).
    pose proof (precedes_antisym_id _ _ H12 H21) as Hid. simpl in Hid.
    destruct e1 as [i1 v1], e2 as [i2 v2]. simpl in Hid. subst i2.
    f_equal. f_equal.
    apply list_elem_of_lookup in He1 as [n1 Hn1].
    apply list_elem_of_lookup in He2 as [n2 Hn2].
    assert (n1 = n2) as ->; [|congruence].
    apply (NoDup_lookup _ _ _ i1 Hnd); rewrite list_lookup_fmap.
    + by rewrite Hn1.
    + by rewrite Hn2.
  - apply Sorted_merge_sort, _.
  - apply Sorted_merge_sort, _.
  - rewrite !merge_sort_Permutation. by rewrite Hp.
Qed.

(** Whatever ranking leaves out comes after everything it keeps. *)
Lemma rank_top qv k entries a b :
  a ∈ rank qv k entries → b ∈ score_entry qv <$> entries → b ∉ rank qv k entries →
  Precedes a b.
Proof.
  unfold rank. intros Ha Hb Hnb.
  pose proof (StronglySorted_merge_sort Precedes (score_entry qv <$> entries)) as H.
  rewrite <- (take_drop k (merge_sort _ _)) in H.
  apply (StronglySorted_app_1_elem_of _ _ _ _ _ H Ha).
  rewrite <- (merge_sort_Permutation Precedes), <- (take_drop k (merge_sort _ _)) in Hb.
  apply elem_of_app in Hb as [Hb|Hb]; [done|exact Hb].
Qed.

Lemma string_leb_ne_ltb (s1 s2 : string) :
  String.leb s1 s2 = true → s1 ≠ s2 → String.ltb s1 s2 = true.
Proof.
  unfold String.leb, String.ltb. intros Hle Hne.
  destruct (String.compare s1 s2) eqn:E; [|done..].
  by apply String.compare_eq_iff in E.
Qed.

Lemma rank_order qv k entries i j a b :
  NoDup entries.*1 → (i < j)%nat →
  rank qv k entries !! i = Some a → rank qv k entries !! j = Some b →
  (score b <= score a)%Q
  ∧ (score a == score b → publish_date (chunk b) ≤ publish_date (chunk a))
  ∧ (score a == score b → publish_date (chunk a) = publish_date (chunk b) →
     String.ltb (chunk_id a) (chunk_id b) = true).
Proof.
  intros Hnd Hij Hi Hj.
  pose proof (StronglySorted_lookup_lt _ _ _ _ _ _ (rank_strongly_sorted qv k entries)
                Hij Hi Hj) as Hp.
  assert (Hne : chunk_id a ≠ chunk_id b).
  { intros Heq. apply (rank_NoDup qv k) in Hnd.
    assert (i = j); [|lia].
    apply (NoDup_lookup _ _ _ (chunk_id a) Hnd); rewrite list_lookup_fmap.
    - by rewrite Hi.
    - rewrite Hj. simpl. by rewrite Heq. }
  apply precedes_spec in Hp as [Hp|[Hq [Hd|[Hd Hs]]]].
  - split; [lra|]. split; intros; lra.
  - split; [lra|]. split; intros; lia.
  - split; [lra|]. split; [lia|]. intros _ _. by apply string_leb_ne_ltb.
Qed.

(** C1. For every index, query text, k and filter set: when the query
    cannot be embedded, retrieve reports EmbeddingUnavailable; otherwise it
    returns an Evidence Set of at most k entries, each a chunk of the index
    that passes the filters with its similarity to the query, sorted by
    descending score, equal scores by higher recency and then by strictly
    increasing chunk id; nothing left out ranks before a returned entry,
    and the result is the same in whatever order the index is scanned. *)
Theorem retrieve_top_k (index : Index) (query_text : string) (k : nat) (filters : Filters) :
  match retrieve index query_text k filters with
  | EmbeddingUnavailable => embed_query query_text = None
  | EvidenceSet ev =>
      (length ev ≤ k)%nat
      ∧ (∀ i j a b, (i < j)%nat → ev !! i = Some a → ev !! j = Some b →
           (score b <= score a)%Q
           ∧ (score a == score b → publish_date (chunk b) ≤ publish_date (chunk a))
           ∧ (score a == score b → publish_date (chunk a) = publish_date (chunk b) →
              String.ltb (chunk_id a) (chunk_id b) = true))
      ∧ ∃ qv, embed_query query_text = Some qv
          ∧ (∀ a, a ∈ ev →
               ∃ v, index !! chunk_id a = Some (v, chunk a)
                    ∧ allowed filters (chunk_id a, (v, chunk a)) = true
                    ∧ score a = cosine qv v)
          ∧ (∀ id v m, index !! id = Some (v, m) → allowed filters (id, (v, m)) = true →
               score_entry qv (id, (v, m)) ∉ ev →
               ∀ a, a ∈ ev → Precedes a (score_entry qv (id, (v, m))))
          ∧ (∀ entries,
               entries ≡ₚ filter (λ e, allowed filters e = true) (map_to_list index) →
               rank qv k entries = ev)
  end.
Proof.
  unfold retrieve, Index in *. destruct (embed_query query_text) as [qv|] eqn:Hq; [|done].
  set (cands := filter (λ e, allowed filters e = true) (map_to_list index)).
  assert (Hnd : NoDup cands.*1).
  { apply (sublist_NoDup _ (map_to_list index).*1); [apply NoDup_fst_map_to_list|].
    apply fmap_sublist, sublist_filter. }
  split; [unfold rank; rewrite length_take; lia|].
  split; [intros i j a b; by apply rank_order|].
  exists qv. split; [done|]. split; [|split].
  - intros a Ha. unfold rank in Ha.
    apply elem_of_take in Ha as (n & Ha & _). apply list_elem_of_lookup_2 in Ha.
    rewrite merge_sort_Permutation in Ha.
    apply list_elem_of_fmap in Ha as ([id [v m]] & -> & He).
    apply list_elem_of_filter in He as [Hal He].
    apply elem_of_map_to_list in He. exists v. simpl. done.
  - intros id v m Hin Hal Hout a Ha.
    apply (rank_top qv k cands); [done| |done].
    apply list_elem_of_fmap. exists (id, (v, m)). split; [done|].
    apply list_elem_of_filter. split; [done|]. by apply elem_of_map_to_list.
  - intros entries Hp. apply rank_permutation; [|done].
    by rewrite Hp.
Qed.

End Retrieval.

(** With equal scores the more recent chunk comes first, and [k = 1] keeps
    only that one. *)
Example retrieve_demo :
  retrieve Z (λ _, Some 1) (λ q v, inject_Z (q * v)) demo_index "layoffs" 1 None
  = EvidenceSet [ {| chunk_id := "c2"; chunk := demo_meta "BBC" 20240112;
                     score := inject_Z 1 |} ].
Proof. vm_compute. reflexivity. Qed.

End Retrieval.

(* ===================================================================== *)
(** * The embedding store and its three tiers (spec §4.1) *)
(* ===================================================================== *)

Module EmbeddingStore.

(** The conditions under which one call runs: whether the fast tier is
    reachable, whether the durable snapshot can be read and written, and
    for which chunks the source of truth answers. *)
Record Conditions := {
  fast_up : bool;
  durable_up : bool;
  source_up : string → bool;
}.

Definition disable_fast (cond : Conditions) : Conditions :=
  {| fast_up := false; durable_up := durable_up cond; source_up := source_up cond |}.

Inductive Tier := FastTier | DurableTier | SourceOfTruth.



Section EmbeddingStore.

(** The embedding vectors, and the vector the remote embedding computation
    yields for a chunk (one current embedding per chunk id and model tag). *)
Variable Vector : Type.
Variable embed : string → Vector.

(** The two caches: the shared fast tier and the durable local snapshot. *)
Record Store := {
  fast : gmap string Vector;
  durable : gmap string Vector;
}.


(** Best-effort writes: a tier that is down swallows the write. *)
Definition write_fast (cond : Conditions) (c : string) (v : Vector) (s : Store) : Store :=
  if fast_up cond then {| fast := <[c := v]> (fast s); durable := durable s |} else s.

Definition write_durable (cond : Conditions) (c : string) (v : Vector) (s : Store) : Store :=
  if durable_up cond then {| fast := fast s; durable := <[c := v]> (durable s) |} else s.

Definition read_fast (cond : Conditions) (c : string) (s : Store) : option Vector :=
  if fast_up cond then fast s !! c else None.

Definition read_durable (cond : Conditions) (c : string) (s : Store) : option Vector :=
  if durable_up cond then durable s !! c else None.

(** Modelled from the spec: the tier order of the embedding store for one
    chunk (rag_optimized.py and embedding_cache.py are not among the
    sources). Fast tier: a hit returns at once, a miss or an unreachable
    tier falls through. Durable tier: a hit returns and repopulates the
    fast tier. Source of truth: the vector is computed and written to the
    durable snapshot and the fast tier; if the source fails too, the chunk
    is unavailable ([None]). *)
Definition lookup_one (cond : Conditions) (c : string) (s : Store)
  : option (Tier * Vector) * Store :=
  match read_fast cond c s with
  | Some v => (Some (FastTier, v), s)
  | None =>
      match read_durable cond c s with
      | Some v => (Some (DurableTier, v), write_fast cond c v s)
      | None =>
          if source_up cond c then
            (Some (SourceOfTruth, embed c),
             write_fast cond c (embed c) (write_durable cond c (embed c) s))
          else (None, s)
      end
  end.

Fixpoint get_or_compute_from (cond : Conditions) (chunk_ids : list string)
    (out : gmap string (option Vector)) (s : Store)
  : gmap string (option Vector) * Store :=
  match chunk_ids with
  | [] => (out, s)
  | c :: rest =>
      let '(r, s') := lookup_one cond c s in
      get_or_compute_from cond rest (<[c := snd <$> r]> out) s'
  end.

(** Modelled from the spec: [get_or_compute(chunk_ids)] of the embedding
    store (not among the sources): a mapping from chunk id to vector, an
    unavailable chunk being reported on its own ([None]) without failing
    the others. *)
Definition get_or_compute (cond : Conditions) (chunk_ids : list string) (s : Store)
  : gmap string (option Vector) * Store :=
  get_or_compute_from cond chunk_ids ∅ s.

(** What happens to a store over time: requests, and the loss of a tier
    with what it held. *)
Inductive Event :=
| Request (cond : Conditions) (chunk_ids : list string)
| FastTierLost
| DurableTierLost.

(** Modelled from the spec: a run of the system over a sequence of events,
    with the fast tier enabled or disabled by configuration; it yields the
    mapping returned to each request. *)
Fixpoint run (fast_enabled : bool) (events : list Event) (s : Store)
  : list (gmap string (option Vector)) * Store :=
  match events with
  | [] => ([], s)
  | Request cond ids :: rest =>
      let '(out, s') :=
        get_or_compute (if fast_enabled then cond else disable_fast cond) ids s in
      let '(outs, s'') := run fast_enabled rest s' in
      (out :: outs, s'')
  | FastTierLost :: rest => run fast_enabled rest {| fast := ∅; durable := durable s |}
  | DurableTierLost :: rest => run fast_enabled rest {| fast := fast s; durable := ∅ |}
  end.





















End EmbeddingStore.






End EmbeddingStore.

(* ===================================================================== *)
(** * The provider gateway and the council (spec §4.3, §4.4, §5) *)
(* ===================================================================== *)

Module Council.

Local Open Scope nat_scope.

(** The closed error taxonomy of the provider gateway. *)
Inductive ErrorKind := RateLimited | Timeout | AuthError | Unavailable | Malformed.

(** Transient classes are retried; AuthError and Malformed are not. *)
Definition transient (k : ErrorKind) : bool :=
  match k with
  | RateLimited | Timeout | Unavailable => true
  | AuthError | Malformed => false
  end.

Inductive AttemptResult (A : Type) :=
| Answered (a : A)
| Errored (k : ErrorKind).
Arguments Answered {A} a.
Arguments Errored {A} k.

(** One attempt at an external service: how long it takes to answer
    ([None]: it never does) and what it answers. *)
Record Attempt (A : Type) := {
  duration : option nat;
  outcome : AttemptResult A;
}.
Arguments duration {A} _.
Arguments outcome {A} _.

(** An external service: what its n-th attempt does. *)
Definition Behaviour (A : Type) := nat → Attempt A.

(** Configuration: attempt cap, per-call timeout, backoff before the retry
    that follows attempt n, global ceiling of the collecting phase, and the
    confidence given to a mechanically built verdict. *)
Record Config := {
  max_attempts : nat;
  per_call_timeout : nat;
  backoff : nat → nat;
  global_timeout : nat;
  low_confidence : Q;
}.

(** An attempt as the caller sees it: cut off at the per-call timeout. *)
Definition observe {A} (cfg : Config) (a : Attempt A) : AttemptResult A * nat :=
  match duration a with
  | Some d =>
      if d <=? per_call_timeout cfg then (outcome a, d)
      else (Errored Timeout, per_call_timeout cfg)
  | None => (Errored Timeout, per_call_timeout cfg)
  end.

(** Modelled from the spec: the retry policy of the provider gateway (the
    inference package is not among the sources): transient errors are
    retried after a backoff until the attempt cap is reached; exhausting
    the retries yields a terminal failure result. [left] is the number of
    attempts still allowed, [n] the index of the next attempt. *)
Fixpoint call_from {A} (cfg : Config) (b : Behaviour A) (left n elapsed : nat)
  : AttemptResult A * nat :=
  match left with
  | 0 => (Errored Unavailable, elapsed)
  | S left' =>
      let '(r, t) := observe cfg (b n) in
      match r with
      | Answered a => (Answered a, elapsed + t)
      | Errored k =>
          if transient k && (0 <? left')
          then call_from cfg b left' (S n) (elapsed + t + backoff cfg n)
          else (Errored k, elapsed + t)
      end
  end.

(** Modelled from the spec: [complete] of the provider gateway, with its
    terminal result and the time it took. *)
Definition complete {A} (cfg : Config) (b : Behaviour A) : AttemptResult A * nat :=
  call_from cfg b (max_attempts cfg) 0 0.

Inductive Status := StatusOk | StatusError | StatusTimeout.

Global Instance Status_eq_dec : EqDecision Status.
Proof. solve_decision. Defined.

(** The Provider Call Result of spec §3. *)
Record ProviderCallResult := {
  provider_id : string;
  status : Status;
  latency : nat;
  answer : option string;
  error_kind : option ErrorKind;
}.

(** The Verdict of spec §3. *)
Record Verdict := {
  synthesis : string;
  agreement_points : list string;
  disagreement_points : list string;
  ranking : list string;
  confidence : Q;
  best_provider : option string;
  worst_provider : option string;
}.

(** Modelled from the spec: the terminal state of one provider call within
    a deliberation (council.py is not among the sources). The call runs on
    its own from the moment of dispatch; a call still in flight at the
    global ceiling counts as failed by timeout and its late answer is
    discarded. *)
Definition settle (cfg : Config) (p : string * Behaviour string) : ProviderCallResult :=
  let '(r, t) := complete cfg p.2 in
  if global_timeout cfg <? t then
    {| provider_id := p.1; status := StatusTimeout; latency := global_timeout cfg;
       answer := None; error_kind := Some Timeout |}
  else
    match r with
    | Answered a =>
        {| provider_id := p.1; status := StatusOk; latency := t;
           answer := Some a; error_kind := None |}
    | Errored Timeout =>
        {| provider_id := p.1; status := StatusTimeout; latency := t;
           answer := None; error_kind := Some Timeout |}
    | Errored k =>
        {| provider_id := p.1; status := StatusError; latency := t;
           answer := None; error_kind := Some k |}
    end.

(** Modelled from the spec: the results of the N provider calls, in
    configuration order. *)
Definition collect (cfg : Config) (roster : list (string * Behaviour string))
  : list ProviderCallResult :=
  settle cfg <$> roster.

(** The collecting phase ends when the last call has reached its terminal
    state. *)
Definition collect_time (results : list ProviderCallResult) : nat :=
  foldr (λ r acc, Nat.max (latency r) acc) 0 results.

Definition ok_answers (results : list ProviderCallResult) : list (string * string) :=
  omap (λ r, match status r, answer r with
             | StatusOk, Some a => Some (provider_id r, a)
             | _, _ => None
             end) results.

(** Modelled from the spec: the Verdict when zero providers succeed; it
    says so explicitly and carries confidence zero. *)
Definition no_deliberation : Verdict :=
  {| synthesis := "No deliberation was possible: every provider call failed.";
     agreement_points := []; disagreement_points := []; ranking := [];
     confidence := 0%Q; best_provider := None; worst_provider := None |}.

(** The longest of the successful answers (the first one among equals). *)
Fixpoint longest (answers : list (string * string)) : string :=
  match answers with
  | [] => ""
  | (_, a) :: rest =>
      let l := longest rest in
      if String.length l <=? String.length a then a else l
  end.

(** Modelled from the spec: the degraded Verdict built mechanically when
    the judge call fails. *)
Definition fallback (cfg : Config) (answers : list (string * string)) : Verdict :=
  {| synthesis := longest answers;
     agreement_points := []; disagreement_points := []; ranking := answers.*1;
     confidence := low_confidence cfg; best_provider := None; worst_provider := None |}.

Inductive Phase := Idle | Dispatching | Collecting | Judging | Done.

(** What a deliberation hands back: the Verdict, the per-provider results,
    the time the run took and the phases it went through. *)
Record Deliberation := {
  the_verdict : Verdict;
  results : list ProviderCallResult;
  elapsed : nat;
  phases : list Phase;
}.

(** Modelled from the spec: a Council deliberation (council.py is not
    among the sources). The judge is a service that is given the successful
    answers; its answer is the Verdict. *)
Definition deliberate (cfg : Config) (roster : list (string * Behaviour string))
    (judge : list (string * string) → Behaviour Verdict) : Deliberation :=
  let rs := collect cfg roster in
  let t := collect_time rs in
  match ok_answers rs with
  | [] =>
      {| the_verdict := no_deliberation; results := rs; elapsed := t;
         phases := [Idle; Dispatching; Collecting; Done] |}
  | answers =>
      let '(j, tj) := complete cfg (judge answers) in
      {| the_verdict := match j with
                        | Answered v => v
                        | Errored _ => fallback cfg answers
                        end;
         results := rs; elapsed := t + tj;
         phases := [Idle; Dispatching; Collecting; Judging; Done] |}
  end.

(** A provider call fails when its terminal state is not ok. *)
Definition call_fails (cfg : Config) (p : string * Behaviour string) : Prop :=
  status (settle cfg p) ≠ StatusOk.

(** An example configuration: three attempts of at most 10 time units,
    backoff 1, 2, 4, ..., and a global ceiling of 25. *)
Definition demo_config : Config :=
  {| max_attempts := 3; per_call_timeout := 10; backoff := λ n, 2 ^ n;
     global_timeout := 25; low_confidence := 1 # 4 |}.

(** Example providers: one is rate limited on every attempt, one never
    answers, one answers at once. *)
Definition rate_limited : Behaviour string :=
  λ _, {| duration := Some 1; outcome := Errored RateLimited |}.

Definition silent : Behaviour string :=
  λ _, {| duration := None; outcome := Answered "late" |}.

Definition prompt : Behaviour string :=
  λ _, {| duration := Some 2; outcome := Answered "yes, 500 layoffs" |}.

(** Example judges: one whose output is malformed, one that cites the
    answers it was given. *)
Definition demo_judge : list (string * string) → Behaviour Verdict :=
  λ _ _, {| duration := Some 1; outcome := Errored Malformed |}.

Definition citing_judge : list (string * string) → Behaviour Verdict :=
  λ answers _,
    {| duration := Some 3;
       outcome := Answered {| synthesis := longest answers; agreement_points := [];
                              disagreement_points := []; ranking := answers.*1;
                              confidence := 1 # 2; best_provider := head answers.*1;
                              worst_provider := None |} |}.

Lemma settle_latency cfg p : latency (settle cfg p) ≤ global_timeout cfg.
Proof.
  unfold settle. destruct (complete cfg p.2) as [r t].
  destruct (Nat.ltb_spec (global_timeout cfg) t) as [H|H]; [done|].
  by destruct r as [a|[]].
Qed.

Lemma collect_time_bound cfg roster :
  collect_time (collect cfg roster) ≤ global_timeout cfg.
Proof.
  induction roster as [|p roster IH]; simpl; [lia|].
  pose proof (settle_latency cfg p). lia.
Qed.

Lemma ok_answers_none cfg roster :
  Forall (call_fails cfg) roster → ok_answers (collect cfg roster) = [].
Proof.
  induction 1 as [|p roster Hp _ IH]; simpl; [done|].
  unfold ok_answers in *. simpl. rewrite IH.
  unfold call_fails in Hp. by destruct (status (settle cfg p)).
Qed.

(** A provider whose every attempt errs or overruns has a failed call. *)
Lemma call_from_never_answers {A} cfg (b : Behaviour A) left n elapsed :
  (∀ i, ∃ k, (observe cfg (b i)).1 = Errored k) →
  ∃ k, (call_from cfg b left n elapsed).1 = Errored k.
Proof.
  intros Hb. revert n elapsed. induction left as [|left IH]; intros n elapsed; simpl.
  { by eexists. }
  destruct (Hb n) as [k Hk]. destruct (observe cfg (b n)) as [r t]. simpl in Hk. subst r.
  destruct (transient k && (0 <? left)); [apply IH|by eexists].
Qed.

Lemma always_erring_fails cfg (p : string * Behaviour string) :
  (∀ i, ∃ k, (observe cfg (p.2 i)).1 = Errored k) → call_fails cfg p.
Proof.
  intros Hb. unfold call_fails, settle, complete.
  pose proof (call_from_never_answers cfg p.2 (max_attempts cfg) 0 0 Hb) as [k Hk].
  destruct (call_from cfg p.2 (max_attempts cfg) 0 0) as [r t] eqn:E.
  simpl in Hk. subst r.
  destruct (global_timeout cfg <? t); simpl; [done|]. by destruct k.
Qed.

(** The result of a provider depends on that provider alone: its place in
    the roster and its siblings have no part in it. *)
Lemma collect_isolated cfg before p after :
  collect cfg (before ++ p :: after) !! length before = Some (settle cfg p).
Proof.
  unfold collect. rewrite fmap_app, lookup_app_r; rewrite length_fmap; [|done].
  by rewrite Nat.sub_diag.
Qed.

(** C2. For every Council deliberation in which every provider call
    fails, whatever the roster, the judge and the configuration, the run
    goes from collecting straight to Done within the global timeout
    ceiling and hands back a Verdict of confidence zero whose synthesis
    states that no deliberation was possible. *)
Theorem all_providers_failing (cfg : Config) (roster : list (string * Behaviour string))
    (judge : list (string * string) → Behaviour Verdict) :
  Forall (call_fails cfg) roster →
  the_verdict (deliberate cfg roster judge) = no_deliberation
  ∧ confidence (the_verdict (deliberate cfg roster judge)) = 0%Q
  ∧ synthesis (the_verdict (deliberate cfg roster judge))
    = "No deliberation was possible: every provider call failed."
  ∧ elapsed (deliberate cfg roster judge) ≤ global_timeout cfg
  ∧ phases (deliberate cfg roster judge) = [Idle; Dispatching; Collecting; Done]
  ∧ length (results (deliberate cfg roster judge)) = length roster.
Proof.
  intros Hall. unfold deliberate. rewrite (ok_answers_none _ _ Hall). simpl.
  repeat split; try done.
  - apply collect_time_bound.
  - unfold collect. by rewrite length_fmap.
Qed.

(** Provider A answers and provider B never does: B is failed by timeout at
    the ceiling, the judge sees only A's answer, and the run takes the
    ceiling plus the judge call. *)
Example council_partial_failure :
  let d := deliberate demo_config [("A", prompt); ("B", silent)] citing_judge in
  status <$> results d = [StatusOk; StatusTimeout]
  ∧ synthesis (the_verdict d) = "yes, 500 layoffs"
  ∧ ranking (the_verdict d) = ["A"]
  ∧ elapsed d = 28
  ∧ phases d = [Idle; Dispatching; Collecting; Judging; Done].
Proof. vm_compute. repeat split. Qed.

(** When the judge fails, the Verdict is built mechanically. *)
Example council_judge_failure :
  the_verdict (deliberate demo_config [("A", prompt); ("B", rate_limited)] demo_judge)
  = fallback demo_config [("A", "yes, 500 layoffs")].
Proof. vm_compute. reflexivity. Qed.

Lemma all_providers_failing_witness :
  Forall (call_fails demo_config) [("A", rate_limited); ("B", silent)]
  ∧ the_verdict (deliberate demo_config [("A", rate_limited); ("B", silent)] demo_judge)
    = no_deliberation
  ∧ elapsed (deliberate demo_config [("A", rate_limited); ("B", silent)] demo_judge) ≤ 25.
Proof.
  assert (H : Forall (call_fails demo_config) [("A", rate_limited); ("B", silent)]).
  { repeat constructor; apply always_erring_fails; intros i; by eexists. }
  split; [exact H|].
  pose proof (all_providers_failing demo_config _ demo_judge H) as (Hv & _ & _ & He & _).
  split; [exact Hv|exact He].
Defined.

End Council.

(* ===================================================================== *)
(** * hooks/useConsensus.ts: the stream is read the same however it is cut *)
(* ===================================================================== *)

Module StreamChunks.
Import UseConsensus.

(** The text of a whole stream: what [buffer += decoder.decode(value)]
    accumulates when nothing is taken out of the buffer. *)
Definition stream_text (chunks : list string) : string :=
  foldr String.append "" chunks.

(** What is left in [buffer] when the reader reports [done]. *)
Fixpoint final_buffer (chunks : list string) (buffer : string) : string :=
  match chunks with
  | [] => buffer
  | chunk :: rest =>
      let '(_, buffer') := pop_lines (split_blank_line (buffer +:+ chunk) "") in
      final_buffer rest buffer'
  end.

(** [acc] followed by the first character of [x] holds no two line feeds
    in a row. *)
Fixpoint clean (acc x : string) : bool :=
  match acc with
  | EmptyString => true
  | String a acc' =>
      match acc' +:+ x with
      | String c' _ => negb (Ascii.eqb a LF && Ascii.eqb c' LF)
      | EmptyString => true
      end && clean acc' x
  end.

Lemma append_cons c (s t : string) : String c s +:+ t = String c (s +:+ t).
Proof. reflexivity. Qed.

Lemma append_nil_r (s : string) : s +:+ "" = s.
Proof. induction s as [|c s IH]; [done|]. by rewrite append_cons, IH. Qed.

Lemma append_assoc (s t u : string) : (s +:+ t) +:+ u = s +:+ (t +:+ u).
Proof. induction s as [|c s IH]; [done|]. by rewrite !append_cons, IH. Qed.

Lemma split_blank_line_nonempty s acc : split_blank_line s acc ≠ [].
Proof.
  revert acc. induction s as [|c s IH]; intros acc; simpl; [done|].
  destruct s as [|c' s']; [done|].
  destruct (Ascii.eqb c LF && Ascii.eqb c' LF); [done|apply IH].
Qed.

(** A clean accumulator can be put back in front of the text. *)
Lemma split_blank_line_acc acc x acc0 :
  clean acc x = true →
  split_blank_line (acc +:+ x) acc0 = split_blank_line x (acc0 +:+ acc).
Proof.
  revert acc0. induction acc as [|a acc IH]; intros acc0 Hc.
  { by rewrite append_nil_r. }
  simpl in Hc. apply andb_true_iff in Hc as [Ha Hc].
  rewrite append_cons. cbn [split_blank_line].
  destruct (acc +:+ x) as [|c' rest] eqn:E.
  - destruct acc; [|done]. change x with ("" +:+ x). by rewrite E.
  - apply negb_true_iff in Ha. rewrite Ha, IH by done.
    by rewrite append_assoc.
Qed.

Lemma clean_snoc acc c0 c r :
  clean acc (String c0 (String c r)) = true →
  (Ascii.eqb c0 LF && Ascii.eqb c LF) = false →
  clean (acc +:+ String c0 "") (String c r) = true.
Proof.
  intros Hc Hn. induction acc as [|a acc IH].
  { change ("" +:+ String c0 "") with (String c0 ""). simpl.
    change ("" +:+ String c r) with (String c r). by rewrite Hn. }
  simpl in Hc. apply andb_true_iff in Hc as [Ha Hc].
  rewrite append_cons. simpl. rewrite append_assoc.
  change (String c0 "" +:+ String c r) with (String c0 (String c r)).
  rewrite Ha. simpl. by apply IH.
Qed.

(** Text that arrives after [s] is split as if the last piece of [s] had
    been kept and the new text appended to it. *)
Lemma split_blank_line_app s :
  (∀ acc t, clean acc (s +:+ t) = true →
     split_blank_line (s +:+ t) acc
     = removelast (split_blank_line s acc)
       ++ split_blank_line (List.last (split_blank_line s acc) "" +:+ t) "")
  ∧ (∀ c acc t, clean acc (String c s +:+ t) = true →
     split_blank_line (String c s +:+ t) acc
     = removelast (split_blank_line (String c s) acc)
       ++ split_blank_line (List.last (split_blank_line (String c s) acc) "" +:+ t) "").
Proof.
  induction s as [|c1 s [IH0 IH1]].
  - split.
    + intros acc t Hc. change ("" +:+ t) with t in *. simpl.
      by rewrite (split_blank_line_acc acc t "").
    + intros c acc t Hc. cbn [split_blank_line removelast List.last app].
      rewrite append_assoc.
      by rewrite (split_blank_line_acc acc (String c "" +:+ t) "").
  - split; [exact (IH1 c1)|].
    intros c acc t Hc.
    rewrite !append_cons in *. cbn [split_blank_line].
    destruct (Ascii.eqb c LF && Ascii.eqb c1 LF) eqn:E.
    + pose proof (split_blank_line_nonempty s "") as Hne.
      rewrite (IH0 "" t) by done.
      destruct (split_blank_line s "") as [|p ps] eqn:Es; [done|].
      done.
    + apply (IH1 c1 (acc +:+ String c "") t).
      by apply clean_snoc.
Qed.

(** The last piece of a split holds no blank line. *)
Lemma split_blank_line_last s :
  split_blank_line (List.last (split_blank_line s "") "") ""
  = [List.last (split_blank_line s "") ""].
Proof.
  destruct (split_blank_line_app s) as [H _].
  specialize (H "" "" eq_refl). rewrite !append_nil_r in H.
  pose proof (app_removelast_last "" (split_blank_line_nonempty s "")) as H'.
  rewrite H' in H at 1. by apply app_inv_head in H.
Qed.

Lemma delivered_whole chunks buffer :
  delivered_lines chunks buffer ++ split_blank_line (final_buffer chunks buffer) ""
  = split_blank_line (buffer +:+ stream_text chunks) "".
Proof.
  revert buffer. induction chunks as [|chunk chunks IH]; intros buffer.
  - simpl. by rewrite append_nil_r.
  - cbn [delivered_lines final_buffer stream_text foldr pop_lines].
    rewrite <- app_assoc, IH, <- append_assoc.
    destruct (split_blank_line_app (buffer +:+ chunk)) as [H _].
    symmetry. by apply (H "" (stream_text chunks)).
Qed.

Lemma final_buffer_whole chunks :
  split_blank_line (final_buffer chunks "") "" = [final_buffer chunks ""].
Proof.
  assert (H : ∀ b, split_blank_line b "" = [b] →
            split_blank_line (final_buffer chunks b) "" = [final_buffer chunks b]).
  { induction chunks as [|chunk chunks IH]; intros b Hb; [done|].
    cbn [final_buffer pop_lines]. apply IH, split_blank_line_last. }
  by apply H.
Qed.

Lemma delivered_final chunks :
  delivered_lines chunks "" ++ [final_buffer chunks ""]
  = split_blank_line (stream_text chunks) "".
Proof.
  pose proof (delivered_whole chunks "") as H.
  by rewrite final_buffer_whole in H.
Qed.

(** The lines handed to the loop body are the pieces of the whole text
    that are closed by a blank line. *)
Lemma delivered_lines_whole chunks :
  delivered_lines chunks "" = removelast (split_blank_line (stream_text chunks) "").
Proof. by rewrite <- delivered_final, removelast_last. Qed.

Section StreamChunks.

Variable JSON_parse : string → Parsed.

(** However the text of the stream is cut into chunks, ask processes the
    same lines, namely the pieces of the whole text that a blank line
    closes, and so ends in the same state with the same result as on the
    text arriving in one chunk; what follows the last blank line is never
    processed. *)
Theorem chunking_is_irrelevant (chunks : list string) :
  delivered_lines chunks "" = removelast (split_blank_line (stream_text chunks) "")
  ∧ final_buffer chunks "" = List.last (split_blank_line (stream_text chunks) "") ""
  ∧ ∀ question md w,
      ask JSON_parse question md (Resolves (ReadValue <$> chunks)) w
      = ask JSON_parse question md (Resolves [ReadValue (stream_text chunks)]) w.
Proof.
  split; [apply delivered_lines_whole|]. split.
  { by rewrite <- delivered_final, last_last. }
  intros question md w. unfold ask.
  destruct (JS.not_string (JS.trim question)); [done|].
  unfold ask_try.
  change [ReadValue (stream_text chunks)] with (ReadValue <$> [stream_text chunks]).
  rewrite !read_loop_delivered, !delivered_lines_whole.
  unfold stream_text at 2. simpl. by rewrite append_nil_r.
Qed.

End StreamChunks.

(** An event cut in the middle of its terminating blank line. *)
Example chunking_between_line_feeds :
  delivered_lines ["data: searching" +:+ String LF ""; String LF "data: comp";
                   "lete" +:+ blank_line +:+ "data: err"] ""
  = ["data: searching"; "data: complete"].
Proof. reflexivity. Qed.

End StreamChunks.

(* ===================================================================== *)
(** * The stores as the pages use them *)
(* ===================================================================== *)

Module StoreUse.
Import Stores.

(** The tabs of app/history/page.tsx. *)
Inductive Tab := SearchTab | ArenaTab.

(** One row of [RecentSearches]: the link target, the query, the number of
    facts and the consensus percentage, when there is one. *)
Record RecentRow := {
  row_href : string;
  row_query : JS.jsstring;
  row_facts : Z;
  row_percent : option Z;
}.

(** The state of a [BookmarkButton]: the store it reads and its own
    [justSaved] flag. *)
Record ButtonState := { store : BookmarkState; justSaved : bool }.

(** A fast-mode response without facts whose score is the number written
    0.155. *)
Definition scored_response : ConsensusResponse :=
  {| facts := []; mode := Some Fast; consensus_score := Double.of_decimal (155 # 1000);
     coverage_quality := None; sources_analyzed := None; chunks_used := None;
     headline := None; summary := None; answer := None; divergences := None;
     bias_analysis := None |}.

(** An arena response without models, for the examples. *)
Definition demo_arena : ArenaResponse :=
  {| models := [];
     judge := {| agreements := None; disagreements := None; verdict := "";
                 best := ""; worst := ""; judge_model := "" |};
     meta := {| succeeded := 0; failed := 0; total := 0 |} |}.

Section StoreUse.

Variable BOOKMARKS_MAX : Z.
Variable SEARCH_HISTORY_MAX : Z.
Variable calcDisruption : ArenaResponse → Z.

(** ** components/common/BookmarkButton.tsx *)

(** [s.bookmarks.some((b) => b.query === query)] *)
Definition saved (query : JS.jsstring) (s : BookmarkState) : bool :=
  existsb (λ b, bool_decide (b_query b = query)) (bookmarks s).

Definition button_toggle (id : string) (now : Z) (query : JS.jsstring)
    (response : ConsensusResponse) (st : ButtonState) : ButtonState :=
  if saved query (store st) then
    {| store := removeByQuery query (store st); justSaved := justSaved st |}
  else
    {| store := addBookmark BOOKMARKS_MAX id now query response None None (store st);
       justSaved := true |}.

Definition button_label (query : JS.jsstring) (st : ButtonState) : string :=
  if saved query (store st) then (if justSaved st then "Saved!" else "Saved")
  else "Save".

(** ** app/arena/page.tsx: the bookmark button of a result *)

Definition arena_toggle (id : string) (now : Z) (newsItem : JS.jsstring)
    (result : ArenaResponse) (s : BookmarkState) : BookmarkState :=
  if isArenaBookmarked newsItem s then
    match find (λ b, bool_decide (ab_query b = newsItem)) (arenaBookmarks s) with
    | Some bm => removeArenaBookmark (ab_id bm) s
    | None => s
    end
  else addArenaBookmark BOOKMARKS_MAX id now newsItem result None s.

(** No two arena bookmarks carry the same query. *)
Definition distinct_queries (s : BookmarkState) : Prop :=
  NoDup (ab_query <$> arenaBookmarks s).

(** ** app/history/page.tsx: the Clear button *)

Definition clear_shown (s : SearchHistoryState) : bool :=
  bool_decide (0 < length (entries s))%nat || bool_decide (0 < length (arenaEntries s))%nat.

Definition clear_click (tab : Tab) (s : SearchHistoryState) : SearchHistoryState :=
  match tab with
  | SearchTab => clearHistory s
  | ArenaTab => clearArenaHistory s
  end.

(** ** components/dashboard: RecentSearches *)

Definition recent_row (e : SearchHistoryEntry) : RecentRow :=
  {| row_href := "/topic/" +:+ e_id e;
     row_query := e_query e;
     row_facts := e_factsCount e;
     row_percent := (λ score, Results.Math_round (Double.mul score 100))
                    <$> e_consensusScore e |}.

(** [None] is the empty view with its Start Searching link. *)
Definition RecentSearches (s : SearchHistoryState) : option (list RecentRow) :=
  if bool_decide (length (entries s) = 0%nat) then None
  else Some (recent_row <$> JS.slice0 (entries s) 5).

Lemma existsb_take {A} (f : A → bool) k (l : list A) :
  existsb f (take k l) = true → existsb f l = true.
Proof.
  revert k. induction l as [|x l IH]; intros [|k]; simpl; try done.
  destruct (f x); [done|]. apply IH.
Qed.

Lemma existsb_filter_other {A} (f : A → bool) (P : A → Prop) `{∀ x, Decision (P x)}
    (l : list A) :
  (∀ x, f x = true → P x) → existsb f (filter P l) = existsb f l.
Proof.
  intros Hf. induction l as [|x l IH]; simpl; [done|].
  rewrite filter_cons. case_decide as Hx; simpl; [by rewrite IH|].
  destruct (f x) eqn:E; [by apply Hf in E|done].
Qed.

Lemma existsb_filter_none {A} (f : A → bool) (P : A → Prop) `{∀ x, Decision (P x)}
    (l : list A) :
  (∀ x, x ∈ l → f x = true → ¬ P x) → existsb f (filter P l) = false.
Proof.
  intros Hf. induction l as [|x l IH]; simpl; [done|].
  assert (Hl : existsb f (filter P l) = false).
  { apply IH. intros y Hy. apply Hf. by right. }
  rewrite filter_cons. case_decide as Hx; simpl; [|done].
  destruct (f x) eqn:E; [|done]. destruct (Hf x); [left|done|done].
Qed.

Lemma filter_find_none {A} (P : A → Prop) `{∀ x, Decision (P x)} (l : list A) :
  find (λ x, bool_decide (P x)) l = None → filter (λ x, ¬ P x) l = l.
Proof.
  induction l as [|x l IH]; simpl; [done|].
  case_bool_decide as Hx; [done|]. intros Hl.
  rewrite filter_cons, decide_True by done. by rewrite IH.
Qed.

Lemma find_some_spec {A} (f : A → bool) (l : list A) x :
  find f l = Some x → x ∈ l ∧ f x = true.
Proof.
  induction l as [|y l IH]; simpl; [done|].
  destruct (f y) eqn:E.
  - intros [= ->]. split; [left|done].
  - intros Hl. destruct (IH Hl). split; [by right|done].
Qed.

Lemma existsb_find {A} (f : A → bool) (l : list A) :
  existsb f l = true → ∃ x, find f l = Some x.
Proof.
  induction l as [|y l IH]; simpl; [done|].
  destruct (f y); [by eexists|]. apply IH.
Qed.

Lemma NoDup_fmap_elem {A B} (f : A → B) (l : list A) x y :
  NoDup (f <$> l) → x ∈ l → y ∈ l → f x = f y → x = y.
Proof.
  induction l as [|z l IH]; simpl; [by intros _ Hx; inversion Hx|].
  rewrite NoDup_cons. intros [Hz Hl] Hx Hy Hf.
  apply elem_of_cons in Hx as [->|Hx]; apply elem_of_cons in Hy as [->|Hy];
    try done.
  - exfalso. apply Hz. rewrite Hf. by apply list_elem_of_fmap_2.
  - exfalso. apply Hz. rewrite <- Hf. by apply list_elem_of_fmap_2.
  - by apply IH.
Qed.

(** Clicking the bookmark button of a result flips whether its query is
    saved; it leaves the arena bookmarks alone, never makes another query
    saved, and, when it removes, leaves the other queries as they were.
    The button then reads Save after a removal and Saved! after an
    addition. *)
Theorem bookmark_button_flips id now query response st :
  0 < BOOKMARKS_MAX →
  saved query (store (button_toggle id now query response st))
  = negb (saved query (store st))
  ∧ arenaBookmarks (store (button_toggle id now query response st))
    = arenaBookmarks (store st)
  ∧ (∀ q', q' ≠ query →
       saved q' (store (button_toggle id now query response st)) = true →
       saved q' (store st) = true)
  ∧ (saved query (store st) = true → ∀ q', q' ≠ query →
       saved q' (store (button_toggle id now query response st)) = saved q' (store st))
  ∧ button_label query (button_toggle id now query response st)
    = (if saved query (store st) then "Save" else "Saved!")%string.
Proof.
  intros Hmax. unfold button_label, button_toggle.
  destruct (saved query (store st)) eqn:Hs; simpl.
  - assert (Hother : ∀ q', q' ≠ query →
      saved q' (removeByQuery query (store st)) = saved q' (store st)).
    { intros q' Hq. unfold saved, removeByQuery; simpl.
      apply existsb_filter_other. intros b Hb.
      apply bool_decide_eq_true in Hb. congruence. }
    assert (Hgone : saved query (removeByQuery query (store st)) = false).
    { unfold saved, removeByQuery; simpl. apply existsb_filter_none.
      intros b _ Hb. apply bool_decide_eq_true in Hb. by intros []. }
    rewrite Hgone. split; [done|].
    split; [done|]. split; [|by split].
    intros q' Hq. by rewrite Hother.
  - assert (Hnew : saved query (addBookmark BOOKMARKS_MAX id now query response
                                  None None (store st)) = true).
    { unfold saved, addBookmark; simpl. rewrite slice0_cons_pos by done. simpl.
      by rewrite bool_decide_true. }
    rewrite Hnew. split; [done|].
    split; [done|]. split; [|done].
    intros q' Hq. unfold saved, addBookmark; simpl.
    rewrite slice0_cons_pos by done. simpl.
    rewrite bool_decide_false by done. simpl. apply existsb_take.
Qed.

(** Adding a bookmark makes its query bookmarked and its id resolve to the
    new record; when the store is not full and the id is not in use,
    removing it again gives back the store as it was. *)
Theorem add_then_remove_restores id now query response note md s :
  Z.of_nat (length (bookmarks s)) < BOOKMARKS_MAX →
  getBookmark id s = None →
  isBookmarked query (addBookmark BOOKMARKS_MAX id now query response note md s) = true
  ∧ getBookmark id (addBookmark BOOKMARKS_MAX id now query response note md s)
    = Some {| b_id := id; b_query := query; b_response := response;
              b_savedAt := now; b_note := note; b_mode := md |}
  ∧ removeBookmark id (addBookmark BOOKMARKS_MAX id now query response note md s) = s.
Proof.
  intros Hlen Hid. destruct s as [bs abs]; simpl in *.
  unfold isBookmarked, getBookmark, removeBookmark, addBookmark in *; simpl in *.
  rewrite slice0_cons_pos by lia. simpl. rewrite !bool_decide_true by done.
  split; [done|]. split; [done|].
  rewrite filter_cons, decide_False by (by intros []).
  rewrite take_ge by lia. f_equal.
  by apply (filter_find_none (λ b, b_id b = id)).
Qed.

(** While no two arena bookmarks share a query, which clicking the button
    preserves, a click flips whether the news item is bookmarked; search
    bookmarks are left alone. *)
Theorem arena_toggle_flips id now newsItem result s :
  0 < BOOKMARKS_MAX → distinct_queries s →
  distinct_queries (arena_toggle id now newsItem result s)
  ∧ isArenaBookmarked newsItem (arena_toggle id now newsItem result s)
    = negb (isArenaBookmarked newsItem s)
  ∧ bookmarks (arena_toggle id now newsItem result s) = bookmarks s.
Proof.
  intros Hmax Hnd. unfold arena_toggle, distinct_queries in *.
  destruct (isArenaBookmarked newsItem s) eqn:Hs.
  - unfold isArenaBookmarked in Hs.
    destruct (existsb_find _ _ Hs) as [bm Hbm]. rewrite Hbm.
    destruct (find_some_spec _ _ _ Hbm) as [Hin Hq].
    apply bool_decide_eq_true in Hq.
    split.
    { simpl. eapply sublist_NoDup; [exact Hnd|].
      apply fmap_sublist, sublist_filter. }
    split; [|done].
    unfold isArenaBookmarked; simpl. apply existsb_filter_none.
    intros b Hb Hqb. apply bool_decide_eq_true in Hqb. intros Hne. apply Hne.
    f_equal. apply (NoDup_fmap_elem ab_query (arenaBookmarks s)); try done.
    congruence.
  - unfold isArenaBookmarked, addArenaBookmark in *; simpl.
    rewrite slice0_cons_pos by done. simpl.
    split; [|by rewrite bool_decide_true].
    apply NoDup_cons. split.
    + intros Hin. apply list_elem_of_fmap in Hin as (b & Hb & Hin).
      assert (Hin' : b ∈ arenaBookmarks s).
      { eapply elem_of_sublist; [exact Hin|apply sublist_take]. }
      assert (existsb (λ b, bool_decide (ab_query b = newsItem)) (arenaBookmarks s) = true)
        as Hex; [|congruence].
      apply existsb_exists. exists b. split; [by apply list_elem_of_In|].
      by apply bool_decide_eq_true.
    + eapply sublist_NoDup; [exact Hnd|]. apply fmap_sublist, sublist_take.
Qed.

(** Without that invariant the flip can fail: of two arena bookmarks with
    the same query a click removes the first only. *)
Example arena_toggle_with_duplicates :
  isArenaBookmarked [0x61%N]
    (arena_toggle "c" 3 [0x61%N] demo_arena
       {| bookmarks := [];
          arenaBookmarks :=
            [ {| ab_id := "b"; ab_query := [0x61%N]; ab_response := demo_arena;
                 ab_savedAt := 2; ab_note := None |};
              {| ab_id := "a"; ab_query := [0x61%N]; ab_response := demo_arena;
                 ab_savedAt := 1; ab_note := None |} ] |})
  = true.
Proof. reflexivity. Qed.

(** Reading back and undoing an addEntry: the new entry is found under its
    id and, when the history is not full and the id is not in use,
    removeEntry gives back the history as it was. The Clear button of the
    history page empties both lists on the search tab, the ConsentAI battles
    included, and only the battles on the ConsentAI tab. *)
Theorem history_round_trip id now query response md s :
  Z.of_nat (length (entries s)) < SEARCH_HISTORY_MAX →
  getEntry id s = None →
  getEntry id (addEntry SEARCH_HISTORY_MAX id now query response md s)
  = Some (new_entry id now query response md)
  ∧ removeEntry id (addEntry SEARCH_HISTORY_MAX id now query response md s) = s
  ∧ clear_click SearchTab (addEntry SEARCH_HISTORY_MAX id now query response md s)
    = history_init
  ∧ (∀ s', entries (clear_click ArenaTab s') = entries s'
           ∧ arenaEntries (clear_click ArenaTab s') = []
           ∧ arenaEntries (clear_click SearchTab s') = []
           ∧ clear_shown (clear_click SearchTab s') = false).
Proof.
  intros Hlen Hid. destruct s as [es aes]; simpl in *.
  unfold getEntry, removeEntry, addEntry in *; simpl in *.
  rewrite slice0_cons_pos by lia. simpl. rewrite !bool_decide_true by done.
  split; [done|]. split; [|done].
  rewrite filter_cons, decide_False by (by intros []).
  rewrite take_ge by lia. f_equal.
  by apply (filter_find_none (λ e, e_id e = id)).
Qed.

(** Right after a search is recorded it is the first row of the
    dashboard's recent searches, linked to its topic page and showing a
    percentage exactly when the search had a response, namely a hundred
    times the score in the arithmetic of numbers, rounded; it is followed
    by at most four rows, the newest of the searches recorded before. *)
Theorem recent_searches_newest_first id now query response md s :
  0 < SEARCH_HISTORY_MAX →
  ∃ rows,
    RecentSearches (addEntry SEARCH_HISTORY_MAX id now query response md s)
    = Some ({| row_href := "/topic/" +:+ id; row_query := query;
               row_facts := from_option (λ r, Z.of_nat (length (facts r))) 0 response;
               row_percent := (λ r, Results.Math_round
                                      (Double.mul (consensus_score r) 100))
                              <$> response |} :: rows)
    ∧ (length rows ≤ 4)%nat
    ∧ rows = recent_row
             <$> take (Z.to_nat (Z.min 4 (SEARCH_HISTORY_MAX - 1))) (entries s).
Proof.
  intros Hmax. unfold RecentSearches, addEntry; simpl.
  rewrite slice0_cons_pos by done. simpl.
  rewrite JS.slice0_nonneg by lia. simpl.
  eexists. split.
  { f_equal. f_equal. unfold recent_row, new_entry; simpl. f_equal.
    by destruct response. }
  split.
  - rewrite length_fmap, length_take. apply Nat.le_min_l.
  - f_equal. rewrite take_take. f_equal. lia.
Qed.

End StoreUse.

Lemma bookmark_button_flips_witness :
  saved [0x61%N]
    (store (button_toggle 2 "b1" 10 [0x61%N] empty_response
              {| store := bookmark_init; justSaved := false |}))
  = true.
Proof.
  apply (bookmark_button_flips 2 "b1" 10 [0x61%N] empty_response
           {| store := bookmark_init; justSaved := false |}).
  lia.
Defined.

Lemma add_then_remove_restores_witness :
  removeBookmark "b1"
    (addBookmark 2 "b1" 10 [0x61%N] empty_response None None bookmark_init)
  = bookmark_init.
Proof.
  apply (add_then_remove_restores 2 "b1" 10 [0x61%N] empty_response None None
           bookmark_init); [simpl; lia|reflexivity].
Defined.

Lemma arena_toggle_flips_witness :
  isArenaBookmarked [0x61%N] (arena_toggle 2 "a1" 10 [0x61%N] demo_arena bookmark_init)
  = true.
Proof.
  apply (arena_toggle_flips 2 "a1" 10 [0x61%N] demo_arena bookmark_init); [lia|].
  apply NoDup_nil_2.
Defined.

Lemma history_round_trip_witness :
  removeEntry "h1" (addEntry 3 "h1" 10 [0x61%N] None None history_init) = history_init.
Proof.
  apply (history_round_trip 3 "h1" 10 [0x61%N] None None history_init);
    [simpl; lia|reflexivity].
Defined.

(** A search whose score is the number written 0.155: a hundred times it
    is a little above 15.5, and the row shows 16. *)
Lemma recent_searches_newest_first_witness :
  ∃ rows,
    RecentSearches (addEntry 3 "h1" 10 [0x61%N] (Some scored_response) None history_init)
    = Some ({| row_href := "/topic/h1"; row_query := [0x61%N]; row_facts := 0;
               row_percent := Some 16 |} :: rows)
    ∧ (length rows ≤ 4)%nat
    ∧ rows = recent_row <$> take (Z.to_nat (Z.min 4 (3 - 1))) (entries history_init).
Proof.
  destruct (recent_searches_newest_first 3 "h1" 10 [0x61%N] (Some scored_response) None
              history_init ltac:(lia)) as (rows & Hrows & Hlen & Hrest).
  exists rows. split; [|by split].
  rewrite Hrows. vm_compute. reflexivity.
Defined.

End StoreUse.

(* ===================================================================== *)
(** * How the requests of the pages end *)
(* ===================================================================== *)

Module Outcomes.

(** ** hooks/useRefresh.ts, as the sidebar uses it: [useRefresh(refreshStats)] *)

Record RefreshState := { refreshing : bool; refresh_error : option string }.

(** What [refreshNews()] settles to. *)
Inductive RefreshNews :=
| NewsRejects (e : Thrown)
| NewsResolves.

(** The state of the sidebar: the two hooks. *)
Record Sidebar := { news : RefreshState; stats_hook : Stats.HookState }.

(** [refresh] of [useRefresh], with [onSuccess] bound to the [refresh] of
    [useStats]; [env_stats] is what [fetchStats()] settles to if it is
    called. *)
Definition refresh_news (env : RefreshNews) (env_stats : Stats.FetchStats)
    (sb : Sidebar) : Sidebar :=
  match env with
  | NewsResolves =>
      {| news := {| refreshing := false; refresh_error := None |};
         stats_hook := Stats.refresh env_stats (stats_hook sb) |}
  | NewsRejects err =>
      {| news := {| refreshing := false;
                    refresh_error := Some (message_or "Refresh failed" err) |};
         stats_hook := stats_hook sb |}
  end.

(** Successive calls of [refresh] of [useStats]. *)
Definition refreshes (envs : list Stats.FetchStats) (h : Stats.HookState) : Stats.HookState :=
  foldl (λ h env, Stats.refresh env h) h envs.

Definition is_rejection (env : Stats.FetchStats) : Prop :=
  match env with Stats.Rejects _ => True | Stats.Resolves _ => False end.

Lemma refreshes_app envs envs' h :
  refreshes (envs ++ envs') h = refreshes envs' (refreshes envs h).
Proof. apply foldl_app. Qed.

Lemma refreshes_rejections envs h :
  Forall is_rejection envs →
  Stats.stats_state (refreshes envs h) = Stats.stats_state h.
Proof.
  intros Hall. revert h. induction Hall as [|env envs Hr _ IH]; intros h; [done|].
  simpl. rewrite IH. by destruct env.
Qed.

(** Failed fetches never discard stats: after any run of refreshes the
    hook holds the object of the last fetch that succeeded, or what it
    held before if none did; it is not loading; and its error is that of
    the last fetch alone. The sidebar's news refresh re-fetches the stats
    only when the news refresh itself succeeded. *)
Theorem stats_survive_failures :
  (∀ envs data failures h, Forall is_rejection failures →
     Stats.stats_state (refreshes (envs ++ Stats.Resolves data :: failures) h) = Some data)
  ∧ (∀ failures h, Forall is_rejection failures →
     Stats.stats_state (refreshes failures h) = Stats.stats_state h)
  ∧ (∀ envs env h,
     Stats.loading (refreshes (envs ++ [env]) h) = false
     ∧ Stats.error (refreshes (envs ++ [env]) h)
       = match env with
         | Stats.Resolves _ => None
         | Stats.Rejects e => Some (message_or "Failed to fetch stats" e)
         end)
  ∧ (∀ e env_stats sb,
     stats_hook (refresh_news (NewsRejects e) env_stats sb) = stats_hook sb
     ∧ refresh_error (news (refresh_news (NewsRejects e) env_stats sb))
       = Some (message_or "Refresh failed" e))
  ∧ (∀ env_stats sb,
     stats_hook (refresh_news NewsResolves env_stats sb)
     = Stats.refresh env_stats (stats_hook sb))
  ∧ (∀ env env_stats sb, refreshing (news (refresh_news env env_stats sb)) = false).
Proof.
  split.
  { intros envs data failures h Hf.
    change (envs ++ Stats.Resolves data :: failures)
      with (envs ++ [Stats.Resolves data] ++ failures).
    rewrite app_assoc, refreshes_app, refreshes_rejections by done.
    by rewrite refreshes_app. }
  split; [intros; by apply refreshes_rejections|].
  split.
  { intros envs env h. rewrite refreshes_app. by destruct env. }
  split; [done|]. split; [done|]. by intros [].
Qed.

Section Outcomes.

Variable SEARCH_HISTORY_MAX : Z.
Variable calcDisruption : ArenaResponse → Z.
Variable SearchPreviewResponse : Type.

(** An analysis of a non-blank query posts it once and ends with the page
    not loading and nothing expanded. Only a response with an ok status
    is shown and recorded, as the newest ConsentAI battle of the history;
    every failure stores a message instead, namely the [detail] of the
    body, [Error] and the status, the message of the failure, or the fixed
    connection message, and leaves the history as it was. *)
Theorem analysis_outcome query env id now w :
  ¬ JS.blank query →
  ∃ w', Arena.handleAnalyzeWithQuery SEARCH_HISTORY_MAX calcDisruption query env id now w
        = (Normal (), w')
    ∧ Arena.requests w' = Arena.requests w ++ [query]
    ∧ Arena.loading (Arena.page w') = false
    ∧ Arena.expandedId (Arena.page w') = None
    ∧ Stores.entries (Arena.history w') = Stores.entries (Arena.history w)
    ∧ match env with
      | Arena.Responds true _ data =>
          Arena.result (Arena.page w') = Some (Arena.arena data)
          ∧ Arena.error (Arena.page w') = None
          ∧ Arena.history w'
            = Stores.addArenaEntry SEARCH_HISTORY_MAX calcDisruption id now query
                (Arena.arena data) (Arena.history w)
      | Arena.Responds false status data =>
          Arena.result (Arena.page w') = None
          ∧ Arena.error (Arena.page w') = Some (Arena.failure_message data status)
          ∧ Arena.history w' = Arena.history w
      | Arena.FetchRejects e | Arena.JsonRejects e =>
          Arena.result (Arena.page w') = None
          ∧ Arena.error (Arena.page w')
            = Some (message_or "Failed to connect to ConsentAI." e)
          ∧ Arena.history w' = Arena.history w
      end.
Proof.
  intros Hq. unfold Arena.handleAnalyzeWithQuery.
  destruct (JS.not_string (JS.trim query)) eqn:E.
  { by apply JS.not_string_trim in E. }
  destruct env as [e|e|[] status data]; simpl; eexists; (split; [reflexivity|]);
    simpl; repeat split; done.
Qed.

(** A preview search of a non-blank question issues one request and ends
    not loading; a result replaces the preview and leaves no error, a
    failure stores its message and keeps the preview shown before. *)
Theorem preview_outcome question (env : UseSearchPreview.SearchPreview SearchPreviewResponse) w :
  ¬ JS.blank question →
  ∃ w', UseSearchPreview.search _ question env w = (Normal (), w')
    ∧ UseSearchPreview.requests _ w' = UseSearchPreview.requests _ w ++ [question]
    ∧ UseSearchPreview.loading _ (UseSearchPreview.hook _ w') = false
    ∧ match env with
      | UseSearchPreview.Resolves _ data =>
          UseSearchPreview.preview _ (UseSearchPreview.hook _ w') = Some data
          ∧ UseSearchPreview.error _ (UseSearchPreview.hook _ w') = None
      | UseSearchPreview.Rejects _ e =>
          UseSearchPreview.preview _ (UseSearchPreview.hook _ w')
          = UseSearchPreview.preview _ (UseSearchPreview.hook _ w)
          ∧ UseSearchPreview.error _ (UseSearchPreview.hook _ w')
            = Some (message_or "Search failed" e)
      end.
Proof.
  intros Hq. unfold UseSearchPreview.search.
  destruct (JS.not_string (JS.trim question)) eqn:E.
  { by apply JS.not_string_trim in E. }
  destruct env; simpl; eexists; (split; [reflexivity|]); simpl; repeat split; done.
Qed.

End Outcomes.

(** A response with status 500 and no detail. *)
Lemma analysis_outcome_witness :
  ∃ w', Arena.handleAnalyzeWithQuery 3 (λ _, 0) [0x61%N]
          (Arena.Responds false 500
             {| Arena.detail := None; Arena.arena := StoreUse.demo_arena |})
          "a1" 10
          {| Arena.page := {| Arena.result := None; Arena.loading := false;
                              Arena.error := None; Arena.expandedId := None |};
             Arena.history := Stores.history_init; Arena.requests := [] |}
        = (Normal (), w')
    ∧ Arena.error (Arena.page w') = Some "Error 500"
    ∧ Arena.history w' = Stores.history_init.
Proof.
  destruct (analysis_outcome 3 (λ _, 0) [0x61%N]
              (Arena.Responds false 500
                 {| Arena.detail := None; Arena.arena := StoreUse.demo_arena |})
              "a1" 10
              {| Arena.page := {| Arena.result := None; Arena.loading := false;
                                  Arena.error := None; Arena.expandedId := None |};
                 Arena.history := Stores.history_init; Arena.requests := [] |})
    as (w' & Hw & _ & _ & _ & _ & _ & He & Hh).
  { intros H. by inversion H. }
  exists w'. split; [exact Hw|]. split; [exact He|exact Hh].
Defined.

Lemma preview_outcome_witness :
  ∃ w', UseSearchPreview.search nat [0x61%N] (UseSearchPreview.Rejects nat NonError)
          {| UseSearchPreview.hook :=
               {| UseSearchPreview.preview := Some 7%nat;
                  UseSearchPreview.loading := false;
                  UseSearchPreview.error := None |};
             UseSearchPreview.requests := [] |}
        = (Normal (), w')
    ∧ UseSearchPreview.preview nat (UseSearchPreview.hook nat w') = Some 7%nat
    ∧ UseSearchPreview.error nat (UseSearchPreview.hook nat w') = Some "Search failed".
Proof.
  destruct (preview_outcome nat [0x61%N] (UseSearchPreview.Rejects nat NonError)
              {| UseSearchPreview.hook :=
                   {| UseSearchPreview.preview := Some 7%nat;
                      UseSearchPreview.loading := false;
                      UseSearchPreview.error := None |};
                 UseSearchPreview.requests := [] |})
    as (w' & Hw & _ & _ & Hp & He).
  { intros H. by inversion H. }
  exists w'. split; [exact Hw|]. split; [exact Hp|exact He].
Defined.

End Outcomes.

(* ===================================================================== *)
(** * The search page and the topic page *)
(* ===================================================================== *)

Module SearchPage.
Import Stores.

(** The state of [SearchContent]: its own three pieces, the state of
    [useConsensus] with the requests issued, and the history store. *)
Record PageState := {
  question : JS.jsstring;
  submitted : bool;
  consensusMode : bool;
  consensus : UseConsensus.World;
  history : SearchHistoryState;
}.

(** What the topic page shows. *)
Inductive TopicView :=
| ResultNotFound
| TopicResults (query : JS.jsstring) (views : list View).

(** A page on which the question [a] has been typed. *)
Definition typed : PageState :=
  {| question := [0x61%N]; submitted := false; consensusMode := true;
     consensus := UseConsensus.idle; history := history_init |}.

Section SearchPage.

Variable JSON_parse : string → UseConsensus.Parsed.
Variable SEARCH_HISTORY_MAX : Z.

Definition page_mode (consensusMode : bool) : Mode :=
  if consensusMode then Consensus else Fast.

Definition with_search (cw : UseConsensus.World) (hist : SearchHistoryState)
    (p : PageState) : PageState :=
  {| question := question p; submitted := submitted p;
     consensusMode := consensusMode p; consensus := cw; history := hist |}.

(** [handleSubmit]: the result of [ask] goes to [addEntry] as it is, null
    included. *)
Definition handleSubmit (env : UseConsensus.AskStream) (id : string) (now : Z)
    (p : PageState) : PageState :=
  if JS.not_string (JS.trim (question p)) then p
  else
    let md := page_mode (consensusMode p) in
    match UseConsensus.ask JSON_parse (question p) md env (consensus p) with
    | (Normal result, cw) =>
        with_search cw
          (addEntry SEARCH_HISTORY_MAX id now (question p) result (Some md) (history p)) p
    | (Throw _, cw) => with_search cw (history p) p
    end.

(** The effect on the [q] search parameter: [if (q && !submitted)], and
    [if (result) addEntry(q, result, mode)] once [ask] has settled. *)
Definition on_search_param (q : option JS.jsstring) (env : UseConsensus.AskStream)
    (id : string) (now : Z) (p : PageState) : PageState :=
  match q with
  | Some (c :: q') =>
      if submitted p then p
      else
        let q := c :: q' in
        let md := page_mode (consensusMode p) in
        let p1 := {| question := q; submitted := true; consensusMode := consensusMode p;
                     consensus := consensus p; history := history p |} in
        match UseConsensus.ask JSON_parse q md env (consensus p) with
        | (Normal (Some result), cw) =>
            with_search cw
              (addEntry SEARCH_HISTORY_MAX id now q (Some result) (Some md) (history p)) p1
        | (_, cw) => with_search cw (history p) p1
        end
  | _ => p
  end.

(** components/search/SearchBar.tsx: [disabled={loading || !value.trim()}]
    of the submit button. *)
Definition submit_disabled (value : JS.jsstring) (loading : bool) : bool :=
  loading || JS.not_string (JS.trim value).

(** ** The topic page ([TopicContent]) *)

(** [resolved]: the bookmark when the page was opened from the bookmarks,
    else the history entry if it has a response, else the bookmark. *)
Definition resolved (source : option string) (id : string)
    (hist : SearchHistoryState) (bms : BookmarkState)
  : option (JS.jsstring * ConsensusResponse) :=
  let historyEntry := getEntry id hist in
  let bookmarkEntry := getBookmark id bms in
  let from_bookmark := (λ b, (b_query b, b_response b)) <$> bookmarkEntry in
  match (if bool_decide (source = Some "bookmarks") then from_bookmark else None) with
  | Some snap => Some snap
  | None =>
      match historyEntry with
      | Some e =>
          match e_response e with
          | Some r => Some (e_query e, r)
          | None => from_bookmark
          end
      | None => from_bookmark
      end
  end.

(** [captured ?? resolved], where [captured] is [resolved] as it was when
    the page was first rendered. *)
Definition snapshot (captured resolved_now : option (JS.jsstring * ConsensusResponse))
  : option (JS.jsstring * ConsensusResponse) :=
  match captured with
  | Some c => Some c
  | None => resolved_now
  end.

Definition TopicContent (snap : option (JS.jsstring * ConsensusResponse)) : TopicView :=
  match snap with
  | None => ResultNotFound
  | Some (query, response) => TopicResults query (Results.ResultsContainer response query)
  end.

Lemma ask_returns q md env w :
  ¬ JS.blank q →
  ∃ r h, UseConsensus.ask JSON_parse q md env w
         = (Normal r, {| UseConsensus.hook := h;
                         UseConsensus.requests := UseConsensus.requests w ++ [(q, md)] |}).
Proof.
  intros Hq. rewrite UseConsensus.ask_guard_passes by done.
  destruct (UseConsensus.ask_try _ _ _) as [[r|e] h]; simpl; eauto.
Qed.

(** Submitting a non-blank question issues one request in the mode of the
    toggle and always records the search, with whatever ask returned: a
    search that failed is recorded too, with no response, no score and no
    facts. The same failure when the search is started from the [q]
    parameter records nothing; and once the parameter has been handled,
    the effect does nothing more. *)
Theorem submitted_search_is_recorded env id now p :
  ¬ JS.blank (question p) → 0 < SEARCH_HISTORY_MAX →
  let md := page_mode (consensusMode p) in
  (∃ result,
     (UseConsensus.ask JSON_parse (question p) md env (consensus p)).1 = Normal result
     ∧ entries (history (handleSubmit env id now p))
       = new_entry id now (question p) result (Some md)
         :: take (Z.to_nat (SEARCH_HISTORY_MAX - 1)) (entries (history p))
     ∧ e_mode (new_entry id now (question p) result (Some md)) = md
     ∧ UseConsensus.requests (consensus (handleSubmit env id now p))
       = UseConsensus.requests (consensus p) ++ [(question p, md)])
  ∧ (∀ e, entries (history (handleSubmit (UseConsensus.Rejects e) id now p))
          = {| e_id := id; e_query := question p; e_timestamp := now;
               e_response := None; e_consensusScore := None; e_factsCount := 0;
               e_mode := md; e_type := "search" |}
            :: take (Z.to_nat (SEARCH_HISTORY_MAX - 1)) (entries (history p)))
  ∧ (∀ e, submitted p = false →
          history (on_search_param (Some (question p)) (UseConsensus.Rejects e) id now p)
          = history p)
  ∧ (∀ q env' id' now', submitted p = false →
          let p' := on_search_param (Some (question p)) env id now p in
          on_search_param q env' id' now' p' = p').
Proof.
  intros Hq Hmax md.
  split.
  { destruct (ask_returns (question p) md env (consensus p) Hq) as (r & h & Hask).
    exists r. unfold handleSubmit.
    destruct (JS.not_string (JS.trim (question p))) eqn:E.
    { by apply JS.not_string_trim in E. }
    fold md. rewrite Hask. simpl.
    split; [done|]. split; [by apply slice0_cons_pos|]. done. }
  split.
  { intros e. unfold handleSubmit.
    destruct (JS.not_string (JS.trim (question p))) eqn:E.
    { by apply JS.not_string_trim in E. }
    fold md. rewrite UseConsensus.ask_guard_passes by done. simpl.
    by apply slice0_cons_pos. }
  assert (Hne : ∃ c q', question p = c :: q').
  { destruct (question p) as [|c q'] eqn:E; [|by eauto].
    exfalso. apply Hq. constructor. }
  destruct Hne as (c & q' & Hcq).
  split.
  { intros e Hs. unfold on_search_param. rewrite Hcq, Hs, <- Hcq.
    rewrite UseConsensus.ask_guard_passes by done. done. }
  intros q env' id' now' Hs p'.
  assert (Hsub : submitted p' = true).
  { subst p'. unfold on_search_param. rewrite Hcq, Hs.
    by destruct (UseConsensus.ask _ _ _ _ _) as [[[r|]|e] cw]. }
  unfold on_search_param. rewrite Hsub. by destruct q as [[|? ?]|].
Qed.

(** A search recorded by handleSubmit can be reopened from the history:
    unless the page is opened from the bookmarks, the topic page of the
    new entry shows the query and the response that ask returned, whatever
    the bookmarks hold. A search that failed has an entry too, but its
    topic page says that the result was not found, unless a bookmark
    happens to carry the same id. *)
Theorem topic_page_reopens_search env id now p source bms :
  ¬ JS.blank (question p) → 0 < SEARCH_HISTORY_MAX →
  source ≠ Some "bookmarks" →
  let md := page_mode (consensusMode p) in
  let hist := history (handleSubmit env id now p) in
  (∀ r, (UseConsensus.ask JSON_parse (question p) md env (consensus p)).1 = Normal (Some r) →
        getEntry id hist = Some (new_entry id now (question p) (Some r) (Some md))
        ∧ resolved source id hist bms = Some (question p, r)
        ∧ TopicContent (resolved source id hist bms)
          = TopicResults (question p) (Results.ResultsContainer r (question p)))
  ∧ ((UseConsensus.ask JSON_parse (question p) md env (consensus p)).1 = Normal None →
        (∃ e, getEntry id hist = Some e ∧ e_response e = None)
        ∧ (getBookmark id bms = None →
           TopicContent (resolved source id hist bms) = ResultNotFound
           ∧ TopicContent (resolved (Some "bookmarks") id hist bms) = ResultNotFound)).
Proof.
  intros Hq Hmax Hsrc md hist.
  assert (Hhist : ∀ result,
    (UseConsensus.ask JSON_parse (question p) md env (consensus p)).1 = Normal result →
    getEntry id hist = Some (new_entry id now (question p) result (Some md))).
  { intros result Hr. subst hist. unfold handleSubmit.
    destruct (JS.not_string (JS.trim (question p))) eqn:E.
    { by apply JS.not_string_trim in E. }
    fold md. destruct (UseConsensus.ask _ _ _ _ _) as [c cw]; simpl in Hr; subst c.
    unfold getEntry; simpl. rewrite slice0_cons_pos by done. simpl.
    by rewrite bool_decide_true. }
  split.
  - intros r Hr. specialize (Hhist _ Hr).
    assert (resolved source id hist bms = Some (question p, r)) as Hres.
    { unfold resolved. rewrite bool_decide_false, Hhist by done. done. }
    rewrite Hres. done.
  - intros Hr. specialize (Hhist _ Hr). split; [by eexists|].
    intros Hb. unfold resolved. rewrite Hhist, Hb. simpl. by case_bool_decide.
Qed.

(** The Search button is disabled exactly while a search is loading or the
    question is blank; handleSubmit ignores a blank question altogether,
    and whenever the button is enabled it issues the request. *)
Theorem search_button_matches_guard env id now p :
  (submit_disabled (question p) (UseConsensus.loading (UseConsensus.hook (consensus p)))
   = true
   ↔ UseConsensus.loading (UseConsensus.hook (consensus p)) = true
     ∨ JS.blank (question p))
  ∧ (JS.blank (question p) → handleSubmit env id now p = p)
  ∧ (submit_disabled (question p) (UseConsensus.loading (UseConsensus.hook (consensus p)))
     = false →
     UseConsensus.requests (consensus (handleSubmit env id now p))
     = UseConsensus.requests (consensus p)
       ++ [(question p, page_mode (consensusMode p))]).
Proof.
  unfold submit_disabled. split.
  { rewrite orb_true_iff, JS.not_string_trim. done. }
  split.
  { intros Hb. unfold handleSubmit. by rewrite (proj2 (JS.not_string_trim _) Hb). }
  intros Hd. apply orb_false_iff in Hd as [_ Hq].
  assert (Hnb : ¬ JS.blank (question p)).
  { intros Hb. apply JS.not_string_trim in Hb. congruence. }
  unfold handleSubmit. rewrite Hq.
  destruct (ask_returns (question p) (page_mode (consensusMode p)) env (consensus p) Hnb)
    as (r & h & ->).
  done.
Qed.

(** What the topic page first resolved stays on the page when the entry or
    the bookmark is removed afterwards. *)
Lemma snapshot_survives c source id hist bms :
  snapshot (Some c) (resolved source id hist bms) = Some c.
Proof. done. Qed.

End SearchPage.

(** A search whose stream is rejected. *)
Lemma submitted_search_is_recorded_witness :
  entries (history (handleSubmit (UseConsensus.parse_stub empty_response) 3
                      (UseConsensus.Rejects NonError) "h1" 10 typed))
  = [ {| e_id := "h1"; e_query := [0x61%N]; e_timestamp := 10;
         e_response := None; e_consensusScore := None; e_factsCount := 0;
         e_mode := Consensus; e_type := "search" |} ].
Proof.
  assert (Hq : ¬ JS.blank (question typed)) by (intros H; by inversion H).
  pose proof (submitted_search_is_recorded (UseConsensus.parse_stub empty_response) 3
                (UseConsensus.Rejects NonError) "h1" 10 typed Hq ltac:(lia))
    as (_ & H & _).
  exact (H NonError).
Defined.

(** A search that completes, reopened from the history page. *)
Lemma topic_page_reopens_search_witness :
  TopicContent
    (resolved None "h1"
       (history (handleSubmit (UseConsensus.parse_stub empty_response) 3
                   (UseConsensus.Resolves
                      [UseConsensus.ReadValue ("data: complete" +:+ UseConsensus.blank_line)])
                   "h1" 10 typed))
       bookmark_init)
  = TopicResults [0x61%N] [NoResults].
Proof.
  assert (Hq : ¬ JS.blank (question typed)) by (intros H; by inversion H).
  pose proof (topic_page_reopens_search (UseConsensus.parse_stub empty_response) 3
                (UseConsensus.Resolves
                   [UseConsensus.ReadValue ("data: complete" +:+ UseConsensus.blank_line)])
                "h1" 10 typed None bookmark_init Hq ltac:(lia) ltac:(discriminate))
    as (H & _).
  exact (proj2 (proj2 (H empty_response eq_refl))).
Defined.

End SearchPage.

(* ===================================================================== *)
(** * The sources page: pending changes, saving and resetting *)
(* ===================================================================== *)

Module SourcesPage.
Import Sources.

Local Open Scope nat_scope.

(** The state of [SourcesPage], with the selections sent to
    [saveSelectedSources] and whether the page has moved on to the feed. *)
Record PageState := {
  catalog : list CatalogCountry;
  selected : gset string;
  savedSelection : gset string;
  loading : bool;
  saving : bool;
  scraping : bool;
  error : option string;
  success : option string;
  polling : bool;
  save_requests : list (gset string);
  at_feed : bool;
}.

(** What [Promise.all([fetchSourcesCatalog(), fetchSelectedSources()])],
    [saveSelectedSources] and one poll of [/ingestion/status] settle to. *)
Inductive LoadResult :=
| LoadRejects (e : Thrown)
| LoadResolves (catalogData : list CatalogCountry) (selectedData : list string).

Inductive SaveResult :=
| SaveRejects (e : Thrown)
| SaveResolves (message : string).

Inductive PollResult :=
| PollFails
| PollNotOk
| PollStatus (running : bool).

(** The page as it is first rendered. *)
Definition page_init : PageState :=
  {| catalog := []; selected := ∅; savedSelection := ∅; loading := true;
     saving := false; scraping := false; error := None; success := None;
     polling := false; save_requests := []; at_feed := false |}.

Definition loadData (env : LoadResult) (p : PageState) : PageState :=
  match env with
  | LoadResolves catalogData selectedData =>
      {| catalog := catalogData;
         selected := list_to_set selectedData;
         savedSelection := list_to_set selectedData;
         loading := false; saving := saving p; scraping := scraping p;
         error := None; success := success p; polling := polling p;
         save_requests := save_requests p; at_feed := at_feed p |}
  | LoadRejects err =>
      {| catalog := catalog p; selected := selected p;
         savedSelection := savedSelection p;
         loading := false; saving := saving p; scraping := scraping p;
         error := Some (message_or "Failed to load sources" err);
         success := success p; polling := polling p;
         save_requests := save_requests p; at_feed := at_feed p |}
  end.

(** [hasChanges]: the sizes differ, or some selected name is not saved. *)
Definition hasChanges (selected savedSelection : gset string) : bool :=
  if bool_decide (size selected ≠ size savedSelection) then true
  else existsb (λ s, negb (bool_decide (s ∈ savedSelection))) (elements selected).

(** [isDisabled] of a source button. *)
Definition isDisabled (name : string) (selected : gset string) : bool :=
  let isSelected := bool_decide (name ∈ selected) in
  negb isSelected && bool_decide (MAX_SOURCES ≤ size selected).

(** [allIn] and the label of the button of a country. *)
Definition allIn (country : CatalogCountry) (selected : gset string) : bool :=
  forallb (λ n, bool_decide (n ∈ selected)) (src_name <$> sources country).

Definition country_button (country : CatalogCountry) (selected : gset string) : string :=
  if allIn country selected then "Remove all" else "Select all".

Definition handleSave (env : SaveResult) (p : PageState) : PageState :=
  if bool_decide (size (selected p) = 0) then
    {| catalog := catalog p; selected := selected p; savedSelection := savedSelection p;
       loading := loading p; saving := saving p; scraping := scraping p;
       error := Some "Please select at least one source."%string;
       success := success p; polling := polling p;
       save_requests := save_requests p; at_feed := at_feed p |}
  else
    match env with
    | SaveResolves message =>
        {| catalog := catalog p; selected := selected p;
           savedSelection := selected p;
           loading := loading p; saving := false; scraping := true;
           error := None;
           success := Some (message +:+ " Redirecting to feed when ready…");
           polling := true;
           save_requests := save_requests p ++ [selected p]; at_feed := at_feed p |}
    | SaveRejects err =>
        {| catalog := catalog p; selected := selected p;
           savedSelection := savedSelection p;
           loading := loading p; saving := false; scraping := scraping p;
           error := Some (message_or "Failed to save sources" err);
           success := None; polling := polling p;
           save_requests := save_requests p ++ [selected p]; at_feed := at_feed p |}
    end.

(** One run of the interval callback that [handleSave] installs. *)
Definition poll_tick (env : PollResult) (p : PageState) : PageState :=
  if negb (polling p) then p
  else
    match env with
    | PollStatus false =>
        {| catalog := catalog p; selected := selected p;
           savedSelection := savedSelection p;
           loading := loading p; saving := saving p; scraping := false;
           error := error p; success := success p; polling := false;
           save_requests := save_requests p; at_feed := true |}
    | _ => p
    end.

Definition handleReset (p : PageState) : PageState :=
  {| catalog := catalog p; selected := savedSelection p;
     savedSelection := savedSelection p;
     loading := loading p; saving := saving p; scraping := scraping p;
     error := None; success := None; polling := polling p;
     save_requests := save_requests p; at_feed := at_feed p |}.

(** [!loading && (hasChanges || scraping)] and the [disabled] of Save. *)
Definition save_bar_shown (p : PageState) : bool :=
  negb (loading p) && (hasChanges (selected p) (savedSelection p) || scraping p).

Definition save_disabled (p : PageState) : bool :=
  saving p || scraping p || bool_decide (size (selected p) = 0).

(** Successive runs of the interval callback. *)
Definition polls (envs : list PollResult) (p : PageState) : PageState :=
  foldl (λ p env, poll_tick env p) p envs.

Definition still_running (env : PollResult) : Prop := env ≠ PollStatus false.

(** A page with one source selected and none saved. *)
Definition one_selected : PageState :=
  {| catalog := []; selected := {["BBC"%string]}; savedSelection := ∅; loading := false;
     saving := false; scraping := false; error := None; success := None;
     polling := false; save_requests := []; at_feed := false |}.

(** The unsaved-changes flag is raised exactly when the selection differs
    from the saved one. *)
Lemma hasChanges_spec (sel saved : gset string) :
  hasChanges sel saved = false ↔ sel = saved.
Proof.
  unfold hasChanges. split.
  - case_bool_decide as Hsz; [done|]. intros Hex.
    assert (Hsub : sel ⊆ saved).
    { intros x Hx. destruct (decide (x ∈ saved)) as [|Hn]; [done|].
      assert (existsb (λ s, negb (bool_decide (s ∈ saved))) (elements sel) = true)
        as Ht; [|congruence].
      apply existsb_exists. exists x. split.
      - apply list_elem_of_In. by apply elem_of_elements.
      - by rewrite bool_decide_false. }
    apply set_eq. apply set_subseteq_size_equiv; [done|lia].
  - intros ->. rewrite bool_decide_false by (intros H; by apply H).
    destruct (existsb _ _) eqn:E; [|done].
    apply existsb_exists in E as (x & Hx & Hn).
    apply list_elem_of_In, elem_of_elements in Hx.
    by rewrite bool_decide_true in Hn.
Qed.

Lemma add_until_cap_room names (s : gset string) :
  size (s ∪ list_to_set names) ≤ MAX_SOURCES →
  add_until_cap names s = s ∪ list_to_set names.
Proof.
  revert s. induction names as [|n names IH]; intros s Hsz; simpl.
  { set_solver. }
  case_bool_decide as Hcap.
  - apply set_eq. apply set_subseteq_size_equiv; [set_solver|].
    simpl in Hsz. lia.
  - rewrite IH.
    + set_solver.
    + replace ({[n]} ∪ s ∪ list_to_set names) with (s ∪ list_to_set (n :: names))
        by set_solver.
      done.
Qed.

(** The page shows unsaved changes exactly when the selection differs from
    the saved one. Loading the sources, resetting, and a save that
    succeeds all leave no unsaved changes; a save with nothing selected
    sends no request and only stores a message; a save that fails keeps
    the saved selection, so the changes stay pending. *)
Theorem unsaved_changes (p : PageState) :
  (hasChanges (selected p) (savedSelection p) = true ↔ selected p ≠ savedSelection p)
  ∧ (∀ cat sel, let p' := loadData (LoadResolves cat sel) p in
       hasChanges (selected p') (savedSelection p') = false
       ∧ selected p' = list_to_set sel)
  ∧ (let p' := handleReset p in
       hasChanges (selected p') (savedSelection p') = false
       ∧ selected p' = savedSelection p ∧ error p' = None ∧ success p' = None)
  ∧ (selected p = ∅ → ∀ env,
       save_requests (handleSave env p) = save_requests p
       ∧ savedSelection (handleSave env p) = savedSelection p
       ∧ error (handleSave env p) = Some "Please select at least one source."%string
       ∧ save_disabled p = true)
  ∧ (selected p ≠ ∅ → ∀ message, let p' := handleSave (SaveResolves message) p in
       hasChanges (selected p') (savedSelection p') = false
       ∧ save_requests p' = save_requests p ++ [selected p]
       ∧ scraping p' = true ∧ saving p' = false ∧ error p' = None)
  ∧ (selected p ≠ ∅ → ∀ e, let p' := handleSave (SaveRejects e) p in
       hasChanges (selected p') (savedSelection p')
       = hasChanges (selected p) (savedSelection p)
       ∧ savedSelection p' = savedSelection p
       ∧ saving p' = false
       ∧ error p' = Some (message_or "Failed to save sources" e)).
Proof.
  assert (Hsame : ∀ s : gset string, hasChanges s s = false).
  { intros s. by apply hasChanges_spec. }
  assert (Hsz : ∀ s : gset string, s ≠ ∅ → bool_decide (size s = 0) = false).
  { intros s Hs. apply bool_decide_eq_false. intros H. by apply size_empty_inv in H;
      apply leibniz_equiv in H. }
  split.
  { rewrite <- hasChanges_spec. by destruct (hasChanges _ _). }
  split; [by intros cat sel; simpl|].
  split; [by simpl|].
  split.
  { intros He env. unfold handleSave, save_disabled. rewrite He, size_empty. simpl.
    repeat split; try done. by rewrite !orb_true_r. }
  split.
  { intros Hne message. unfold handleSave. rewrite Hsz by done. by simpl. }
  intros Hne e. unfold handleSave. rewrite Hsz by done. by simpl.
Qed.

(** A source button is disabled exactly when clicking it would leave the
    selection as it is. *)
Theorem disabled_iff_toggle_changes_nothing (name : string) (s : gset string) :
  isDisabled name s = true ↔ toggle name s = s.
Proof.
  unfold isDisabled, toggle. split.
  - intros H. apply andb_true_iff in H as [Hn Hc].
    apply negb_true_iff, bool_decide_eq_false in Hn.
    rewrite decide_False by done. by rewrite Hc.
  - case_decide as Hin.
    + intros H. exfalso. set_solver.
    + case_bool_decide as Hcap; [by rewrite bool_decide_false|].
      intros H. exfalso. set_solver.
Qed.

(** When the names of a country that are not yet selected still fit under
    the cap, Select all selects them all, the button then reads Remove
    all, and a second click removes every name of the country, those
    selected before the first click included. *)
Theorem select_all_then_remove_all (c : CatalogCountry) (s : gset string) :
  allIn c s = false →
  size (s ∪ list_to_set (src_name <$> sources c)) ≤ MAX_SOURCES →
  selectAllInCountry c s = s ∪ list_to_set (src_name <$> sources c)
  ∧ country_button c (selectAllInCountry c s) = "Remove all"%string
  ∧ selectAllInCountry c (selectAllInCountry c s)
    = s ∖ list_to_set (src_name <$> sources c).
Proof.
  intros Hall Hroom.
  assert (H1 : selectAllInCountry c s = s ∪ list_to_set (src_name <$> sources c)).
  { unfold selectAllInCountry. unfold allIn in Hall. rewrite Hall.
    by apply add_until_cap_room. }
  assert (H2 : allIn c (s ∪ list_to_set (src_name <$> sources c)) = true).
  { unfold allIn. apply forallb_forall. intros n Hn.
    apply bool_decide_eq_true. apply list_elem_of_In in Hn. set_solver. }
  rewrite H1. split; [done|]. split.
  { unfold country_button. by rewrite H2. }
  unfold selectAllInCountry. unfold allIn in H2. rewrite H2.
  rewrite delete_all_spec. set_solver.
Qed.

Lemma polls_still_running envs p :
  Forall still_running envs → polls envs p = p.
Proof.
  intros Hall. revert p. induction Hall as [|env envs Hr _ IH]; intros p; [done|].
  simpl. rewrite IH. unfold poll_tick. destruct (polling p); [|done].
  by destruct env as [| |[]].
Qed.

Lemma polls_stopped envs p : polling p = false → polls envs p = p.
Proof.
  intros Hp. induction envs as [|env envs IH]; [done|].
  simpl. replace (poll_tick env p) with p; [apply IH|].
  unfold poll_tick. by rewrite Hp.
Qed.

(** After a save that succeeded the page keeps showing that it is
    scraping, whatever the polls of the ingestion status return, until the
    first poll that reports the ingestion as not running; at that poll it
    stops scraping and moves on to the feed, and later polls change
    nothing. The save bar is shown while the page scrapes and is gone
    afterwards. *)
Theorem feed_after_ingestion (p : PageState) message waiting later :
  selected p ≠ ∅ → Forall still_running waiting →
  let p' := handleSave (SaveResolves message) p in
  polls waiting p' = p'
  ∧ scraping p' = true
  ∧ at_feed p' = at_feed p
  ∧ scraping (polls (waiting ++ [PollStatus false]) p') = false
  ∧ at_feed (polls (waiting ++ [PollStatus false]) p') = true
  ∧ polls (waiting ++ PollStatus false :: later) p'
    = polls (waiting ++ [PollStatus false]) p'
  ∧ save_bar_shown p' = negb (loading p)
  ∧ save_bar_shown (polls (waiting ++ [PollStatus false]) p') = false.
Proof.
  intros Hne Hw p'.
  assert (Hp : polling p' = true ∧ scraping p' = true ∧ at_feed p' = at_feed p
               ∧ loading p' = loading p ∧ savedSelection p' = selected p').
  { subst p'. unfold handleSave. rewrite bool_decide_false; [done|].
    intros H. by apply size_empty_inv, leibniz_equiv in H. }
  destruct Hp as (Hpoll & Hscr & Hfeed & Hload & Hsaved).
  split; [by apply polls_still_running|]. split; [done|]. split; [done|].
  assert (Hstep : ∀ rest, polls (waiting ++ PollStatus false :: rest) p'
                          = polls rest (poll_tick (PollStatus false) p')).
  { intros rest. unfold polls. rewrite foldl_app.
    fold (polls waiting p'). by rewrite polls_still_running. }
  assert (Hstop : polling (poll_tick (PollStatus false) p') = false).
  { unfold poll_tick. by rewrite Hpoll. }
  rewrite !Hstep, !polls_stopped by done.
  assert (Hbar : save_bar_shown p' = negb (loading p)).
  { unfold save_bar_shown. by rewrite Hscr, Hload, orb_true_r, andb_true_r. }
  split; [by unfold poll_tick; rewrite Hpoll|].
  split; [by unfold poll_tick; rewrite Hpoll|].
  split; [done|]. split; [exact Hbar|].
  unfold save_bar_shown, poll_tick. rewrite Hpoll. simpl.
  rewrite Hsaved, (proj2 (hasChanges_spec _ _) eq_refl). apply andb_false_r.
Qed.

Lemma unsaved_changes_witness :
  hasChanges (selected one_selected) (savedSelection one_selected) = true
  ∧ hasChanges (selected (handleSave (SaveResolves "ok") one_selected))
      (savedSelection (handleSave (SaveResolves "ok") one_selected)) = false.
Proof.
  pose proof (unsaved_changes one_selected) as (Hc & _ & _ & _ & Hs & _).
  split.
  - apply Hc. vm_compute. intros H. discriminate H.
  - apply Hs. vm_compute. intros H. discriminate H.
Defined.

Lemma feed_after_ingestion_witness :
  at_feed (polls ([PollNotOk; PollStatus true; PollFails] ++ [PollStatus false])
             (handleSave (SaveResolves "ok") one_selected))
  = true.
Proof.
  apply (feed_after_ingestion one_selected "ok" [PollNotOk; PollStatus true; PollFails] []).
  - vm_compute. intros H. discriminate H.
  - repeat constructor; discriminate.
Defined.

Lemma select_all_then_remove_all_witness :
  selectAllInCountry
    {| code := "uk"; country_name := "United Kingdom"; flag := "";
       sources := [ {| src_name := "BBC" |}; {| src_name := "Guardian" |} ] |}
    {["BBC"%string]}
  = {["BBC"%string]} ∪ list_to_set ["BBC"; "Guardian"]%string.
Proof.
  apply (select_all_then_remove_all
           {| code := "uk"; country_name := "United Kingdom"; flag := "";
              sources := [ {| src_name := "BBC" |}; {| src_name := "Guardian" |} ] |}
           {["BBC"%string]}).
  - reflexivity.
  - vm_compute. lia.
Defined.

End SourcesPage.

(* ===================================================================== *)
(** * The sources page: the filter over the catalog *)
(* ===================================================================== *)

Module SourcesFilter.
Import Sources.

(** [s.startsWith(q)] and [s.includes(q)] on code units. *)
Fixpoint starts_with (s q : JS.jsstring) : bool :=
  match q, s with
  | [], _ => true
  | c :: q', d :: s' => bool_decide (c = d) && starts_with s' q'
  | _ :: _, [] => false
  end.

Fixpoint includes (s q : JS.jsstring) : bool :=
  starts_with s q
  || match s with
     | _ :: s' => includes s' q
     | [] => false
     end.

(** Two countries for the examples. *)
Definition demo_catalog : list CatalogCountry :=
  [ {| code := "uk"; country_name := "United Kingdom"; flag := "";
       sources := [ {| src_name := "bbc" |}; {| src_name := "the guardian" |} ] |};
    {| code := "us"; country_name := "United States"; flag := "";
       sources := [ {| src_name := "cnn" |} ] |} ].

(** The code units of a string of ASCII characters. *)
Fixpoint ascii_units (s : string) : JS.jsstring :=
  match s with
  | EmptyString => []
  | String c s' => Ascii.N_of_ascii c :: ascii_units s'
  end.

Section SourcesFilter.

(** [String.prototype.toLowerCase], and the code units of a name. *)
Variable toLowerCase : JS.jsstring → JS.jsstring.
Variable units : string → JS.jsstring.

(** [s.name.toLowerCase().includes(q)] *)
Definition name_matches (q : JS.jsstring) (s : CatalogSource) : bool :=
  includes (toLowerCase (units (src_name s))) q.

(** [data.filter((c) => c.code === activeCountry)] when [activeCountry] is
    truthy. *)
Definition in_active_country (catalog : list CatalogCountry) (activeCountry : option string)
  : list CatalogCountry :=
  match activeCountry with
  | Some a => if bool_decide (a = "") then catalog
              else filter (λ c, code c = a) catalog
  | None => catalog
  end.

Definition filteredCatalog (catalog : list CatalogCountry) (filter_text : JS.jsstring)
    (activeCountry : option string) : list CatalogCountry :=
  let data := in_active_country catalog activeCountry in
  if JS.not_string (JS.trim filter_text) then data
  else
    let q := toLowerCase filter_text in
    filter (λ c, (0 < length (sources c))%nat)
      ((λ country,
          {| code := code country; country_name := country_name country;
             flag := flag country;
             sources := filter (λ s, name_matches q s = true) (sources country) |})
         <$> data).

(** With a blank filter the page lists the catalog, or the active country
    alone. With any other filter it lists, country by country and in
    catalog order, exactly the sources whose lower-cased name contains the
    lower-cased filter text, the text taken as typed, surrounding spaces
    included, and leaves out the countries that have none. *)
Theorem filter_keeps_matching_sources (catalog : list CatalogCountry)
    (filter_text : JS.jsstring) (activeCountry : option string) :
  (JS.blank filter_text →
     filteredCatalog catalog filter_text activeCountry
     = in_active_country catalog activeCountry)
  ∧ (∀ a, activeCountry = Some a → a ≠ "" →
       ∀ c, c ∈ filteredCatalog catalog filter_text activeCountry → code c = a)
  ∧ (¬ JS.blank filter_text →
     (∀ c, c ∈ filteredCatalog catalog filter_text activeCountry →
        sources c ≠ []
        ∧ (∀ s, s ∈ sources c → name_matches (toLowerCase filter_text) s = true)
        ∧ ∃ c0, c0 ∈ catalog ∧ code c = code c0 ∧ country_name c = country_name c0
                ∧ flag c = flag c0 ∧ sources c `sublist_of` sources c0)
     ∧ (∀ c0 s, c0 ∈ in_active_country catalog activeCountry → s ∈ sources c0 →
        name_matches (toLowerCase filter_text) s = true →
        ∃ c, c ∈ filteredCatalog catalog filter_text activeCountry
             ∧ code c = code c0
             ∧ sources c = filter (λ s, name_matches (toLowerCase filter_text) s = true)
                             (sources c0))).
Proof.
  assert (Hdata : ∀ c, c ∈ in_active_country catalog activeCountry → c ∈ catalog).
  { intros c. unfold in_active_country. destruct activeCountry as [a|]; [|done].
    case_bool_decide; [done|]. by intros [_ ?]%list_elem_of_filter. }
  assert (Hcode : ∀ a c, activeCountry = Some a → a ≠ "" →
            c ∈ in_active_country catalog activeCountry → code c = a).
  { intros a c -> Ha. unfold in_active_country. rewrite bool_decide_false by done.
    by intros [? _]%list_elem_of_filter. }
  unfold filteredCatalog. split.
  { intros Hb. by rewrite (proj2 (JS.not_string_trim _) Hb). }
  split.
  { intros a Ha Hne c. destruct (JS.not_string (JS.trim filter_text)).
    - by apply Hcode.
    - intros [_ Hc]%list_elem_of_filter.
      apply list_elem_of_fmap in Hc as (c0 & -> & Hc0). simpl. by apply (Hcode a). }
  intros Hnb. destruct (JS.not_string (JS.trim filter_text)) eqn:E.
  { by apply JS.not_string_trim in E. }
  split.
  - intros c [Hlen Hc]%list_elem_of_filter.
    apply list_elem_of_fmap in Hc as (c0 & -> & Hc0). simpl in *.
    split; [intros Hnil; rewrite Hnil in Hlen; simpl in Hlen; lia|].
    split; [by intros s [? _]%list_elem_of_filter|].
    exists c0. repeat split; try done; [by apply Hdata|apply sublist_filter].
  - intros c0 s Hc0 Hs Hm.
    exists {| code := code c0; country_name := country_name c0; flag := flag c0;
              sources := filter (λ s, name_matches (toLowerCase filter_text) s = true)
                           (sources c0) |}.
    split; [|split; reflexivity].
    apply list_elem_of_filter. split.
    + simpl. assert (Hin : s ∈ filter (λ s, name_matches (toLowerCase filter_text) s = true)
                                  (sources c0)) by by apply list_elem_of_filter.
      destruct (filter _ _); [by apply elem_of_nil in Hin|simpl; lia].
    + apply list_elem_of_fmap. by exists c0.
Qed.

End SourcesFilter.

(** A trailing space in the filter is part of what is searched for. *)
Example filter_is_not_trimmed :
  (code <$> filteredCatalog id ascii_units demo_catalog (ascii_units "bbc") None
   = ["uk"]%string)
  ∧ filteredCatalog id ascii_units demo_catalog (ascii_units "bbc ") None = []
  ∧ (code <$> filteredCatalog id ascii_units demo_catalog (ascii_units "the ") None
     = ["uk"]%string)
  ∧ filteredCatalog id ascii_units demo_catalog (ascii_units "  ") (Some "us"%string)
    = [ {| code := "us"; country_name := "United States"; flag := "";
           sources := [ {| src_name := "cnn" |} ] |} ].
Proof. vm_compute. done. Qed.

End SourcesFilter.

(* ===================================================================== *)
(** * Articles: hooks/useArticles.ts, the feed grid and the feed page *)
(* ===================================================================== *)

Module Feed.

(** ** components/feed/ArticleCard.tsx: readTime *)

(** The minutes of [readTime]; numbers are read as exact rationals. *)
Definition readTime_minutes (contentLength : Z) : Z :=
  let words := (inject_Z contentLength / 5)%Q in
  Z.max 1 (Results.Math_round (words / 200)).

Definition readTime (contentLength : Z) : string :=
  pretty (readTime_minutes contentLength) +:+ " min read".

(** ** components/feed/FeedGrid.tsx *)

(** [None] is the text No articles found; the second row is absent when
    [rest.length > 2] fails. *)
Record Grid (Article : Type) := {
  hero : Article;
  beside_hero : list Article;
  below : option (list Article);
}.
Arguments hero {Article}.
Arguments beside_hero {Article}.
Arguments below {Article}.

(** ** The feed page (app/feed/page.tsx) *)

(** The fields of an [AIArticle] that the layout reads; [source_count] may
    be missing. *)
Record AIArticle := {
  a_headline : JS.jsstring;
  a_body : JS.jsstring;
  a_source_count : option Z;
}.

(** The cards of the page, in document order. *)
Record Tiers := {
  t_hero : option AIArticle;
  t_second : option AIArticle;
  t_small : list AIArticle;
  t_hasMore : bool;
  t_remaining : Z;
}.

Definition ARTICLES_PER_PAGE : Z := 12.

(** [a && a.headline && a.body]; a [null] element is [None]. *)
Definition valid (a : option AIArticle) : option AIArticle :=
  match a with
  | Some a => if bool_decide (a_headline a = []) || bool_decide (a_body a = [])
              then None else Some a
  | None => None
  end.

(** [(a.source_count || 0) * 2 + (a.body?.length || 0) / 100], in the
    arithmetic of numbers. *)
Definition score (a : AIArticle) : Q :=
  Double.add
    (Double.mul (Double.of_decimal (inject_Z (default 0 (a_source_count a)))) 2)
    (Double.div (Double.of_decimal (inject_Z (Z.of_nat (length (a_body a))))) 100).

(** [[...validArticles].sort((a, b) => scoreB - scoreA)]: the difference
    of two numbers has the sign of their exact difference and the sort is
    stable, so an article goes before the first one that does not score
    higher. *)
Fixpoint insert_by_score (a : AIArticle) (l : list AIArticle) : list AIArticle :=
  match l with
  | [] => [a]
  | b :: l' =>
      if Qle_bool (score b) (score a) then a :: b :: l'
      else b :: insert_by_score a l'
  end.

Definition sort_by_score (l : list AIArticle) : list AIArticle :=
  foldr insert_by_score [] l.

Definition sorted_articles (articles : list (option AIArticle)) : list AIArticle :=
  sort_by_score (omap valid articles).

(** The tiers of the page when Show More has been clicked [clicks] times:
    [visibleCount] starts at [ARTICLES_PER_PAGE] and each click adds as
    much. *)
Definition visibleCount (clicks : nat) : Z :=
  ARTICLES_PER_PAGE + Z.of_nat clicks * ARTICLES_PER_PAGE.

Definition tiers (articles : list (option AIArticle)) (clicks : nat) : Tiers :=
  let sorted := sorted_articles articles in
  let secondRight := take 2 (drop 2 sorted) in
  let allRemaining := drop 4 sorted in
  let visibleArticles := JS.slice0 allRemaining (visibleCount clicks - 4) in
  {| t_hero := sorted !! 0%nat;
     t_second := sorted !! 1%nat;
     t_small := secondRight ++ visibleArticles;
     t_hasMore := bool_decide (length visibleArticles < length allRemaining)%nat;
     t_remaining := Z.of_nat (length allRemaining) - Z.of_nat (length visibleArticles) |}.

(** The articles that have a slot on the page, in document order. *)
Definition slots (t : Tiers) : list AIArticle :=
  option_list (t_hero t) ++ option_list (t_second t) ++ t_small t.

(** The sizes of an [ArticleCard] of the feed page and the number of source
    chips each shows. *)
Inductive CardSize := Large | Mid | Small.

Definition srcLimit (size : CardSize) : Z :=
  match size with Large => 5 | _ => 3 end.

(** The source chips of a card and the number behind the plus sign, when
    it is shown; [None] as [sources_referenced] is a missing list. *)
Definition source_chips (sources_referenced : option (list string)) (size : CardSize)
  : list string * option Z :=
  let srcs := default [] sources_referenced in
  (JS.slice0 srcs (srcLimit size),
   if bool_decide (srcLimit size < Z.of_nat (length srcs))
   then Some (Z.of_nat (length srcs) - srcLimit size) else None).

(** [ArticleCard] returns null when the trimmed headline is empty. *)
Definition card_rendered (a : AIArticle) : bool :=
  negb (JS.not_string (JS.trim (a_headline a))).

(** No later article scores higher. *)
Definition descending (l : list AIArticle) : Prop :=
  Sorted (λ a b, (score b <= score a)%Q) l.

Section Articles.

Variable Article : Type.

Definition FeedGrid (articles : list Article) : option (Grid Article) :=
  match articles with
  | [] => None
  | hero :: rest =>
      Some {| hero := hero;
              beside_hero := JS.slice0 rest 2;
              below := if bool_decide (2 < length rest)%nat then Some (drop 2 rest)
                       else None |}
  end.

(** The articles of the cards of a grid, in document order. *)
Definition grid_cards (g : option (Grid Article)) : list Article :=
  match g with
  | None => []
  | Some g => hero g :: beside_hero g ++ default [] (below g)
  end.

(** ** hooks/useArticles.ts *)

Definition PAGE_SIZE : Z := 100.

Record HookState := {
  articles : list Article;
  total : Z;
  offset : Z;
  loading : bool;
  error : option string;
}.

(** The hook state with the [limit] and [offset] of the requests made. *)
Record World := {
  hook : HookState;
  requests : list (Z * Z);
}.

(** What [fetchArticles] settles to. *)
Inductive FetchArticles :=
| Rejects (e : Thrown)
| Resolves (data_articles : list Article) (data_total : Z).

Definition hook_init : HookState :=
  {| articles := []; total := 0; offset := 0; loading := true; error := None |}.

Definition load (reset : bool) (env : FetchArticles) (w : World) : World :=
  let h := hook w in
  let currentOffset := if reset then 0 else offset h in
  {| hook :=
       match env with
       | Resolves data_articles data_total =>
           {| articles := if reset then data_articles else articles h ++ data_articles;
              total := data_total;
              offset := currentOffset + Z.of_nat (length data_articles);
              loading := false; error := None |}
       | Rejects e =>
           {| articles := articles h; total := total h; offset := offset h;
              loading := false;
              error := Some (message_or "Failed to load articles" e) |}
       end;
     requests := requests w ++ [(PAGE_SIZE, currentOffset)] |}.

(** The effect that runs when [source] changes. *)
Definition on_source (env : FetchArticles) (w : World) : World :=
  let h := hook w in
  {| hook :=
       match env with
       | Resolves data_articles data_total =>
           {| articles := data_articles; total := data_total;
              offset := Z.of_nat (length data_articles);
              loading := false; error := None |}
       | Rejects e =>
           {| articles := []; total := total h; offset := 0; loading := false;
              error := Some (message_or "Failed to load articles" e) |}
       end;
     requests := requests w ++ [(PAGE_SIZE, 0)] |}.

Definition loadMore (env : FetchArticles) (w : World) : World := load false env w.


Inductive Op :=
| SourceChanged (env : FetchArticles)
| LoadMore (env : FetchArticles)
| Reload (env : FetchArticles).

Definition step (w : World) (op : Op) : World :=
  match op with
  | SourceChanged env => on_source env w
  | LoadMore env => loadMore env w
  | Reload env => load true env w
  end.

Definition run (ops : list Op) (w : World) : World := foldl step w ops.




(** The grid shows every article once, in the order given: the first as
    the hero, at most two beside it, and the others below, a row that is
    there only from the fourth article on. *)
Theorem feed_grid_shows_all (arts : list Article) :
  grid_cards (FeedGrid arts) = arts
  ∧ (FeedGrid arts = None ↔ arts = [])
  ∧ (∀ g, FeedGrid arts = Some g →
       (length (beside_hero g) ≤ 2)%nat
       ∧ (below g = None ↔ (length arts ≤ 3)%nat)
       ∧ below g ≠ Some []).
Proof.
  destruct arts as [|a rest]; simpl.
  { split; [done|]. split; [done|]. by intros g. }
  rewrite JS.slice0_nonneg by lia. change (Z.to_nat 2) with 2%nat.
  split.
  { f_equal. case_bool_decide as Hl; simpl.
    - apply take_drop.
    - rewrite app_nil_r. apply take_ge. simpl. lia. }
  split; [done|].
  intros g [= <-]. simpl. split; [rewrite length_take; lia|].
  case_bool_decide as Hl.
  - split; [split; [done|lia]|].
    intros [= H]. apply (f_equal length) in H. rewrite length_drop in H.
    simpl in H. lia.
  - split; [split; [lia|done]|done].
Qed.


End Articles.

(** The reading time is at least one minute, never decreases with the
    length, and is the length divided by a thousand, rounded to the nearest
    minute with halves up. *)
Theorem read_time_minutes (n : Z) :
  1 ≤ readTime_minutes n
  ∧ readTime_minutes n = Z.max 1 ((n + 500) `div` 1000)
  ∧ (∀ m, n ≤ m → readTime_minutes n ≤ readTime_minutes m)
  ∧ readTime n = pretty (Z.max 1 ((n + 500) `div` 1000)) +:+ " min read".
Proof.
  assert (H : ∀ k, readTime_minutes k = Z.max 1 ((k + 500) `div` 1000)).
  { intros k. unfold readTime_minutes, Results.Math_round. f_equal.
    rewrite Zdiv_Qdiv. apply Qfloor_comp.
    rewrite inject_Z_plus. field. }
  split; [unfold readTime_minutes; lia|]. split; [apply H|].
  split; [|unfold readTime; by rewrite H].
  intros m Hm. rewrite !H.
  pose proof (Z.div_le_mono (n + 500) (m + 500) 1000). lia.
Qed.

Lemma insert_by_score_perm a l : insert_by_score a l ≡ₚ a :: l.
Proof.
  induction l as [|b l IH]; simpl; [done|].
  destruct (Qle_bool _ _); [done|]. rewrite IH. apply Permutation_swap.
Qed.

Lemma sort_by_score_perm l : sort_by_score l ≡ₚ l.
Proof.
  induction l as [|a l IH]; simpl; [done|].
  by rewrite insert_by_score_perm, IH.
Qed.

Lemma insert_by_score_descending a l :
  descending l → descending (insert_by_score a l).
Proof.
  unfold descending. induction 1 as [|b l Hl IH Hb]; simpl.
  { repeat constructor. }
  destruct (Qle_bool (score b) (score a)) eqn:E.
  - apply Qle_bool_iff in E. repeat constructor; done.
  - assert (Hab : (score a <= score b)%Q).
    { apply Qlt_le_weak, Qnot_le_lt. intros H. apply Qle_bool_iff in H. congruence. }
    constructor; [done|].
    destruct l as [|c l]; simpl in *; [by repeat constructor|].
    destruct (Qle_bool (score c) (score a)); constructor; try done.
    by inversion Hb.
Qed.

Lemma sort_by_score_descending l : descending (sort_by_score l).
Proof.
  induction l as [|a l IH]; simpl; [constructor|].
  by apply insert_by_score_descending.
Qed.

(** The feed page gives a slot to the articles with the best scores: after
    any number of clicks on Show More the slots hold the first twelve
    articles per page shown, in descending order of score, of the articles
    that have a headline and a body, none of them twice; Show More is
    offered exactly while some article has no slot, and counts those. An
    article whose headline is white space only has its slot but renders no
    card. The scores are the numbers the page computes: one source and 203
    characters score below two sources and 3 characters, the quotient
    203 / 100 being rounded. *)
Theorem feed_page_tiers (arts : list (option AIArticle)) (clicks : nat) :
  let t := tiers arts clicks in
  sorted_articles arts ≡ₚ omap valid arts
  ∧ descending (sorted_articles arts)
  ∧ slots t = take (Z.to_nat (visibleCount clicks)) (sorted_articles arts)
  ∧ (t_hasMore t = true ↔ visibleCount clicks < Z.of_nat (length (sorted_articles arts)))
  ∧ (t_hasMore t = true →
     t_remaining t = Z.of_nat (length (sorted_articles arts)) - visibleCount clicks)
  ∧ (∀ a, JS.blank (a_headline a) → card_rendered a = false)
  ∧ (∀ a b, a_source_count a = Some 1 → length (a_body a) = 203%nat →
            a_source_count b = Some 2 → length (a_body b) = 3%nat →
            (score a < score b)%Q).
Proof.
  intros t. subst t. unfold tiers, slots. simpl.
  set (sorted := sorted_articles arts).
  assert (Hv : 12 ≤ visibleCount clicks).
  { unfold visibleCount, ARTICLES_PER_PAGE. lia. }
  rewrite JS.slice0_nonneg by lia.
  split; [apply sort_by_score_perm|].
  split; [apply sort_by_score_descending|].
  split.
  { replace (Z.to_nat (visibleCount clicks))
      with (4 + Z.to_nat (visibleCount clicks - 4))%nat by lia.
    generalize (Z.to_nat (visibleCount clicks - 4)). intros n.
    destruct sorted as [|a [|b [|c [|d l]]]]; simpl; try done;
      by rewrite ?take_nil. }
  rewrite length_take, !length_drop.
  split.
  { rewrite bool_decide_eq_true. lia. }
  split.
  { rewrite bool_decide_eq_true. lia. }
  split.
  { intros a Ha. unfold card_rendered. by rewrite (proj2 (JS.not_string_trim _) Ha). }
  intros a b Ha1 Ha2 Hb1 Hb2. unfold score. rewrite Ha1, Ha2, Hb1, Hb2.
  vm_compute. reflexivity.
Qed.

(** The chips of a card and the number after the plus sign account for
    every referenced source: the chips are the first sources, five on the
    large card and three on the others, and the number, shown only when
    some source has no chip, counts the rest. *)
Theorem source_chips_account_for_all (srcs : option (list string)) (size : CardSize) :
  (source_chips srcs size).1 = take (Z.to_nat (srcLimit size)) (default [] srcs)
  ∧ Z.of_nat (length (source_chips srcs size).1) + default 0 (source_chips srcs size).2
    = Z.of_nat (length (default [] srcs))
  ∧ ((source_chips srcs size).2 = None ↔ (source_chips srcs size).1 = default [] srcs)
  ∧ (∀ n, (source_chips srcs size).2 = Some n → 0 < n).
Proof.
  unfold source_chips. simpl. set (l := default [] srcs).
  assert (Hlim : 0 ≤ srcLimit size) by (by destruct size).
  rewrite JS.slice0_nonneg by done.
  split; [done|]. rewrite length_take.
  case_bool_decide as Hlen; simpl.
  - split; [lia|]. split.
    + split; [done|]. intros H. apply (f_equal length) in H.
      rewrite length_take in H. lia.
    + intros n [= <-]. lia.
  - split; [lia|]. split; [|done].
    split; [|done]. intros _. apply take_ge. lia.
Qed.

(** One source and 203 characters against two sources and 3 characters:
    as rationals both scores are 4.03, as numbers the first is smaller, so
    the second article is the hero although it comes later. *)
Example feed_page_rounded_scores :
  let p := {| a_headline := [0x70%N]; a_body := replicate 203 0x62%N;
              a_source_count := Some 1 |} in
  let q := {| a_headline := [0x71%N]; a_body := replicate 3 0x62%N;
              a_source_count := Some 2 |} in
  (score p < score q)%Q
  ∧ (inject_Z (1 * 2) + 203 / 100 == inject_Z (2 * 2) + 3 / 100)%Q
  ∧ slots (tiers [Some p; Some q] 0) = [q; p].
Proof. split; [|split]; vm_compute; reflexivity. Qed.

(** Fifteen articles without headline or body differences but for their
    source counts: the page gives slots to the twelve best. *)
Example feed_page_fifteen :
  let arts := (λ n, Some {| a_headline := [0x61%N]; a_body := [0x62%N];
                            a_source_count := Some (Z.of_nat n) |}) <$> seq 0 15 in
  (default 0 ∘ a_source_count) <$> slots (tiers arts 0)
  = [14; 13; 12; 11; 10; 9; 8; 7; 6; 5; 4; 3]
  ∧ t_hasMore (tiers arts 0) = true
  ∧ t_remaining (tiers arts 0) = 3
  ∧ t_hasMore (tiers arts 1) = false.
Proof. vm_compute. done. Qed.


End Feed.

(* ===================================================================== *)
(** * The theme: stores/themeStore.ts, ThemeToggle and ClientLayout *)
(* ===================================================================== *)

Module Theme.

Inductive Theme := Light | Dark | System.

(** The store starts with the system theme. *)
Definition theme_init : Theme := System.

(** The table [nextTheme] of [ThemeToggle]; a click sets the store to the
    next theme. *)
Definition nextTheme (theme : Theme) : Theme :=
  match theme with
  | Light => Dark
  | Dark => System
  | System => Light
  end.

Definition clicks (n : nat) (theme : Theme) : Theme := Nat.iter n nextTheme theme.

(** The effect of [ClientLayout] on [document.documentElement.classList];
    [prefersDark] is what the media query reports. *)
Definition apply_theme (mounted : bool) (theme : Theme) (prefersDark : bool)
    (classList : gset string) : gset string :=
  if negb mounted then classList
  else
    match theme with
    | Dark => {["dark"]} ∪ classList
    | Light => classList ∖ {["dark"]}
    | System => if prefersDark then {["dark"]} ∪ classList else classList ∖ {["dark"]}
    end.

(** Whether the page is to be dark. *)
Definition wants_dark (theme : Theme) (prefersDark : bool) : bool :=
  match theme with
  | Dark => true
  | Light => false
  | System => prefersDark
  end.

(** The toggle goes round the three themes: every theme is reached from
    every other in at most two clicks and the third click is back at the
    start. Once the layout is mounted, the [dark] class is on the root
    element exactly when the theme is dark, or is the system theme on a
    system that prefers dark, whatever classes were there before; the
    other classes are left alone. *)
Theorem theme_is_applied :
  (∀ theme, clicks 3 theme = theme ∧ nextTheme theme ≠ theme)
  ∧ (∀ theme theme', ∃ n, (n ≤ 2)%nat ∧ clicks n theme = theme')
  ∧ (∀ theme prefersDark classList,
       "dark" ∈ apply_theme true theme prefersDark classList
       ↔ wants_dark theme prefersDark = true)
  ∧ (∀ theme prefersDark classList c, c ≠ "dark" →
       c ∈ apply_theme true theme prefersDark classList ↔ c ∈ classList)
  ∧ (∀ theme prefersDark classList,
       apply_theme false theme prefersDark classList = classList).
Proof.
  split; [by intros []|].
  split.
  { intros [] []; (by exists 0%nat; split; [lia|]) || (by exists 1%nat; split; [lia|])
                  || (by exists 2%nat; split; [lia|]). }
  split.
  { intros [] [] cl; simpl; split; try done; set_solver. }
  split; [|done].
  intros [] [] cl c Hc; simpl; set_solver.
Qed.

End Theme.

(* ===================================================================== *)
(** * What the results container shows for a response with facts *)
(* ===================================================================== *)

Module ResultViews.
Import Results.

(** The props of a [SourceLink]; [link_url] is [None] when [fact.sources]
    has no element at the index of the name. *)
Record SourceLinkProps := {
  link_name : string;
  link_url : option string;
}.

(** What a [FactCard] shows: its number, the claim, the date and the
    evidence when they are not empty, its source links, and whether it
    carries a consensus badge. *)
Record FactCardView := {
  card_number : Z;
  card_claim : string;
  card_date : option string;
  card_evidence : option string;
  card_links : list SourceLinkProps;
  card_showConsensus : bool;
}.

(** The source links of a [FactCard]: one per source name when there are
    names, else one per source, named by its position. *)
Definition source_links (fact : Fact) : list SourceLinkProps :=
  match source_names fact with
  | Some (n :: ns) =>
      imap (λ i name, {| link_name := name; link_url := fact_sources fact !! i |}) (n :: ns)
  | _ =>
      imap (λ i url, {| link_name := "Source " +:+ pretty (Z.of_nat i + 1);
                        link_url := Some url |})
        (fact_sources fact)
  end.

Definition FactCard (fact : Fact) (index : nat) (showConsensus : bool) : FactCardView :=
  {| card_number := Z.of_nat index + 1;
     card_claim := claim fact;
     card_date := nonempty (date fact);
     card_evidence := nonempty (evidence fact);
     card_links := source_links fact;
     card_showConsensus := showConsensus |}.

(** The cards of a [FactList]. *)
Definition FactListCards (fs : list Fact) (md : option Mode) : list FactCardView :=
  imap (λ idx fact, FactCard fact idx (bool_decide (md ≠ Some Fast))) fs.

(** A fact with two source names and one source. *)
Definition two_names_one_source : Fact :=
  {| claim := "c"; date := None; evidence := Some ""; source_names := Some ["BBC"; "CNN"];
     fact_sources := ["https://bbc.example"]; fact_confidence := "high";
     fact_consensus := "true" |}.

Lemma elem_of_MetricsBar v r :
  v ∈ MetricsBar r → is_metric_card v = true.
Proof.
  unfold MetricsBar. intros Hv. apply elem_of_app in Hv as [Hv|Hv].
  - destruct (negb _); [|by apply elem_of_nil in Hv].
    apply list_elem_of_singleton in Hv. by subst.
  - apply elem_of_cons in Hv as [->|Hv]; [done|].
    apply list_elem_of_singleton in Hv. by subst.
Qed.

Lemma elem_of_HeadlineSummary v h s a :
  v ∈ HeadlineSummary h s a
  ↔ (∃ h', nonempty h = Some h' ∧ v = HeadlineBlock h' (nonempty s))
    ∨ (nonempty h = None ∧ ∃ a', nonempty a = Some a' ∧ v = AnswerBlock a').
Proof.
  unfold HeadlineSummary.
  destruct (nonempty h) as [h'|]; [|destruct (nonempty a) as [a'|]];
    rewrite ?list_elem_of_singleton, ?elem_of_nil; naive_solver.
Qed.

(** For a response with facts the container never shows the no-results
    view: it shows the list of all the facts in the mode of the response,
    the bookmark button and the whole metrics bar; the headline block when
    there is a headline, the answer block only when there is no headline
    but an answer, and never both; and the conflicting reports exactly
    when the response carries at least one divergence. *)
Theorem results_for_facts (r : ConsensusResponse) (query : JS.jsstring) :
  facts r ≠ [] →
  (NoResults ∉ ResultsContainer r query)
  ∧ FactList (facts r) (mode r) ∈ ResultsContainer r query
  ∧ BookmarkButton query r ∈ ResultsContainer r query
  ∧ (∀ v, v ∈ MetricsBar r → v ∈ ResultsContainer r query)
  ∧ (∀ h s, HeadlineBlock h s ∈ ResultsContainer r query
            ↔ nonempty (headline r) = Some h ∧ s = nonempty (summary r))
  ∧ (∀ a, AnswerBlock a ∈ ResultsContainer r query
          ↔ nonempty (headline r) = None ∧ nonempty (answer r) = Some a)
  ∧ (∀ ds, DivergenceList ds ∈ ResultsContainer r query
           ↔ divergences r = Some ds ∧ ds ≠ []).
Proof.
  intros Hf. unfold ResultsContainer.
  rewrite bool_decide_false by (by destruct (facts r)).
  assert (Hkind : ∀ v, is_metric_card v = false → v ∉ MetricsBar r).
  { intros v Hv Hin. apply elem_of_MetricsBar in Hin. congruence. }
  assert (Hdiv : ∀ v, v ∈ match divergences r with
                           | Some (d :: ds) => [DivergenceList (d :: ds)]
                           | _ => []
                           end
                      ↔ ∃ ds, divergences r = Some ds ∧ ds ≠ [] ∧ v = DivergenceList ds).
  { intros v. destruct (divergences r) as [[|d ds]|];
      rewrite ?list_elem_of_singleton, ?elem_of_nil; naive_solver. }
  assert (Hbias : ∀ v, v ∈ match nonempty (bias_analysis r) with
                            | Some a => [BiasAnalysis a]
                            | None => []
                            end
                       → ∃ a, v = BiasAnalysis a).
  { intros v. destruct (nonempty (bias_analysis r));
      rewrite ?list_elem_of_singleton, ?elem_of_nil; naive_solver. }
  assert (Hin : ∀ v, v ∈ [ModeBadge (bool_decide (mode r = Some Fast));
                          BookmarkButton query r]
                       ++ MetricsBar r
                       ++ HeadlineSummary (headline r) (summary r) (answer r)
                       ++ [FactList (facts r) (mode r)]
                       ++ match divergences r with
                          | Some (d :: ds) => [DivergenceList (d :: ds)]
                          | _ => []
                          end
                       ++ match nonempty (bias_analysis r) with
                          | Some a => [BiasAnalysis a]
                          | None => []
                          end
                     ↔ v = ModeBadge (bool_decide (mode r = Some Fast))
                       ∨ v = BookmarkButton query r
                       ∨ v ∈ MetricsBar r
                       ∨ v ∈ HeadlineSummary (headline r) (summary r) (answer r)
                       ∨ v = FactList (facts r) (mode r)
                       ∨ v ∈ match divergences r with
                             | Some (d :: ds) => [DivergenceList (d :: ds)]
                             | _ => []
                             end
                       ∨ v ∈ match nonempty (bias_analysis r) with
                             | Some a => [BiasAnalysis a]
                             | None => []
                             end).
  { intros v. rewrite !elem_of_app, !elem_of_cons, elem_of_nil. naive_solver. }
  split.
  { rewrite Hin, elem_of_HeadlineSummary, Hdiv.
    intros [?|[?|[H|[H|[?|[H|H]]]]]]; try done.
    - by apply (Hkind NoResults).
    - naive_solver.
    - naive_solver.
    - apply Hbias in H. naive_solver. }
  split; [apply Hin; naive_solver|].
  split; [apply Hin; naive_solver|].
  split; [intros v Hv; apply Hin; naive_solver|].
  split.
  { intros h s. rewrite Hin, elem_of_HeadlineSummary, Hdiv. split.
    - intros [?|[?|[H|[H|[?|[H|H]]]]]]; try done.
      + by apply (Hkind (HeadlineBlock h s)) in H.
      + naive_solver.
      + naive_solver.
      + apply Hbias in H. naive_solver.
    - intros [Hh ->]. right; right; right; left. left. eauto. }
  split.
  { intros a. rewrite Hin, elem_of_HeadlineSummary, Hdiv. split.
    - intros [?|[?|[H|[H|[?|[H|H]]]]]]; try done.
      + by apply (Hkind (AnswerBlock a)) in H.
      + naive_solver.
      + naive_solver.
      + apply Hbias in H. naive_solver.
    - intros [Hh Ha]. right; right; right; left. right. eauto. }
  intros ds. rewrite Hin, elem_of_HeadlineSummary, Hdiv. split.
  - intros [?|[?|[H|[H|[?|[H|H]]]]]]; try done.
    + by apply (Hkind (DivergenceList ds)) in H.
    + naive_solver.
    + naive_solver.
    + apply Hbias in H. naive_solver.
  - intros [Hd Hne]. do 5 right. left. eauto.
Qed.

Lemma source_links_length (f : Fact) :
  length (source_links f)
  = match source_names f with
    | Some (n :: ns) => length (n :: ns)
    | _ => length (fact_sources f)
    end.
Proof.
  unfold source_links. destruct (source_names f) as [[|n ns]|]; by rewrite length_imap.
Qed.

(** The fact list shows one card per fact, numbered from one in the order
    of the facts, with a consensus badge unless the mode is fast. A card
    has one link per source name, or, without names, one link per source
    named Source 1, Source 2 and so on; with names, every link has a URL
    exactly when the names do not outnumber the sources. *)
Theorem fact_cards_are_numbered (fs : list Fact) (md : option Mode) :
  length (FactListCards fs md) = length fs
  ∧ (∀ i f, fs !! i = Some f →
       ∃ card, FactListCards fs md !! i = Some card
         ∧ card_number card = Z.of_nat i + 1
         ∧ card_claim card = claim f
         ∧ card_links card = source_links f
         ∧ (card_showConsensus card = false ↔ md = Some Fast))
  ∧ (∀ f names, source_names f = Some names → names ≠ [] →
       link_name <$> source_links f = names
       ∧ (Forall (λ l, link_url l ≠ None) (source_links f)
          ↔ (length names ≤ length (fact_sources f))%nat))
  ∧ (∀ f, source_names f = None ∨ source_names f = Some [] →
       link_url <$> source_links f = Some <$> fact_sources f
       ∧ ∀ i l, source_links f !! i = Some l →
                link_name l = "Source " +:+ pretty (Z.of_nat i + 1)).
Proof.
  split; [apply length_imap|].
  split.
  { intros i f Hi. unfold FactListCards. rewrite list_lookup_imap, Hi. simpl.
    eexists. split; [done|]. simpl. repeat split; try done.
    - intros H. apply bool_decide_eq_false in H. by apply dec_stable in H.
    - intros ->. by apply bool_decide_eq_false; intros H. }
  split.
  { intros f names Hn Hne. unfold source_links. rewrite Hn.
    destruct names as [|n ns]; [done|]. split.
    - apply list_eq. intros i. rewrite list_lookup_fmap, list_lookup_imap.
      by destruct ((n :: ns) !! i).
    - rewrite Forall_lookup. split.
      + intros H. destruct (decide (length (n :: ns) ≤ length (fact_sources f))%nat)
          as [|Hgt]; [done|]. exfalso.
        assert (Hlt : (length (fact_sources f) < length (n :: ns))%nat) by lia.
        apply lookup_lt_is_Some_2 in Hlt as [name Hname].
        apply (H (length (fact_sources f))
                 {| link_name := name;
                    link_url := fact_sources f !! length (fact_sources f) |}).
        * by rewrite list_lookup_imap, Hname.
        * simpl. apply lookup_ge_None_2. lia.
      + intros Hle i l. rewrite list_lookup_imap. intros Hl.
        destruct ((n :: ns) !! i) as [name|] eqn:Hi; [|done].
        simpl in Hl. injection Hl as <-. simpl.
        apply lookup_lt_Some in Hi.
        assert (is_Some (fact_sources f !! i)) as [u ->]; [|done].
        apply lookup_lt_is_Some_2. lia. }
  intros f Hn. unfold source_links.
  assert (Hcase : match source_names f with
                  | Some (n :: ns) => False
                  | _ => True
                  end) by (by destruct Hn as [->| ->]).
  destruct (source_names f) as [[|n ns]|]; try done.
  - split.
    + apply list_eq. intros i. rewrite !list_lookup_fmap, list_lookup_imap.
      by destruct (fact_sources f !! i).
    + intros i l. rewrite list_lookup_imap.
      destruct (fact_sources f !! i); [|done]. by intros [= <-].
  - split.
    + apply list_eq. intros i. rewrite !list_lookup_fmap, list_lookup_imap.
      by destruct (fact_sources f !! i).
    + intros i l. rewrite list_lookup_imap.
      destruct (fact_sources f !! i); [|done]. by intros [= <-].
Qed.

(** More names than sources: the second link has no URL. *)
Example link_without_url :
  source_links two_names_one_source
  = [ {| link_name := "BBC"; link_url := Some "https://bbc.example" |};
      {| link_name := "CNN"; link_url := None |} ].
Proof. reflexivity. Qed.

Lemma results_for_facts_witness :
  FactList [two_names_one_source] (Some Fast)
  ∈ ResultsContainer
      {| facts := [two_names_one_source]; mode := Some Fast; consensus_score := 1%Q;
         coverage_quality := None; sources_analyzed := None; chunks_used := None;
         headline := None; summary := None; answer := None; divergences := None;
         bias_analysis := None |} [].
Proof.
  pose proof (results_for_facts
           {| facts := [two_names_one_source]; mode := Some Fast; consensus_score := 1%Q;
              coverage_quality := None; sources_analyzed := None; chunks_used := None;
              headline := None; summary := None; answer := None; divergences := None;
              bias_analysis := None |} [] ltac:(discriminate)) as (_ & H & _).
  exact H.
Defined.

End ResultViews.

(* ===================================================================== *)
(** * components/layout: which navigation item is active *)
(* ===================================================================== *)

Module Nav.

(** An element of [NAV_ITEMS]. *)
Record NavItem := {
  href : string;
  nav_label : string;
  icon : string;
}.

(** [pathname.startsWith(item.href)], in [Navigation] and in [BottomNav]. *)
Definition isActive (pathname : string) (item : NavItem) : bool :=
  String.prefix (href item) pathname.

Definition active_items (pathname : string) (items : list NavItem) : list NavItem :=
  filter (λ item, isActive pathname item = true) items.

(** No item's address starts with the address of another item. *)
Definition separate (items : list NavItem) : Prop :=
  ∀ i j a b, items !! i = Some a → items !! j = Some b → i ≠ j →
             String.prefix (href a) (href b) = false.

(** Seven items of the kind the navigation has. *)
Definition demo_items : list NavItem :=
  [ {| href := "/feed"; nav_label := "Feed"; icon := "Newspaper" |};
    {| href := "/search"; nav_label := "Search"; icon := "Search" |};
    {| href := "/sources"; nav_label := "Sources"; icon := "Globe" |};
    {| href := "/history"; nav_label := "History"; icon := "History" |};
    {| href := "/bookmarks"; nav_label := "Bookmarks"; icon := "Bookmark" |};
    {| href := "/arena"; nav_label := "Council"; icon := "Users" |};
    {| href := "/trending"; nav_label := "Trending"; icon := "TrendingUp" |} ].

Lemma prefix_comparable a b p :
  String.prefix a p = true → String.prefix b p = true →
  String.prefix a b = true ∨ String.prefix b a = true.
Proof.
  revert a b. induction p as [|c p IH]; intros [|x a] [|y b]; simpl; auto; try done.
  destruct (Ascii.ascii_dec x c) as [->|]; [|done].
  destruct (Ascii.ascii_dec y c) as [->|]; [|done].
  destruct (Ascii.ascii_dec c c); [|done]. apply IH.
Qed.

Lemma prefix_app a rest : String.prefix a (a +:+ rest) = true.
Proof.
  induction a as [|c a IH]; [by destruct rest|].
  change (String c a +:+ rest) with (String c (a +:+ rest)). simpl.
  by destruct (Ascii.ascii_dec c c).
Qed.

(** When no item's address starts with another's, at most one item is
    marked active on any page, and on every page below the address of an
    item that item is the one. *)
Theorem one_active_item (items : list NavItem) (pathname : string) :
  separate items →
  (∀ i j a b, items !! i = Some a → items !! j = Some b →
     isActive pathname a = true → isActive pathname b = true → i = j)
  ∧ (∀ i a rest, items !! i = Some a →
     isActive (href a +:+ rest) a = true
     ∧ ∀ j b, items !! j = Some b → isActive (href a +:+ rest) b = true → j = i).
Proof.
  intros Hsep.
  assert (Hone : ∀ p i j a b, items !! i = Some a → items !! j = Some b →
            isActive p a = true → isActive p b = true → i = j).
  { intros p i j a b Ha Hb Hpa Hpb. destruct (decide (i = j)) as [|Hne]; [done|].
    destruct (prefix_comparable _ _ _ Hpa Hpb) as [H|H].
    - by rewrite (Hsep i j a b) in H.
    - rewrite (Hsep j i b a) in H; done. }
  split; [apply Hone|].
  intros i a rest Ha.
  assert (Hact : isActive (href a +:+ rest) a = true) by apply prefix_app.
  split; [done|]. intros j b Hb Hpb. by apply (Hone (href a +:+ rest) j i b a).
Qed.

(** An item whose address starts another's is active together with it. *)
Example two_active_items :
  active_items "/feedback"
    [ {| href := "/feed"; nav_label := "Feed"; icon := "Newspaper" |};
      {| href := "/feedback"; nav_label := "Feedback"; icon := "Search" |} ]
  = [ {| href := "/feed"; nav_label := "Feed"; icon := "Newspaper" |};
      {| href := "/feedback"; nav_label := "Feedback"; icon := "Search" |} ].
Proof. reflexivity. Qed.

Lemma one_active_item_witness :
  separate demo_items
  ∧ isActive ("/history" +:+ "/today")
      {| href := "/history"; nav_label := "History"; icon := "History" |} = true
  ∧ active_items "/history/today" demo_items
    = [ {| href := "/history"; nav_label := "History"; icon := "History" |} ].
Proof.
  assert (Hsep : separate demo_items).
  { intros i j a b Ha Hb Hne.
    do 7 (destruct i as [|i]; [do 7 (destruct j as [|j];
            [simpl in *; simplify_eq; (done || reflexivity)|]); done|]).
    done. }
  split; [exact Hsep|].
  pose proof (one_active_item demo_items "/history" Hsep) as (_ & H).
  split; [|reflexivity].
  exact (proj1 (H 3%nat {| href := "/history"; nav_label := "History"; icon := "History" |}
                  "/today" eq_refl)).
Defined.

End Nav.
